(** * RohitVM: a shallow embedding of the 16-bit virtual CPU

    The development follows [RohitVM.hpp] and [RohitVM.cpp]: the register
    file, the 64KB memory, the opcode table, the loader, the fetch and
    dispatch functions and the stack helpers; then the utilities of
    [RohitUtils.cpp] and the driver of [main.cpp].  Integers of the C++ code are
    modelled as [Z] with every conversion to a fixed-width type written
    out; the memory vector is a [list Z]; the function-local static
    [std::map] of [getInstructionSize] is a [gmap] carried in the machine
    state, because [operator[]] inserts into it. *)

From Stdlib Require Import ZArith Lia.
From stdpp Require Import base gmap list strings pretty.

Local Open Scope Z_scope.

(** ** Fixed-width integers *)

Module Int.

(** Conversion to [uint8_t] and [uint16_t]: reduction modulo 2^8, 2^16. *)
Definition to_u8 (x : Z) : Z := x mod 2 ^ 8.
Definition to_u16 (x : Z) : Z := x mod 2 ^ 16.

(** A [uint16_t] operand is promoted to [int], of 32 bits, before
    arithmetic.  A result inside the range of [int] is the mathematical
    one; for a result outside it, a signed overflow, the C++ standard
    defines no behaviour. *)
Definition in_int (x : Z) : bool := (- 2 ^ 31 <=? x) && (x <? 2 ^ 31).

Definition is_u8 (x : Z) : Prop := 0 <= x < 256.
Definition is_u16 (x : Z) : Prop := 0 <= x < 65536.

End Int.
Export Int.

(** ** Register file ([class Registers]) *)

Record Registers : Type := mkRegisters {
  ax : Z; bx : Z; cx : Z; dx : Z;
  sp : Z; ip : Z; flags : Z
}.

#[global] Instance Registers_eq_dec : EqDecision Registers.
Proof. solve_decision. Defined.

(** Default member initialisers of [Registers]. *)
Definition Registers_init : Registers :=
  {| ax := 0; bx := 0; cx := 0; dx := 0;
     sp := 0xFFFF; ip := 0x0000; flags := 0x0000 |}.

(** [enum Flag] *)
Definition Equal : Z := 0x08.
Definition Greater : Z := 0x04.
Definition Higher : Z := 0x02.
Definition Lower : Z := 0x01.

Definition set_ax (v : Z) (g : Registers) : Registers :=
  {| ax := v; bx := bx g; cx := cx g; dx := dx g;
     sp := sp g; ip := ip g; flags := flags g |}.
Definition set_bx (v : Z) (g : Registers) : Registers :=
  {| ax := ax g; bx := v; cx := cx g; dx := dx g;
     sp := sp g; ip := ip g; flags := flags g |}.
Definition set_cx (v : Z) (g : Registers) : Registers :=
  {| ax := ax g; bx := bx g; cx := v; dx := dx g;
     sp := sp g; ip := ip g; flags := flags g |}.
Definition set_dx (v : Z) (g : Registers) : Registers :=
  {| ax := ax g; bx := bx g; cx := cx g; dx := v;
     sp := sp g; ip := ip g; flags := flags g |}.
Definition set_sp (v : Z) (g : Registers) : Registers :=
  {| ax := ax g; bx := bx g; cx := cx g; dx := dx g;
     sp := v; ip := ip g; flags := flags g |}.
Definition set_ip (v : Z) (g : Registers) : Registers :=
  {| ax := ax g; bx := bx g; cx := cx g; dx := dx g;
     sp := sp g; ip := v; flags := flags g |}.
Definition set_flags (v : Z) (g : Registers) : Registers :=
  {| ax := ax g; bx := bx g; cx := cx g; dx := dx g;
     sp := sp g; ip := ip g; flags := v |}.

(** ** Opcodes ([enum class Opcode : uint8_t]) and instructions

    An [Opcode] is its underlying byte: [fetchNextInstruction] builds one
    with [static_cast<Opcode>] from any memory byte. *)

Abbreviation Opcode := Z (only parsing).

Definition NOP : Opcode := 0x01.
Definition HLT : Opcode := 0x02.
Definition MOV : Opcode := 0x08.
Definition MOV_BX : Opcode := 0x09.
Definition MOV_CX : Opcode := 0x0A.
Definition MOV_DX : Opcode := 0x0B.
Definition MOV_SP : Opcode := 0x0C.
Definition STE : Opcode := 0x10.
Definition CLE : Opcode := 0x11.
Definition STG : Opcode := 0x12.
Definition CLG : Opcode := 0x13.
Definition STH : Opcode := 0x14.
Definition CLH : Opcode := 0x15.
Definition STL : Opcode := 0x16.
Definition CLL : Opcode := 0x17.
Definition PUSH : Opcode := 0x1A.
Definition POP : Opcode := 0x1B.
Definition ADD : Opcode := 0x20.
Definition SUB : Opcode := 0x21.
Definition MUL : Opcode := 0x22.
Definition DIV : Opcode := 0x23.

(** The enumerators of [Opcode], in the order of the header. *)
Definition opcodes : list Opcode :=
  [NOP; HLT; MOV; MOV_BX; MOV_CX; MOV_DX; MOV_SP;
   STE; CLE; STG; CLG; STH; CLH; STL; CLL;
   PUSH; POP; ADD; SUB; MUL; DIV].

Definition recognized (op : Opcode) : bool := bool_decide (op ∈ opcodes).

Record Instruction : Type := mkInstruction {
  op : Opcode;
  a1 : Z;
  a2 : Z
}.

(** ** The machine ([class VM]) *)

(** [Memory::SIZE] *)
Definition SIZE : Z := 65536.

(** [cpu.r], [memory.data], [breakLine], and the static [sizeMap] of
    [getInstructionSize]. *)
Record VM : Type := mkVM {
  r : Registers;
  data : list Z;
  breakLine : Z;
  sizeMap : gmap Z Z
}.

Definition set_r (g : Registers) (s : VM) : VM :=
  {| r := g; data := data s; breakLine := breakLine s; sizeMap := sizeMap s |}.
Definition set_data (d : list Z) (s : VM) : VM :=
  {| r := r s; data := d; breakLine := breakLine s; sizeMap := sizeMap s |}.
Definition set_breakLine (b : Z) (s : VM) : VM :=
  {| r := r s; data := data s; breakLine := b; sizeMap := sizeMap s |}.
Definition set_sizeMap (m : gmap Z Z) (s : VM) : VM :=
  {| r := r s; data := data s; breakLine := breakLine s; sizeMap := m |}.

(** The initialiser list of the static [sizeMap]. *)
Definition sizeMap_init : gmap Z Z :=
  list_to_map
    [(NOP, 1); (HLT, 1);
     (MOV, 3); (MOV_BX, 3); (MOV_CX, 3);
     (MOV_DX, 3); (MOV_SP, 3);
     (STE, 1); (CLE, 1);
     (STG, 1); (CLG, 1);
     (STH, 1); (CLH, 1);
     (STL, 1); (CLL, 1);
     (PUSH, 3); (POP, 3);
     (ADD, 1); (SUB, 1); (MUL, 1); (DIV, 1)].

(** [VM() = default] with [Memory() : data(SIZE, 0)], before the first call
    of [getInstructionSize]. *)
Definition VM_init : VM :=
  {| r := Registers_init;
     data := replicate (Z.to_nat SIZE) 0;
     breakLine := 0;
     sizeMap := sizeMap_init |}.

(** ** Control effects

    A member function either returns, or ends the process through
    [handleError] ([std::exit]), or lets an exception escape.  [Stuck] says
    that the model has no result: the fuel of the loop of [execute] is
    spent, or the C++ standard leaves the behaviour of the code undefined
    (the signed overflow of [MUL]). *)

(** [std::out_of_range], as [std::vector::at] throws it for the index [n]
    on a vector of [size] elements. *)
Inductive exn : Type :=
| out_of_range (n size : Z).

Inductive outcome (A : Type) : Type :=
| Ret (a : A) (s : VM)
| Exit (msg : string) (s : VM)
| Throw (e : exn) (s : VM)
| Stuck.
Arguments Ret {A} a s.
Arguments Exit {A} msg s.
Arguments Throw {A} e s.
Arguments Stuck {A}.

Definition M (A : Type) : Type := VM -> outcome A.

Definition ret {A} (a : A) : M A := fun s => Ret a s.

Definition bind {A B} (c : M A) (k : A -> M B) : M B :=
  fun s =>
    match c s with
    | Ret a s' => k a s'
    | Exit msg s' => Exit msg s'
    | Throw e s' => Throw e s'
    | Stuck => Stuck
    end.

Declare Scope vm_scope.
Delimit Scope vm_scope with vm.
Notation "'let*' x ':=' c 'in' k" := (bind c (fun x => k))
  (at level 10, x name, c at level 100, k at level 200) : vm_scope.
Notation "c ;; k" := (bind c (fun _ => k))
  (at level 100, k at level 200, right associativity) : vm_scope.
Local Open Scope vm_scope.

Definition get : M VM := fun s => Ret s s.
Definition modify (f : VM -> VM) : M unit := fun s => Ret tt (f s).
Definition modify_r (f : Registers -> Registers) : M unit :=
  modify (fun s => set_r (f (r s)) s).
Definition when (b : bool) (c : M unit) : M unit := if b then c else ret tt.

(** Undefined behaviour: no result. *)
Definition undefined {A} : M A := fun _ => Stuck.

(** The text of [ex.what()].  The C++ standard leaves it to the library;
    this is the text of the range check of libstdc++.  No run of a
    well-formed machine ever shows it. *)
Definition what (e : exn) : string :=
  match e with
  | out_of_range n size =>
      "vector::_M_range_check: __n (which is " +:+ pretty n +:+
      ") >= this->size() (which is " +:+ pretty size +:+ ")"
  end.

(** [VM::handleError]: the message goes to [std::cerr]; a fatal error ends
    the process. *)
Definition handleError (msg : string) (fatal : bool) : M unit :=
  fun s => if fatal then Exit msg s else Ret tt s.

(** ** Memory ([class Memory]) *)

(** [Memory::operator[](uint16_t addr)] used as an rvalue.  The argument
    is converted to the parameter type [uint16_t] at the call, then
    [data.at(addr)] checks it against the length of the vector. *)
Definition Memory_read (addr : Z) : M Z :=
  fun s =>
    match data s !! Z.to_nat (to_u16 addr) with
    | Some b => Ret b s
    | None =>
        Throw (out_of_range (to_u16 addr) (Z.of_nat (length (data s)))) s
    end.

(** [Memory::operator[](uint16_t addr)] used as the target of an
    assignment of [v], which is converted to [uint8_t]. *)
Definition Memory_write (addr : Z) (v : Z) : M unit :=
  fun s =>
    match data s !! Z.to_nat (to_u16 addr) with
    | Some _ => Ret tt (set_data (<[Z.to_nat (to_u16 addr) := to_u8 v]> (data s)) s)
    | None =>
        Throw (out_of_range (to_u16 addr) (Z.of_nat (length (data s)))) s
    end.

(** ** Instruction sizes ([VM::getInstructionSize])

    [sizeMap[op]] returns the mapped size; for a key that is absent it
    inserts the key with the value-initialised size 0 and returns that. *)
Definition getInstructionSize (op : Opcode) : M Z :=
  fun s =>
    match sizeMap s !! op with
    | Some size => Ret size s
    | None => Ret 0 (set_sizeMap (<[op := 0]> (sizeMap s)) s)
    end.

(** ** Fetch ([VM::fetchNextInstruction]) *)

(** [memory[a] | (memory[a + 1] << 8)], converted to [uint16_t]. *)
Definition read_operand (a : Z) : M Z :=
  let* lo := Memory_read a in
  let* hi := Memory_read (a + 1) in
  ret (to_u16 (Z.lor lo (Z.shiftl hi 8))).

Definition fetchNextInstruction : M Instruction :=
  let* s0 := get in
  let ip0 := ip (r s0) in
  let* op := Memory_read ip0 in
  let* size := getInstructionSize op in
  let* a1 := (if 2 <=? size then read_operand (ip0 + 1) else ret 0) in
  let* a2 := (if size =? 5 then read_operand (ip0 + 3) else ret 0) in
  modify_r (fun g => set_ip (to_u16 (ip g + size)) g) ;;
  ret {| op := op; a1 := a1; a2 := a2 |}.

(** ** Flags ([class CPU]) *)

(** [CPU::setFlag]: [r.flags |= mask] or [r.flags &= ~mask]; the operands
    are promoted to [int] and the result is stored in a [uint16_t]. *)
Definition setFlag (mask : Z) (val : bool) : M unit :=
  modify_r (fun g =>
    if val then set_flags (to_u16 (Z.lor (flags g) mask)) g
    else set_flags (to_u16 (Z.land (flags g) (Z.lnot mask))) g).

Definition setEqual (val : bool) : M unit := setFlag Equal val.
Definition setGreater (val : bool) : M unit := setFlag Greater val.
Definition setHigher (val : bool) : M unit := setFlag Higher val.
Definition setLower (val : bool) : M unit := setFlag Lower val.

(** The getters return [r.flags & mask] converted to [bool]. *)
Definition getFlag (mask : Z) (s : VM) : bool :=
  negb (Z.land (flags (r s)) mask =? 0).
Definition isEqual (s : VM) : bool := getFlag Equal s.
Definition isGreater (s : VM) : bool := getFlag Greater s.
Definition isHigher (s : VM) : bool := getFlag Higher s.
Definition isLower (s : VM) : bool := getFlag Lower s.

(** ** Stack ([VM::push], [VM::pop]) *)

Definition push (val : Z) : M unit :=
  let* s0 := get in
  when (sp (r s0) <? 2) (handleError "Stack Overflow" true) ;;
  modify_r (fun g => set_sp (to_u16 (sp g - 2)) g) ;;
  let* s1 := get in
  Memory_write (sp (r s1)) (Z.land val 0xff) ;;
  Memory_write (sp (r s1) + 1) (Z.land (Z.shiftr val 8) 0xff).

Definition pop : M Z :=
  let* s0 := get in
  when (SIZE - 2 <? sp (r s0)) (handleError "Stack Underflow" true) ;;
  let* val := read_operand (sp (r s0)) in
  modify_r (fun g => set_sp (to_u16 (sp g + 2)) g) ;;
  ret val.

(** ** Dispatch ([VM::executeInstruction])

    The [switch] on [instr.op] is a chain of comparisons with the
    enumerators, ending in the [default] label.  The output of [HLT] to
    [std::cout] leaves the machine as it is; the text is [HLT_output]
    below. *)

(** The arithmetic of [ADD], [SUB], [MUL], [DIV]: a compound assignment on
    [uint16_t] computes in [int] and converts the result back.  The
    computation in [int] is defined only when its result is in the range
    of [int]. *)
Definition arith (f : Z -> Z -> Z) : M unit :=
  let* s := get in
  if in_int (f (ax (r s)) (bx (r s)))
  then modify_r (fun g => set_ax (to_u16 (f (ax g) (bx g))) g)
  else undefined.

Definition executeInstruction (instr : Instruction) : M unit :=
  let o := op instr in
  if o =? NOP then ret tt
  else if o =? HLT then ret tt
  else if o =? MOV then modify_r (set_ax (a1 instr))
  else if o =? MOV_BX then modify_r (set_bx (a1 instr))
  else if o =? MOV_CX then modify_r (set_cx (a1 instr))
  else if o =? MOV_DX then modify_r (set_dx (a1 instr))
  else if o =? MOV_SP then modify_r (set_sp (a1 instr))
  else if o =? ADD then arith Z.add
  else if o =? SUB then arith Z.sub
  else if o =? MUL then arith Z.mul
  else if o =? DIV then
    let* s := get in
    when (bx (r s) =? 0) (handleError "Division by zero" true) ;;
    arith Z.quot
  else if o =? STE then setEqual true
  else if o =? CLE then setEqual false
  else if o =? STG then setGreater true
  else if o =? CLG then setGreater false
  else if o =? STH then setHigher true
  else if o =? CLH then setHigher false
  else if o =? STL then setLower true
  else if o =? CLL then setLower false
  else if o =? PUSH then
    let* s := get in
    let k := a1 instr in
    if k =? 0x00 then push (ax (r s))
    else if k =? 0x01 then push (bx (r s))
    else if k =? 0x02 then push (cx (r s))
    else if k =? 0x03 then push (dx (r s))
    else handleError "Invalid register for PUSH" true
  else if o =? POP then
    let k := a1 instr in
    if k =? 0x00 then let* v := pop in modify_r (set_ax v)
    else if k =? 0x01 then let* v := pop in modify_r (set_bx v)
    else if k =? 0x02 then let* v := pop in modify_r (set_cx v)
    else if k =? 0x03 then let* v := pop in modify_r (set_dx v)
    else handleError "Invalid register for POP" true
  else handleError "Illegal Instruction" true.

(** ** Loader ([VM::loadProgram]) *)

(** [mem[breakLine++] = v]: a store through the raw pointer at the old
    value of the [uint16_t] cursor, which is then incremented.  Nothing is
    checked; the cursor has 16 bits and the vector [SIZE] entries, so the
    store falls inside the vector. *)
Definition store_next (v : Z) : M unit :=
  modify (fun s =>
    set_breakLine (to_u16 (breakLine s + 1))
      (set_data (<[Z.to_nat (breakLine s) := to_u8 v]> (data s)) s)).

Definition store_operand (a : Z) : M unit :=
  store_next (Z.land a 0xff) ;;
  store_next (Z.land (Z.shiftr a 8) 0xff).

(** The body of the loop of [loadProgram]. *)
Definition loadInstruction (instr : Instruction) : M unit :=
  store_next (op instr) ;;
  let* size := getInstructionSize (op instr) in
  when (2 <=? size) (store_operand (a1 instr)) ;;
  when (size =? 5) (store_operand (a2 instr)).

Fixpoint loadProgram (program : list Instruction) : M unit :=
  match program with
  | [] => ret tt
  | instr :: rest => loadInstruction instr ;; loadProgram rest
  end.

(** ** The run loop ([VM::execute])

    [step] is one iteration of the [while (true)] loop up to the test for
    [HLT], [loop n] is the loop cut after [n] iterations, and [execute]
    adds the [catch] clause, which hands [ex.what()] to [handleError]. *)
Definition step : M Instruction :=
  let* instr := fetchNextInstruction in
  executeInstruction instr ;;
  ret instr.

Fixpoint loop (fuel : nat) : M unit :=
  match fuel with
  | O => fun _ => Stuck
  | S n =>
      let* instr := step in
      if op instr =? HLT then ret tt else loop n
  end.

Definition execute (fuel : nat) : M unit :=
  fun s =>
    match loop fuel s with
    | Throw e s' => handleError (what e) true s'
    | o => o
    end.

(** [runProgram] of the driver: a fresh machine, [loadProgram], [execute]. *)
Definition runProgram (fuel : nat) (prog : list Instruction) : outcome unit :=
  (loadProgram prog ;; execute fuel) VM_init.

(** ** How a run ends

    [execute] returns after [HLT] ("Program Halted."); [handleError] ends
    the process with its message. *)

Definition Halted (o : outcome unit) (s : VM) : Prop := o = Ret tt s.
Definition Faulted {A} (o : outcome A) (msg : string) (s : VM) : Prop :=
  o = Exit msg s.

(** ** Well-formed machine states

    Every register and the loader's cursor hold a [uint16_t], the memory
    vector has [SIZE] entries of type [uint8_t], and the static [sizeMap]
    agrees with its initialiser up to keys inserted with size 0. *)

Record wf_Registers (g : Registers) : Prop := {
  wf_ax : is_u16 (ax g);
  wf_bx : is_u16 (bx g);
  wf_cx : is_u16 (cx g);
  wf_dx : is_u16 (dx g);
  wf_sp : is_u16 (sp g);
  wf_ip : is_u16 (ip g);
  wf_flags : is_u16 (flags g)
}.

(** The size [sizeMap[op]] of the initial table, 0 for a missing key. *)
Definition size_of (op : Opcode) : Z := default 0 (sizeMap_init !! op).

Definition sizeMap_ok (m : gmap Z Z) : Prop :=
  forall op : Z, default 0 (m !! op) = size_of op.

Record wf (s : VM) : Prop := {
  wf_r : wf_Registers (r s);
  wf_length : length (data s) = Z.to_nat SIZE;
  wf_bytes : Forall is_u8 (data s);
  wf_breakLine : is_u16 (breakLine s);
  wf_sizeMap : sizeMap_ok (sizeMap s)
}.

(** The byte of memory at an address, 0 outside the vector. *)
Definition byte_at (s : VM) (addr : Z) : Z :=
  default 0 (data s !! Z.to_nat addr).

(** The general-purpose register that [PUSH] and [POP] select with their
    operand: 0, 1, 2, 3 for [ax], [bx], [cx], [dx]. *)
Definition reg (k : Z) (g : Registers) : Z :=
  if k =? 0x00 then ax g
  else if k =? 0x01 then bx g
  else if k =? 0x02 then cx g
  else dx g.

(** Set opcode, clear opcode and mask of each flag. *)
Definition flag_ops : list (Opcode * Opcode * Z) :=
  [(STE, CLE, Equal); (STG, CLG, Greater);
   (STH, CLH, Higher); (STL, CLL, Lower)].

(** Number of bytes the loader stores for an instruction, and for a
    program. *)
Definition stored_bytes (op : Opcode) : Z :=
  1 + (if 2 <=? size_of op then 2 else 0) + (if size_of op =? 5 then 2 else 0).

Definition encoded_length (program : list Instruction) : Z :=
  foldr (fun i n => stored_bytes (op i) + n) 0 program.

Definition instr0 (o : Opcode) : Instruction := {| op := o; a1 := 0; a2 := 0 |}.
Definition instr1 (o : Opcode) (a : Z) : Instruction := {| op := o; a1 := a; a2 := 0 |}.

(** The bit of the flag word that a mask of [enum Flag] selects. *)
Definition flag_bit (mask : Z) : Z := Z.log2 mask.

(** What a dispatch leaves alone: everything but the named register. *)
Definition same_memory (s s' : VM) : Prop :=
  data s' = data s /\ breakLine s' = breakLine s /\ sizeMap s' = sizeMap s.

Definition only_ax_changed (s s' : VM) : Prop :=
  bx (r s') = bx (r s) /\ cx (r s') = cx (r s) /\ dx (r s') = dx (r s) /\
  sp (r s') = sp (r s) /\ ip (r s') = ip (r s) /\ flags (r s') = flags (r s) /\
  same_memory s s'.

Definition only_flags_changed (s s' : VM) : Prop :=
  ax (r s') = ax (r s) /\ bx (r s') = bx (r s) /\ cx (r s') = cx (r s) /\
  dx (r s') = dx (r s) /\ sp (r s') = sp (r s) /\ ip (r s') = ip (r s) /\
  same_memory s s'.

Definition only_sp_changed (g g' : Registers) : Prop :=
  ax g' = ax g /\ bx g' = bx g /\ cx g' = cx g /\ dx g' = dx g /\
  ip g' = ip g /\ flags g' = flags g.

(** The state that [push val] leaves when it returns: [sp] is lowered by
    2 and the two bytes of [val] are stored there, low byte first. *)
Definition pushed (val : Z) (s : VM) : VM :=
  set_data
    (<[Z.to_nat (sp (r s) - 1) := val / 256]>
       (<[Z.to_nat (sp (r s) - 2) := val mod 256]> (data s)))
    (set_r (set_sp (sp (r s) - 2) (r s)) s).

(** The instruction that a fetch decodes at [ip]: the tag found there
    and, for a tag of size 2 or more, the operand whose low byte follows
    the tag, all addresses taken modulo 2^16. *)
Definition decoded (s : VM) : Instruction :=
  let a := ip (r s) in
  let tag := byte_at s a in
  {| op := tag;
     a1 := if 2 <=? size_of tag
           then byte_at s (to_u16 (a + 1)) + 256 * byte_at s (to_u16 (a + 2))
           else 0;
     a2 := 0 |}.

(** ** The byte string of a program

    What the loader is meant to produce, for comparison with
    [loadProgram]: the tag of each instruction followed by its operands,
    low byte first, stored from the cursor on. *)
Definition encode (i : Instruction) : list Z :=
  to_u8 (op i)
  :: (if 2 <=? size_of (op i) then [a1 i mod 256; (a1 i / 256) mod 256] else [])
  ++ (if size_of (op i) =? 5 then [a2 i mod 256; (a2 i / 256) mod 256] else []).

Definition encode_program (program : list Instruction) : list Z :=
  concat (map encode program).

(** Consecutive stores at a 16-bit cursor. *)
Fixpoint store_bytes (bytes : list Z) (cursor : Z) (d : list Z) : list Z :=
  match bytes with
  | [] => d
  | b :: rest => store_bytes rest (to_u16 (cursor + 1)) (<[Z.to_nat cursor := b]> d)
  end.

(** The machine after the loader has taken one recognized instruction. *)
Definition loaded (i : Instruction) (s : VM) : VM :=
  mkVM (r s) (store_bytes (encode i) (breakLine s) (data s))
    (to_u16 (breakLine s + stored_bytes (op i))) (sizeMap s).

(** A program one byte longer than the memory: [SIZE] times [NOP], then
    [HLT]. *)
Definition oversized : list Instruction :=
  replicate (Z.to_nat SIZE) (instr0 NOP) ++ [instr0 HLT].

(** A program that fills the memory exactly: it pushes 0x0101, two [NOP]
    bytes, over the tag and the low operand byte of its last instruction,
    whose high operand byte, the tag of [MOV], sits at address 0xFFFF. *)
Definition top_program : list Instruction :=
  [instr1 MOV 0x0101; instr1 PUSH 0x00]
  ++ replicate (Z.to_nat 65527) (instr0 NOP)
  ++ [instr1 MOV_BX 0x0801].

(** Executable tests on the end of a run: halted, or faulted with a
    message, with registers that pass a check. *)
Definition halts_with (o : outcome unit) (p : Registers -> bool) : bool :=
  match o with
  | Ret _ s => p (r s)
  | _ => false
  end.

Definition faults_with (o : outcome unit) (msg : string)
    (p : Registers -> bool) : bool :=
  match o with
  | Exit msg' s => bool_decide (msg' = msg) && p (r s)
  | _ => false
  end.

(** ** Further notions used by the properties of the machine *)

(** The messages that [handleError] is called with in [RohitVM.cpp]. *)
Definition fault_messages : list string :=
  ["Division by zero"; "Invalid register for PUSH"; "Invalid register for POP";
   "Illegal Instruction"; "Stack Overflow"; "Stack Underflow"].

(** Pushing a list of values, first to last, and popping [n] values into a
    list, first popped first. *)
Fixpoint push_all (vals : list Z) : M unit :=
  match vals with
  | [] => ret tt
  | v :: rest => push v ;; push_all rest
  end.

Fixpoint pop_n (n : nat) : M (list Z) :=
  match n with
  | O => ret []
  | S k => let* v := pop in let* rest := pop_n k in ret (v :: rest)
  end.

(** What a run may end in, from a well-formed machine: a well-formed
    machine, a fault with one of the messages of the source, or no result
    (spent fuel, or the undefined multiplication); never an escaped
    exception. *)
Definition wf_outcome {A} (o : outcome A) : Prop :=
  match o with
  | Ret _ s' => wf s'
  | Exit msg s' => wf s' /\ msg ∈ fault_messages
  | Throw _ _ => False
  | Stuck => True
  end.

(** Executable tests on an outcome. *)
Definition is_exit {A} (o : outcome A) (msg : string) : bool :=
  match o with
  | Exit m _ => bool_decide (m = msg)
  | _ => false
  end.

Definition is_ret {A} (o : outcome A) : bool :=
  match o with
  | Ret _ _ => true
  | _ => false
  end.

(** A fresh machine with the given bytes stored from address 0 on. *)
Definition VM_with (bytes : list Z) : VM :=
  set_data (store_bytes bytes 0 (data VM_init)) VM_init.

(** ** The utilities of [RohitUtils.cpp]

    A block of memory is a list of bytes and a pointer into it is an
    offset.  An access outside the block has no defined behaviour in C++;
    the functions return [None] there.  The [int16] size parameter is a
    [uint16_t]: the argument is converted to 16 bits at the call.  Console
    output is the string that is printed. *)

Module RohitUtils.

(** [for (int16 i = 0; i < size; ++i) dst[i] = src[i];] with [dst] and
    [src] in one block, [n] iterations left and the counter at [i]. *)
Fixpoint copy_loop (n i dst src : nat) (buf : list Z) : option (list Z) :=
  match n with
  | O => Some buf
  | S n' =>
      match buf !! (src + i)%nat with
      | Some b =>
          if decide (dst + i < length buf)%nat
          then copy_loop n' (S i) dst src (<[(dst + i)%nat := b]> buf)
          else None
      | None => None
      end
  end.

Definition copy (dst src : nat) (size : Z) (buf : list Z) : option (list Z) :=
  copy_loop (Z.to_nat (to_u16 size)) 0 dst src buf.

Definition nstoh (srcport : Z) : Z :=
  let srcport := to_u16 srcport in
  let a := to_u8 (Z.shiftr (Z.land srcport 0xff00) 8) in
  let b := to_u8 (Z.land srcport 0x00ff) in
  to_u16 (Z.lor (Z.shiftl b 8) a).

(** [for (int16 i = 0; i < size; ++i) str[i] = 0;] *)
Fixpoint zero_loop (n i str : nat) (buf : list Z) : option (list Z) :=
  match n with
  | O => Some buf
  | S n' =>
      if decide (str + i < length buf)%nat
      then zero_loop n' (S i) str (<[(str + i)%nat := 0]> buf)
      else None
  end.

Definition zero (str : nat) (size : Z) (buf : list Z) : option (list Z) :=
  zero_loop (Z.to_nat (to_u16 size)) 0 str buf.

(** [printf("%.02x", str[i])] for a byte: two lower-case hex digits. *)
Definition hex_digit (d : Z) : Ascii.ascii :=
  match String.get (Z.to_nat d) "0123456789abcdef" with
  | Some c => c
  | None => Ascii.ascii_of_nat 48
  end.

Definition hex_byte (b : Z) : string :=
  String (hex_digit (b / 16)) (String (hex_digit (b mod 16)) EmptyString).

(** [if (delim) printf("%c", delim);] *)
Definition print_delim (delim : Z) : string :=
  if decide (delim = 0) then EmptyString
  else String (Ascii.ascii_of_nat (Z.to_nat delim)) EmptyString.

Definition newline : string := String (Ascii.ascii_of_nat 10) EmptyString.

Fixpoint printhex_loop (n i str : nat) (delim : Z) (buf : list Z)
    : option string :=
  match n with
  | O => Some newline
  | S n' =>
      match buf !! (str + i)%nat with
      | Some b =>
          match printhex_loop n' (S i) str delim buf with
          | Some rest => Some (hex_byte b +:+ print_delim delim +:+ rest)
          | None => None
          end
      | None => None
      end
  end.

Definition printhex (str : nat) (size : Z) (delim : Z) (buf : list Z)
    : option string :=
  printhex_loop (Z.to_nat (to_u16 size)) 0 str (to_u8 delim) buf.

(** [snprintf(buf, size, ...)] keeps at most [size - 1] characters of the
    formatted text. *)
Definition snprintf (size : nat) (text : string) : string :=
  String.substring 0 (size - 1) text.

(** The formatted text of [todotted], before it is cut to the buffer;
    [in_addr_t] is a 32-bit unsigned integer. *)
Definition dotted_text (ip : Z) : string :=
  let ip := ip mod 2 ^ 32 in
  pretty (Z.land ip 0x000000FF) +:+ "." +:+
  pretty (Z.shiftr (Z.land ip 0x0000FF00) 8) +:+ "." +:+
  pretty (Z.shiftr (Z.land ip 0x00FF0000) 16) +:+ "." +:+
  pretty (Z.shiftr (Z.land ip 0xFF000000) 24).

Definition todotted (ip : Z) : string := snprintf 16 (dotted_text ip).

End RohitUtils.

(** What [HLT] prints: the banner, the registers in decimal, and the hex
    dump [printhex(memory.raw() + 0xffff - 32, 32, ' ')]. *)
Definition HLT_dump (s : VM) : option string :=
  RohitUtils.printhex (Z.to_nat (0xffff - 32)) 32 32 (data s).

Definition HLT_output (s : VM) : option string :=
  match HLT_dump s with
  | Some dump =>
      Some ("System Halted" +:+ RohitUtils.newline +:+
            "AX: " +:+ pretty (ax (r s)) +:+ ", BX: " +:+ pretty (bx (r s)) +:+
            ", CX: " +:+ pretty (cx (r s)) +:+ ", DX: " +:+ pretty (dx (r s)) +:+
            ", SP: " +:+ pretty (sp (r s)) +:+ RohitUtils.newline +:+ dump)
  | None => None
  end.

(** The character of a hex digit in lower case: the codes from 48 on for
    0 to 9 and from 97 on for 10 to 15. *)
Definition lower_hex (d : Z) : Ascii.ascii :=
  Ascii.ascii_of_nat (Z.to_nat (if d <? 10 then 48 + d else 97 + (d - 10))).

(** The bytes a dump was printed from, read back from the text; used to
    show that the dump loses nothing. *)
Definition hex_value (c : Ascii.ascii) : Z :=
  match String.index 0 (String c EmptyString) "0123456789abcdef" with
  | Some n => Z.of_nat n
  | None => 0
  end.

Fixpoint parsehex (n : nat) (delim : bool) (out : string) : list Z :=
  match n with
  | O => []
  | S n' =>
      match out with
      | String c1 (String c2 rest) =>
          (16 * hex_value c1 + hex_value c2)
          :: parsehex n' delim
               (if delim then String.substring 1 (String.length rest - 1) rest
                else rest)
      | _ => []
      end
  end.

(** ** The driver of [main.cpp] *)

Definition testPrograms : list (string * list Instruction) :=
  [ ("Basic MOV and HLT",
     [instr1 MOV 0x1234; instr0 HLT]);
    ("PUSH & POP",
     [instr1 MOV 0xABCD; instr1 PUSH 0x00; instr1 POP 0x01; instr0 HLT]);
    ("Flag Set/Clear",
     [instr0 STE; instr0 STG; instr0 STH; instr0 STL; instr0 CLG; instr0 CLL;
      instr0 HLT]);
    ("Multiple MOVs",
     [instr1 MOV 0xAAAA; instr1 MOV_BX 0x5005; instr1 MOV_CX 0xF00D;
      instr1 MOV_DX 0xDEAD; instr0 HLT]);
    ("Arithmetic: ADD AX + BX",
     [instr1 MOV 0x0011; instr1 MOV_BX 0x0009; instr0 ADD; instr0 HLT]);
    ("Arithmetic: SUB AX - BX",
     [instr1 MOV 0x0015; instr1 MOV_BX 0x0005; instr0 SUB; instr0 HLT]);
    ("Arithmetic: MUL AX * BX",
     [instr1 MOV 0x0003; instr1 MOV_BX 0x0004; instr0 MUL; instr0 HLT]);
    ("Arithmetic: DIV AX / BX",
     [instr1 MOV 0x0020; instr1 MOV_BX 0x0004; instr0 DIV; instr0 HLT]);
    ("Arithmetic: DIV by zero (error)",
     [instr1 MOV 0x0020; instr1 MOV_BX 0x0000; instr0 DIV; instr0 HLT]) ].

(** [runProgram] on a fresh machine, with the size table as the runs
    before left it: the table is a function-local static of
    [getInstructionSize] and outlives the machines. *)
Definition runProgram_from (m : gmap Z Z) (fuel : nat)
    (prog : list Instruction) : outcome unit :=
  (loadProgram prog ;; execute fuel) (set_sizeMap m VM_init).

(** The loop of [main]: the outcomes of the runs, in order, up to the
    first run that does not return; [exit] in a run ends the process. *)
Fixpoint main_loop (fuel : nat) (progs : list (string * list Instruction))
    (m : gmap Z Z) : list (outcome unit) :=
  match progs with
  | [] => []
  | (_, prog) :: rest =>
      let o := runProgram_from m fuel prog in
      o :: match o with
           | Ret _ s => main_loop fuel rest (sizeMap s)
           | _ => []
           end
  end.

Definition main (fuel : nat) : list (outcome unit) :=
  main_loop fuel testPrograms sizeMap_init.

(** The register values that the comments of [main.cpp] announce for the
    runs that halt. *)
Definition announced : list (Registers -> bool) :=
  [ (fun g => ax g =? 0x1234);
    (fun g => (bx g =? 0xABCD) && (sp g =? 0xFFFF));
    (fun g => flags g =? 0x0A);
    (fun g => (ax g =? 0xAAAA) && (bx g =? 0x5005) && (cx g =? 0xF00D)
              && (dx g =? 0xDEAD));
    (fun g => ax g =? 0x001A);
    (fun g => ax g =? 0x0010);
    (fun g => ax g =? 0x000C);
    (fun g => ax g =? 0x0008) ].

(** The registers at the division by zero of the last program. *)
Definition at_division (g : Registers) : bool := (ax g =? 0x20) && (bx g =? 0).

Fixpoint main_check (os : list (outcome unit))
    (ps : list (Registers -> bool)) : bool :=
  match os, ps with
  | [o], [] => faults_with o "Division by zero" at_division
  | o :: os', p :: ps' => halts_with o p && main_check os' ps'
  | _, _ => false
  end.

(** The state of the block after [i] iterations of the loop of [copy],
    when the byte stored at [dst + k] is the byte that the block [buf0]
    held at [g k] before the call. *)
Definition copy_inv (dst : nat) (g : nat -> nat) (buf0 : list Z) (i : nat)
    (buf : list Z) : Prop :=
  length buf = length buf0 /\
  (forall k, (k < i)%nat -> buf !! (dst + k)%nat = buf0 !! g k) /\
  (forall a, (a < dst \/ dst + i <= a)%nat -> buf !! a = buf0 !! a).

(** The machines in which [MUL] multiplies 0xFFFF by 0xFFFF, and 3 by 4
    as in the test program of [main.cpp]. *)
Definition mul_overflow : VM :=
  set_r (set_bx 0xFFFF (set_ax 0xFFFF Registers_init)) VM_init.
Definition mul_overflow_program : list Instruction :=
  [instr1 MOV 0xFFFF; instr1 MOV_BX 0xFFFF; instr0 MUL; instr0 HLT].

(** * Properties *)

(** ** Integer conversions *)

Ltac u16_lia :=
  unfold to_u16, to_u8, is_u16, is_u8, SIZE in *;
  change (2 ^ 16) with 65536 in *; change (2 ^ 8) with 256 in *;
  Z.div_mod_to_equations; lia.

Section Integers.

Lemma to_u16_id x : is_u16 x -> to_u16 x = x.
Proof. unfold is_u16, to_u16. intros H. apply Z.mod_small. lia. Qed.

Lemma to_u8_id x : is_u8 x -> to_u8 x = x.
Proof. unfold is_u8, to_u8. intros H. apply Z.mod_small. lia. Qed.

Lemma to_u16_range x : is_u16 (to_u16 x).
Proof. unfold is_u16, to_u16. pose proof (Z.mod_pos_bound x (2 ^ 16)). lia. Qed.

Lemma to_u8_range x : is_u8 (to_u8 x).
Proof. unfold is_u8, to_u8. pose proof (Z.mod_pos_bound x (2 ^ 8)). lia. Qed.

(** The range of [int]. *)
Lemma in_int_spec x : in_int x = true <-> - 2 ^ 31 <= x < 2 ^ 31.
Proof. unfold in_int. rewrite andb_true_iff, Z.leb_le, Z.ltb_lt. reflexivity. Qed.

(** With 16-bit operands the sum, the difference and the quotient are
    always in that range; the product is exactly when it is below 2^31. *)
Lemma arith_in_int a b :
  is_u16 a -> is_u16 b ->
  in_int (a + b) = true /\
  in_int (a - b) = true /\
  (b <> 0 -> in_int (a ÷ b) = true) /\
  (in_int (a * b) = true <-> a * b < 2 ^ 31).
Proof.
  unfold is_u16. intros Ha Hb.
  split; [apply in_int_spec; lia |]. split; [apply in_int_spec; lia |]. split.
  - intros Hne. apply in_int_spec. rewrite Z.quot_div_nonneg by lia.
    assert (0 <= a / b) by (apply Z.div_pos; lia).
    assert (a / b < 65536) by (apply Z.div_lt_upper_bound; nia).
    lia.
  - rewrite in_int_spec. split; [lia | nia].
Qed.

Lemma low_byte v : Z.land v 0xff = v mod 256.
Proof. change 0xff with (Z.ones 8). rewrite Z.land_ones by lia. reflexivity. Qed.

Lemma high_byte v : is_u16 v -> Z.land (Z.shiftr v 8) 0xff = v / 256.
Proof.
  intros H. rewrite low_byte, Z.shiftr_div_pow2 by lia. change (2 ^ 8) with 256.
  apply Z.mod_small. unfold is_u16 in H.
  split; [apply Z.div_pos; lia | apply Z.div_lt_upper_bound; lia].
Qed.

Lemma low_byte_u8 v : is_u8 (v mod 256).
Proof. unfold is_u8. pose proof (Z.mod_pos_bound v 256). lia. Qed.

Lemma high_byte_u8 v : is_u16 v -> is_u8 (v / 256).
Proof.
  unfold is_u16, is_u8. intros H.
  split; [apply Z.div_pos; lia | apply Z.div_lt_upper_bound; lia].
Qed.

Lemma land_shiftl_disjoint lo hi : is_u8 lo -> Z.land lo (Z.shiftl hi 8) = 0.
Proof.
  intros Hlo. apply Z.bits_inj'. intros n Hn.
  rewrite Z.land_spec, Z.bits_0.
  destruct (Z.lt_ge_cases n 8).
  - rewrite Z.shiftl_spec_low by lia. apply andb_false_r.
  - rewrite <- (to_u8_id lo Hlo). unfold to_u8.
    rewrite Z.mod_pow2_bits_high by lia. reflexivity.
Qed.

(** Reassembly of an operand from its two bytes. *)
Lemma combine_bytes lo hi :
  is_u8 lo -> is_u8 hi -> to_u16 (Z.lor lo (Z.shiftl hi 8)) = lo + 256 * hi.
Proof.
  intros Hlo Hhi.
  rewrite <- Z.lxor_lor, <- Z.add_nocarry_lxor by (apply land_shiftl_disjoint; done).
  rewrite Z.shiftl_mul_pow2 by lia. change (2 ^ 8) with 256.
  rewrite (Z.mul_comm hi). apply to_u16_id. unfold is_u8, is_u16 in *. lia.
Qed.

Lemma combine_split v : v mod 256 + 256 * (v / 256) = v.
Proof. pose proof (Z.div_mod v 256). lia. Qed.

End Integers.

(** ** The size table *)

Section SizeTable.

Lemma recognized_elem op : recognized op = true <-> op ∈ opcodes.
Proof. unfold recognized. apply bool_decide_eq_true. Qed.

Lemma size_of_recognized op :
  recognized op = true -> size_of op = 1 \/ size_of op = 3.
Proof.
  intros H. apply recognized_elem in H. unfold opcodes in H.
  repeat (apply elem_of_cons in H as [-> | H]);
    try (left; reflexivity); try (right; reflexivity).
  by apply elem_of_nil in H.
Qed.

Lemma size_of_unrecognized op : recognized op = false -> size_of op = 0.
Proof.
  intros H. unfold recognized in H. apply bool_decide_eq_false in H.
  unfold size_of, sizeMap_init.
  rewrite (not_elem_of_list_to_map_1 _ op); [reflexivity | exact H].
Qed.

Lemma size_of_cases op : size_of op = 0 \/ size_of op = 1 \/ size_of op = 3.
Proof.
  destruct (recognized op) eqn:E.
  - right. by apply size_of_recognized.
  - left. by apply size_of_unrecognized.
Qed.

Lemma sizeMap_ok_init : sizeMap_ok sizeMap_init.
Proof. intros op. reflexivity. Qed.

(** The default insertion of [operator[]] keeps the table sound. *)
Lemma sizeMap_ok_insert (m : gmap Z Z) op :
  sizeMap_ok m -> m !! op = None -> sizeMap_ok (<[op := 0]> m).
Proof.
  intros Hm Hop k. destruct (decide (op = k)) as [<- | Hne].
  - rewrite lookup_insert_eq. specialize (Hm op). rewrite Hop in Hm. exact Hm.
  - rewrite lookup_insert_ne by done. apply Hm.
Qed.

Lemma getInstructionSize_ok s op :
  sizeMap_ok (sizeMap s) ->
  exists m, sizeMap_ok m /\
    getInstructionSize op s = Ret (size_of op) (set_sizeMap m s).
Proof.
  intros Hm. unfold getInstructionSize.
  destruct (sizeMap s !! op) as [n |] eqn:E.
  - exists (sizeMap s). split; [exact Hm |].
    specialize (Hm op). rewrite E in Hm. simpl in Hm. subst n.
    by destruct s.
  - exists (<[op := 0]> (sizeMap s)). split.
    + by apply sizeMap_ok_insert.
    + specialize (Hm op). rewrite E in Hm. simpl in Hm. by rewrite <- Hm.
Qed.

(** A recognized opcode is found in the table, which stays as it is. *)
Lemma getInstructionSize_recognized s op :
  sizeMap_ok (sizeMap s) -> recognized op = true ->
  getInstructionSize op s = Ret (size_of op) s.
Proof.
  intros Hm Hr. unfold getInstructionSize.
  specialize (Hm op). destruct (sizeMap s !! op) as [n |]; simpl in Hm.
  - by subst n.
  - destruct (size_of_recognized op Hr); lia.
Qed.

End SizeTable.

(** ** Well-formedness is kept by the state updates *)

Section WellFormed.

Lemma wf_Registers_init : wf_Registers Registers_init.
Proof. split; simpl; unfold is_u16; lia. Qed.

Lemma wf_VM_init : wf VM_init.
Proof.
  split.
  - exact wf_Registers_init.
  - change (data VM_init) with (replicate (Z.to_nat SIZE) 0).
    apply length_replicate.
  - change (data VM_init) with (replicate (Z.to_nat SIZE) 0).
    apply Forall_replicate. unfold is_u8. lia.
  - change (breakLine VM_init) with 0. unfold is_u16. lia.
  - exact sizeMap_ok_init.
Qed.

Lemma wf_set_sizeMap s m : wf s -> sizeMap_ok m -> wf (set_sizeMap m s).
Proof. intros [] Hm. by split. Qed.

Lemma wf_set_r s g : wf s -> wf_Registers g -> wf (set_r g s).
Proof. intros [] Hg. by split. Qed.

Lemma wf_set_breakLine s b : wf s -> is_u16 b -> wf (set_breakLine b s).
Proof. intros [] Hb. by split. Qed.

Lemma wf_set_data s i v :
  wf s -> is_u8 v -> wf (set_data (<[i := v]> (data s)) s).
Proof.
  intros [] Hv. split; simpl; try done.
  - by rewrite length_insert.
  - by apply Forall_insert.
Qed.

Lemma lookup_byte s a :
  wf s -> is_u16 a ->
  data s !! Z.to_nat a = Some (byte_at s a) /\ is_u8 (byte_at s a).
Proof.
  intros Hs Ha. unfold byte_at.
  destruct (lookup_lt_is_Some_2 (data s) (Z.to_nat a)) as [b Hb].
  { rewrite (wf_length s Hs). unfold SIZE, is_u16 in *. lia. }
  rewrite Hb. split; [done |].
  exact (proj1 (Forall_lookup _ _) (wf_bytes s Hs) _ _ Hb).
Qed.

End WellFormed.

(** ** Arithmetic and moves *)

Section Dispatch.

Lemma arith_ax (f : Z -> Z -> Z) s :
  in_int (f (ax (r s)) (bx (r s))) = true ->
  arith f s
  = Ret tt (set_r (set_ax (to_u16 (f (ax (r s)) (bx (r s)))) (r s)) s).
Proof. intros H. unfold arith, bind, get. by rewrite H. Qed.

Lemma arith_undefined (f : Z -> Z -> Z) s :
  in_int (f (ax (r s)) (bx (r s))) = false -> arith f s = Stuck.
Proof. intros H. unfold arith, bind, get. by rewrite H. Qed.

Lemma arith_not_Exit (f : Z -> Z -> Z) s msg s' : arith f s <> Exit msg s'.
Proof.
  unfold arith, bind, get.
  by destruct (in_int (f (ax (r s)) (bx (r s)))).
Qed.

Lemma arith_not_Throw (f : Z -> Z -> Z) s e s' : arith f s <> Throw e s'.
Proof.
  unfold arith, bind, get.
  by destruct (in_int (f (ax (r s)) (bx (r s)))).
Qed.

Lemma arith_Ret (f : Z -> Z -> Z) s s' :
  arith f s = Ret tt s' ->
  s' = set_r (set_ax (to_u16 (f (ax (r s)) (bx (r s)))) (r s)) s.
Proof.
  unfold arith, bind, get.
  destruct (in_int (f (ax (r s)) (bx (r s)))); [| discriminate].
  by intros [= <-].
Qed.

Lemma only_ax_changed_set_ax s v : only_ax_changed s (set_r (set_ax v (r s)) s).
Proof. by repeat split. Qed.

Lemma only_flags_changed_set_flags s v :
  only_flags_changed s (set_r (set_flags v (r s)) s).
Proof. by repeat split. Qed.

Lemma quot_u16 a b : is_u16 a -> is_u16 b -> b <> 0 -> to_u16 (a ÷ b) = a / b.
Proof.
  unfold is_u16. intros Ha Hb Hne.
  rewrite Z.quot_div_nonneg by lia. apply to_u16_id. unfold is_u16.
  split; [apply Z.div_pos; lia |].
  apply Z.div_lt_upper_bound; nia.
Qed.

End Dispatch.


(** C10, at the failing input: with [ax = bx = 0xFFFF] the product of the
    promoted operands is 4294836225, above the largest [int], so the
    multiplication of [MUL] has no defined behaviour, and the machine does
    not return with [ax] equal to the product modulo 2^16. *)
Lemma C10_mul_signed_overflow :
  executeInstruction (instr0 MUL) mul_overflow = Stuck /\
  ~ (exists s', executeInstruction (instr0 MUL) mul_overflow = Ret tt s' /\
       ax (r s') = (ax (r mul_overflow) * bx (r mul_overflow)) mod 2 ^ 16).
Proof.
  assert (E : executeInstruction (instr0 MUL) mul_overflow = Stuck).
  { change (executeInstruction (instr0 MUL) mul_overflow)
      with (arith Z.mul mul_overflow).
    by apply arith_undefined. }
  split; [exact E |]. intros (s' & E' & _). congruence.
Qed.



(** C6: with [bx] equal to 0, [DIV] ends in the fault "Division by zero"
    and the machine, [ax] included, is as it was before the instruction;
    with [bx] different from 0 it stores in [ax] the quotient of [ax] by
    [bx] and changes nothing else. *)
Theorem C6_div_by_zero_faults (s : VM) (x y : Z) :
  wf s ->
  (bx (r s) = 0 ->
     exists s', Faulted (executeInstruction (mkInstruction DIV x y) s)
                  "Division by zero" s' /\
       ax (r s') = ax (r s) /\ s' = s) /\
  (bx (r s) <> 0 ->
     exists s', executeInstruction (mkInstruction DIV x y) s = Ret tt s' /\
       ax (r s') = ax (r s) / bx (r s) /\ only_ax_changed s s').
Proof.
  intros Hs. split; intros Hb.
  - exists s. split; [| done].
    unfold Faulted.
    change (executeInstruction (mkInstruction DIV x y) s)
      with ((when (bx (r s) =? 0) (handleError "Division by zero" true) ;;
             arith Z.quot) s).
    unfold bind. by rewrite Hb.
  - eexists. split; [| split; [| apply only_ax_changed_set_ax]].
    + change (executeInstruction (mkInstruction DIV x y) s)
        with ((when (bx (r s) =? 0) (handleError "Division by zero" true) ;;
               arith Z.quot) s).
      unfold bind. rewrite (proj2 (Z.eqb_neq _ _) Hb). simpl.
      apply arith_ax.
      destruct Hs as [[] _ _ _ _].
      by apply (arith_in_int (ax (r s)) (bx (r s))).
    + simpl. destruct Hs as [[] _ _ _ _]. by apply quot_u16.
Qed.

Lemma C6_div_by_zero_faults_witness :
  let s4 := set_r (set_bx 4 (set_ax 0x20 Registers_init)) VM_init in
  (exists s', Faulted (executeInstruction (mkInstruction DIV 0 0) VM_init)
                "Division by zero" s' /\
     ax (r s') = ax (r VM_init) /\ s' = VM_init) /\
  (exists s', executeInstruction (mkInstruction DIV 0 0) s4 = Ret tt s' /\
     ax (r s') = 0x20 / 4 /\ only_ax_changed s4 s').
Proof.
  split.
  - apply (proj1 (C6_div_by_zero_faults VM_init 0 0 wf_VM_init)). reflexivity.
  - refine (proj2 (C6_div_by_zero_faults _ 0 0 _) _).
    + apply wf_set_r; [exact wf_VM_init |].
      split; simpl; unfold is_u16; lia.
    + simpl. lia.
Defined.

(** ** Running with more fuel *)

Section Fuel.

Lemma loop_more_fuel n s o :
  loop n s = o -> o <> Stuck -> forall m, (n <= m)%nat -> loop m s = o.
Proof.
  revert s o. induction n as [| n IH]; intros s o Hrun Hns m Hle.
  - simpl in Hrun. congruence.
  - destruct m as [| m]; [lia |].
    simpl in *. unfold bind in *.
    destruct (step s) as [i s1 | msg s1 | e s1 |]; try exact Hrun.
    destruct (op i =? HLT); [exact Hrun |].
    apply IH; [exact Hrun | exact Hns | lia].
Qed.

Lemma execute_more_fuel n s o :
  execute n s = o -> o <> Stuck -> forall m, (n <= m)%nat -> execute m s = o.
Proof.
  unfold execute. intros Hrun Hns m Hle.
  destruct (loop n s) as [a s1 | msg s1 | e s1 |] eqn:E; try congruence;
    rewrite (loop_more_fuel n s _ E ltac:(discriminate) m Hle); exact Hrun.
Qed.

Lemma runProgram_more_fuel n prog o :
  runProgram n prog = o -> o <> Stuck ->
  forall m, (n <= m)%nat -> runProgram m prog = o.
Proof.
  unfold runProgram, bind. intros Hrun Hns m Hle.
  destruct (loadProgram prog VM_init) as [a s1 | msg s1 | e s1 |]; try exact Hrun.
  by apply (execute_more_fuel n).
Qed.

End Fuel.

(** C9: a move stores its operand in its register, so reading the
    register right after the move gives the operand, for [ax], [bx], [cx]
    and [dx] and every operand value; and the program [MOV 0x1234; HLT],
    loaded in a fresh machine and run with any fuel of at least 2, ends
    Halted with [ax] equal to 0x1234. *)
Theorem C9_move_then_read (s : VM) (v y : Z) :
  (exists s', executeInstruction (mkInstruction MOV v y) s = Ret tt s' /\
     ax (r s') = v) /\
  (exists s', executeInstruction (mkInstruction MOV_BX v y) s = Ret tt s' /\
     bx (r s') = v) /\
  (exists s', executeInstruction (mkInstruction MOV_CX v y) s = Ret tt s' /\
     cx (r s') = v) /\
  (exists s', executeInstruction (mkInstruction MOV_DX v y) s = Ret tt s' /\
     dx (r s') = v) /\
  (exists s', ax (r s') = 0x1234 /\
     forall fuel, (2 <= fuel)%nat ->
       Halted (runProgram fuel [instr1 MOV 0x1234; instr0 HLT]) s').
Proof.
  repeat split; try (eexists; split; reflexivity).
  assert (match runProgram 2 [instr1 MOV 0x1234; instr0 HLT] with
          | Ret _ s' => ax (r s') =? 0x1234
          | _ => false
          end = true) as Hrun by (vm_compute; reflexivity).
  destruct (runProgram 2 [instr1 MOV 0x1234; instr0 HLT])
    as [[] s' | | |] eqn:E; try discriminate.
  exists s'. split; [by apply Z.eqb_eq |].
  intros fuel Hfuel. unfold Halted.
  by apply (runProgram_more_fuel 2).
Qed.

(** ** Flags *)

Section Flags.

Lemma testbit_u16_high a n : is_u16 a -> 16 <= n -> Z.testbit a n = false.
Proof.
  intros Ha Hn. rewrite <- (to_u16_id a Ha). unfold to_u16.
  apply Z.mod_pow2_bits_high. lia.
Qed.

Lemma to_u16_low_bits a :
  (forall n, 16 <= n -> Z.testbit a n = false) -> to_u16 a = a.
Proof.
  intros Hhigh. unfold to_u16. rewrite <- Z.land_ones by lia.
  apply Z.bits_inj'. intros n Hn.
  rewrite Z.land_spec, Z.testbit_ones_nonneg by lia.
  destruct (Z.ltb_spec n 16) as [Hlt | Hge].
  - apply andb_true_r.
  - rewrite Hhigh by lia. reflexivity.
Qed.

Lemma setFlag_true s mask :
  is_u16 (flags (r s)) -> is_u16 mask ->
  setFlag mask true s
  = Ret tt (set_r (set_flags (Z.lor (flags (r s)) mask) (r s)) s).
Proof.
  intros Hf Hm. unfold setFlag, modify_r, modify.
  rewrite to_u16_low_bits; [reflexivity |].
  intros n Hn. rewrite Z.lor_spec, !testbit_u16_high by done. reflexivity.
Qed.

Lemma setFlag_false s mask :
  is_u16 (flags (r s)) ->
  setFlag mask false s
  = Ret tt (set_r (set_flags (Z.ldiff (flags (r s)) mask) (r s)) s).
Proof.
  intros Hf. unfold setFlag, modify_r, modify.
  rewrite <- Z.ldiff_land.
  rewrite to_u16_low_bits; [reflexivity |].
  intros n Hn. rewrite Z.ldiff_spec, testbit_u16_high by done. reflexivity.
Qed.

(** A getter of [CPU] reads the bit of its mask. *)
Lemma getFlag_testbit s mask b :
  0 <= b -> mask = 2 ^ b -> getFlag mask s = Z.testbit (flags (r s)) b.
Proof.
  intros Hb ->. unfold getFlag.
  assert (Z.land (flags (r s)) (2 ^ b)
          = if Z.testbit (flags (r s)) b then 2 ^ b else 0) as ->.
  { apply Z.bits_inj'. intros n Hn.
    rewrite Z.land_spec, Z.pow2_bits_eqb by lia.
    destruct (Z.eqb_spec b n) as [<- | Hne].
    - destruct (Z.testbit (flags (r s)) b);
        [by rewrite Z.pow2_bits_true | by rewrite Z.bits_0].
    - rewrite andb_false_r.
      destruct (Z.testbit (flags (r s)) b);
        [by rewrite Z.pow2_bits_false | by rewrite Z.bits_0]. }
  destruct (Z.testbit (flags (r s)) b); [| reflexivity].
  assert (0 < 2 ^ b) by (apply Z.pow_pos_nonneg; lia).
  destruct (Z.eqb_spec (2 ^ b) 0); [lia | reflexivity].
Qed.

Lemma flag_mask_pow2 mask :
  mask ∈ [Equal; Greater; Higher; Lower] ->
  mask = 2 ^ flag_bit mask /\ 0 <= flag_bit mask < 4.
Proof.
  intros H. repeat (apply elem_of_cons in H as [-> | H]);
    [by vm_compute .. |]. by apply elem_of_nil in H.
Qed.

Lemma flag_bit_inj m1 m2 :
  m1 ∈ [Equal; Greater; Higher; Lower] ->
  m2 ∈ [Equal; Greater; Higher; Lower] ->
  flag_bit m1 = flag_bit m2 -> m1 = m2.
Proof.
  intros [E1 _]%flag_mask_pow2 [E2 _]%flag_mask_pow2 Eb. congruence.
Qed.

(** Setting the flag of [mask]: its bit is 1, every other bit is kept. *)
Lemma set_bit_spec f mask i :
  mask = 2 ^ flag_bit mask -> 0 <= flag_bit mask -> 0 <= i ->
  Z.testbit (Z.lor f mask) i
  = if decide (i = flag_bit mask) then true else Z.testbit f i.
Proof.
  intros E Hb Hi. rewrite Z.lor_spec. rewrite E at 1.
  rewrite Z.pow2_bits_eqb by lia.
  case_decide as Hd.
  - subst i. rewrite Z.eqb_refl. apply orb_true_r.
  - destruct (Z.eqb_spec (flag_bit mask) i); [congruence | apply orb_false_r].
Qed.

(** Clearing the flag of [mask]: its bit is 0, every other bit is kept. *)
Lemma clear_bit_spec f mask i :
  mask = 2 ^ flag_bit mask -> 0 <= flag_bit mask -> 0 <= i ->
  Z.testbit (Z.ldiff f mask) i
  = if decide (i = flag_bit mask) then false else Z.testbit f i.
Proof.
  intros E Hb Hi. rewrite Z.ldiff_spec. rewrite E at 1.
  rewrite Z.pow2_bits_eqb by lia.
  case_decide as Hd.
  - subst i. rewrite Z.eqb_refl. apply andb_false_r.
  - destruct (Z.eqb_spec (flag_bit mask) i); [congruence | apply andb_true_r].
Qed.

End Flags.

(** C7: for each flag ([Equal], [Greater], [Higher], [Lower]) and every
    flag word, so in particular each of the 16 combinations of the four
    flags, the set opcode of the flag leaves its getter true and the clear
    opcode leaves it false; the getters of the other three flags, and every
    other bit of the flag word, answer as before; and all other registers
    and the memory are unchanged. *)
Theorem C7_flag_set_clear_frame (s : VM) (st cl mask x y : Z) :
  wf s -> (st, cl, mask) ∈ flag_ops ->
  exists s1 s0,
    executeInstruction (mkInstruction st x y) s = Ret tt s1 /\
    executeInstruction (mkInstruction cl x y) s = Ret tt s0 /\
    getFlag mask s1 = true /\ getFlag mask s0 = false /\
    (forall m, m ∈ [Equal; Greater; Higher; Lower] -> m <> mask ->
       getFlag m s1 = getFlag m s /\ getFlag m s0 = getFlag m s) /\
    (forall i, 0 <= i -> i <> flag_bit mask ->
       Z.testbit (flags (r s1)) i = Z.testbit (flags (r s)) i /\
       Z.testbit (flags (r s0)) i = Z.testbit (flags (r s)) i) /\
    only_flags_changed s s1 /\ only_flags_changed s s0.
Proof.
  intros Hs Hop.
  pose proof (wf_flags _ (wf_r _ Hs)) as Hf.
  assert (mask ∈ [Equal; Greater; Higher; Lower] /\
          executeInstruction (mkInstruction st x y) s = setFlag mask true s /\
          executeInstruction (mkInstruction cl x y) s = setFlag mask false s)
    as (Hmask & -> & ->).
  { unfold flag_ops in Hop.
    repeat (apply elem_of_cons in Hop as [[= -> -> ->] | Hop]);
      [split; [set_solver | split; reflexivity] .. |].
    by apply elem_of_nil in Hop. }
  destruct (flag_mask_pow2 mask Hmask) as [Epow Hbit].
  assert (is_u16 mask) as Hm.
  { rewrite Epow. unfold is_u16. split; [apply Z.pow_nonneg; lia |].
    apply (Z.lt_le_trans _ (2 ^ 4)); [apply Z.pow_lt_mono_r; lia | lia]. }
  exists (set_r (set_flags (Z.lor (flags (r s)) mask) (r s)) s),
         (set_r (set_flags (Z.ldiff (flags (r s)) mask) (r s)) s).
  split; [by apply setFlag_true |].
  split; [by apply setFlag_false |].
  assert (forall i, 0 <= i ->
            Z.testbit (Z.lor (flags (r s)) mask) i
            = (if decide (i = flag_bit mask) then true
               else Z.testbit (flags (r s)) i) /\
            Z.testbit (Z.ldiff (flags (r s)) mask) i
            = (if decide (i = flag_bit mask) then false
               else Z.testbit (flags (r s)) i)) as Hbits.
  { intros i Hi. split; [apply set_bit_spec | apply clear_bit_spec]; lia. }
  split; [| split; [| split; [| split; [| split]]]].
  - rewrite (getFlag_testbit _ mask (flag_bit mask)) by (lia || done). simpl.
    rewrite (proj1 (Hbits (flag_bit mask) ltac:(lia))). by rewrite decide_True.
  - rewrite (getFlag_testbit _ mask (flag_bit mask)) by (lia || done). simpl.
    rewrite (proj2 (Hbits (flag_bit mask) ltac:(lia))). by rewrite decide_True.
  - intros m Hm' Hne.
    destruct (flag_mask_pow2 m Hm') as [Em Hmb].
    rewrite !(getFlag_testbit _ m (flag_bit m)) by (lia || done). simpl.
    rewrite (proj1 (Hbits (flag_bit m) ltac:(lia))).
    rewrite (proj2 (Hbits (flag_bit m) ltac:(lia))).
    assert (flag_bit m <> flag_bit mask) as Hd.
    { intros Eb. apply Hne. by apply flag_bit_inj. }
    by rewrite !decide_False.
  - intros i Hi Hne. simpl.
    rewrite (proj1 (Hbits i Hi)), (proj2 (Hbits i Hi)).
    by rewrite !decide_False.
  - apply only_flags_changed_set_flags.
  - apply only_flags_changed_set_flags.
Qed.

Lemma C7_flag_set_clear_frame_witness :
  exists s1 s0,
    executeInstruction (mkInstruction STG 0 0) VM_init = Ret tt s1 /\
    executeInstruction (mkInstruction CLG 0 0) VM_init = Ret tt s0 /\
    getFlag Greater s1 = true /\ getFlag Greater s0 = false /\
    (forall m, m ∈ [Equal; Greater; Higher; Lower] -> m <> Greater ->
       getFlag m s1 = getFlag m VM_init /\ getFlag m s0 = getFlag m VM_init) /\
    (forall i, 0 <= i -> i <> flag_bit Greater ->
       Z.testbit (flags (r s1)) i = Z.testbit (flags (r VM_init)) i /\
       Z.testbit (flags (r s0)) i = Z.testbit (flags (r VM_init)) i) /\
    only_flags_changed VM_init s1 /\ only_flags_changed VM_init s0.
Proof.
  apply (C7_flag_set_clear_frame VM_init STG CLG Greater 0 0 wf_VM_init).
  unfold flag_ops. set_solver.
Defined.

(** ** Memory accesses and the stack *)

Section Stack.

(** In a well-formed machine the check of [data.at] never fails: the
    index has been reduced to 16 bits by the parameter of [operator[]]. *)
Lemma Memory_read_ok s a :
  wf s -> Memory_read a s = Ret (byte_at s (to_u16 a)) s.
Proof.
  intros Hs. unfold Memory_read.
  by rewrite (proj1 (lookup_byte s _ Hs (to_u16_range a))).
Qed.

Lemma Memory_write_ok s a v :
  wf s ->
  Memory_write a v s
  = Ret tt (set_data (<[Z.to_nat (to_u16 a) := to_u8 v]> (data s)) s).
Proof.
  intros Hs. unfold Memory_write.
  by rewrite (proj1 (lookup_byte s _ Hs (to_u16_range a))).
Qed.

Lemma read_operand_ok s a :
  wf s ->
  read_operand a s
  = Ret (byte_at s (to_u16 a) + 256 * byte_at s (to_u16 (a + 1))) s.
Proof.
  intros Hs. unfold read_operand, bind.
  rewrite !Memory_read_ok by done. unfold ret.
  rewrite combine_bytes; [done | |];
    apply (lookup_byte s _ Hs (to_u16_range _)).
Qed.

Lemma push_overflow s val :
  sp (r s) < 2 -> push val s = Exit "Stack Overflow" s.
Proof.
  intros Hsp. unfold push, bind, get, when.
  by rewrite (proj2 (Z.ltb_lt _ _) Hsp).
Qed.

Lemma push_ok s val :
  wf s -> is_u16 val -> 2 <= sp (r s) -> push val s = Ret tt (pushed val s).
Proof.
  intros Hs Hval Hsp.
  pose proof (wf_sp _ (wf_r _ Hs)) as Hsp16. unfold is_u16 in Hsp16.
  unfold push, bind, get, when.
  rewrite (proj2 (Z.ltb_ge _ _) Hsp). cbn [ret modify_r modify].
  assert (to_u16 (sp (r s) - 2) = sp (r s) - 2) as E2
    by (apply to_u16_id; unfold is_u16; lia).
  rewrite E2.
  set (s1 := set_r (set_sp (sp (r s) - 2) (r s)) s).
  assert (wf s1) as Hs1.
  { apply wf_set_r; [done |]. destruct Hs as [[] _ _ _ _].
    split; try done. simpl. unfold is_u16. lia. }
  rewrite Memory_write_ok by done.
  rewrite Memory_write_ok by (apply wf_set_data; [done | apply to_u8_range]).
  unfold pushed. fold s1. cbn [data set_data r s1 set_r sp set_sp].
  rewrite high_byte by done. rewrite low_byte.
  rewrite (to_u8_id (val mod 256)) by apply low_byte_u8.
  rewrite (to_u8_id (val / 256)) by (by apply high_byte_u8).
  rewrite E2.
  replace (sp (r s) - 2 + 1) with (sp (r s) - 1) by lia.
  rewrite (to_u16_id (sp (r s) - 1)) by (unfold is_u16; lia).
  by destruct s.
Qed.

Lemma pop_underflow s :
  SIZE - 2 < sp (r s) -> pop s = Exit "Stack Underflow" s.
Proof.
  intros Hsp. unfold pop, bind, get, when.
  by rewrite (proj2 (Z.ltb_lt _ _) Hsp).
Qed.

Lemma pop_ok s :
  wf s -> sp (r s) <= SIZE - 2 ->
  pop s
  = Ret (byte_at s (sp (r s)) + 256 * byte_at s (sp (r s) + 1))
      (set_r (set_sp (to_u16 (sp (r s) + 2)) (r s)) s).
Proof.
  intros Hs Hsp.
  pose proof (wf_sp _ (wf_r _ Hs)) as Hsp16. unfold is_u16 in Hsp16.
  unfold pop, bind, get, when.
  rewrite (proj2 (Z.ltb_ge _ _) Hsp). cbn [ret].
  unfold SIZE in Hsp.
  rewrite read_operand_ok by done. cbn [modify_r modify].
  rewrite (to_u16_id (sp (r s))) by done.
  rewrite (to_u16_id (sp (r s) + 1)) by (unfold is_u16; lia).
  reflexivity.
Qed.

End Stack.

Section PushedState.

Variables (s : VM) (val : Z).
Hypothesis Hs : wf s.
Hypothesis Hval : is_u16 val.
Hypothesis Hsp : 2 <= sp (r s).

Lemma wf_pushed : wf (pushed val s).
Proof.
  pose proof (wf_sp _ (wf_r _ Hs)) as Hsp16. unfold is_u16 in Hsp16.
  unfold pushed.
  set (s1 := set_r (set_sp (sp (r s) - 2) (r s)) s).
  assert (wf s1) as Hs1.
  { apply wf_set_r; [done |]. destruct Hs as [[] _ _ _ _].
    split; try done. simpl. unfold is_u16. lia. }
  change (data s) with (data s1).
  pose proof (wf_set_data s1 (Z.to_nat (sp (r s) - 2)) (val mod 256) Hs1
                (low_byte_u8 val)) as Hs2.
  set (s2 := set_data (<[Z.to_nat (sp (r s) - 2) := val mod 256]> (data s1)) s1)
    in *.
  pose proof (wf_set_data s2 (Z.to_nat (sp (r s) - 1)) (val / 256) Hs2
                (high_byte_u8 val Hval)) as Hs3.
  exact Hs3.
Qed.

Lemma sp_pushed : sp (r (pushed val s)) = sp (r s) - 2.
Proof. reflexivity. Qed.

Lemma only_sp_changed_pushed : only_sp_changed (r s) (r (pushed val s)).
Proof. by repeat split. Qed.

Lemma byte_at_pushed_low : byte_at (pushed val s) (sp (r s) - 2) = val mod 256.
Proof.
  pose proof (wf_sp _ (wf_r _ Hs)) as Hsp16. unfold is_u16 in Hsp16.
  pose proof (wf_length _ Hs) as Hlen. unfold SIZE in Hlen.
  unfold byte_at, pushed. cbn [data set_data].
  rewrite list_lookup_insert_ne by lia.
  rewrite list_lookup_insert_eq by lia. reflexivity.
Qed.

Lemma byte_at_pushed_high : byte_at (pushed val s) (sp (r s) - 1) = val / 256.
Proof.
  pose proof (wf_sp _ (wf_r _ Hs)) as Hsp16. unfold is_u16 in Hsp16.
  pose proof (wf_length _ Hs) as Hlen. unfold SIZE in Hlen.
  unfold byte_at, pushed. cbn [data set_data].
  rewrite list_lookup_insert_eq by (rewrite length_insert; lia). reflexivity.
Qed.

Lemma byte_at_pushed_other a :
  0 <= a -> a <> sp (r s) - 2 -> a <> sp (r s) - 1 ->
  byte_at (pushed val s) a = byte_at s a.
Proof.
  intros Ha H2 H1. unfold byte_at, pushed. cbn [data set_data].
  by rewrite !list_lookup_insert_ne by lia.
Qed.

End PushedState.

(** C5: [push] ends in the fault "Stack Overflow" exactly when [sp] is
    below 2; otherwise it returns with [sp] lowered by 2, the low byte of
    the value at the new [sp], the high byte right above it, and the rest
    of the memory and the other registers untouched.  [pop] ends in the
    fault "Stack Underflow" exactly when [sp] is above [SIZE - 2] = 65534;
    otherwise it returns the 16-bit value whose low byte is at [sp] and
    whose high byte is at [sp + 1], with [sp] raised by 2 in 16-bit
    arithmetic (exactly [sp + 2] below 65534, and 0 at 65534) and nothing
    else changed. *)
Theorem C5_push_pop_fault_conditions (s : VM) (val : Z) :
  wf s -> is_u16 val ->
  ((exists s', Faulted (push val s) "Stack Overflow" s') <-> sp (r s) < 2) /\
  (2 <= sp (r s) ->
     exists s', push val s = Ret tt s' /\
       sp (r s') = sp (r s) - 2 /\
       byte_at s' (sp (r s')) = val mod 256 /\
       byte_at s' (sp (r s') + 1) = val / 256 /\
       val mod 256 + 256 * (val / 256) = val /\
       (forall a, 0 <= a -> a <> sp (r s') -> a <> sp (r s') + 1 ->
          byte_at s' a = byte_at s a) /\
       only_sp_changed (r s) (r s')) /\
  ((exists s', Faulted (pop s) "Stack Underflow" s') <-> SIZE - 2 < sp (r s)) /\
  (sp (r s) <= SIZE - 2 ->
     exists s', pop s = Ret (byte_at s (sp (r s)) + 256 * byte_at s (sp (r s) + 1)) s' /\
       sp (r s') = (sp (r s) + 2) mod 2 ^ 16 /\
       (sp (r s) < SIZE - 2 -> sp (r s') = sp (r s) + 2) /\
       only_sp_changed (r s) (r s') /\ same_memory s s').
Proof.
  intros Hs Hval.
  pose proof (wf_sp _ (wf_r _ Hs)) as Hsp16. unfold is_u16 in Hsp16.
  split; [| split; [| split]].
  - split.
    + intros [s' Hf]. unfold Faulted in Hf.
      destruct (Z.lt_ge_cases (sp (r s)) 2) as [Hlt | Hge]; [done |].
      rewrite push_ok in Hf by done. discriminate.
    + intros Hlt. exists s. by apply push_overflow.
  - intros Hge. exists (pushed val s).
    split; [by apply push_ok |].
    rewrite sp_pushed.
    replace (sp (r s) - 2 + 1) with (sp (r s) - 1) by lia.
    split; [reflexivity |].
    split; [by apply byte_at_pushed_low |].
    split; [by apply byte_at_pushed_high |].
    split; [apply combine_split |].
    split; [| apply only_sp_changed_pushed].
    intros a Ha H2 H1. apply byte_at_pushed_other; lia.
  - split.
    + intros [s' Hf]. unfold Faulted in Hf.
      destruct (Z.lt_ge_cases (SIZE - 2) (sp (r s))) as [Hlt | Hge]; [done |].
      rewrite pop_ok in Hf by done. discriminate.
    + intros Hlt. exists s. by apply pop_underflow.
  - intros Hle. eexists. split; [by apply pop_ok |].
    cbn [r set_r sp set_sp]. split; [reflexivity |].
    split; [| by repeat split].
    intros Hlt. unfold SIZE in Hlt. apply to_u16_id. unfold is_u16. lia.
Qed.

Lemma C5_push_pop_fault_conditions_witness :
  ((exists s', Faulted (push 0xABCD VM_init) "Stack Overflow" s')
     <-> sp (r VM_init) < 2) /\
  (2 <= sp (r VM_init) ->
     exists s', push 0xABCD VM_init = Ret tt s' /\
       sp (r s') = sp (r VM_init) - 2 /\
       byte_at s' (sp (r s')) = 0xABCD mod 256 /\
       byte_at s' (sp (r s') + 1) = 0xABCD / 256 /\
       0xABCD mod 256 + 256 * (0xABCD / 256) = 0xABCD /\
       (forall a, 0 <= a -> a <> sp (r s') -> a <> sp (r s') + 1 ->
          byte_at s' a = byte_at VM_init a) /\
       only_sp_changed (r VM_init) (r s')) /\
  ((exists s', Faulted (pop VM_init) "Stack Underflow" s')
     <-> SIZE - 2 < sp (r VM_init)) /\
  (sp (r VM_init) <= SIZE - 2 ->
     exists s', pop VM_init
                = Ret (byte_at VM_init (sp (r VM_init))
                       + 256 * byte_at VM_init (sp (r VM_init) + 1)) s' /\
       sp (r s') = (sp (r VM_init) + 2) mod 2 ^ 16 /\
       (sp (r VM_init) < SIZE - 2 -> sp (r s') = sp (r VM_init) + 2) /\
       only_sp_changed (r VM_init) (r s') /\ same_memory VM_init s').
Proof.
  apply (C5_push_pop_fault_conditions VM_init 0xABCD wf_VM_init).
  unfold is_u16. lia.
Defined.

Section PushPop.

Lemma wf_reg k g : wf_Registers g -> is_u16 (reg k g).
Proof.
  intros []. unfold reg.
  repeat (destruct (_ =? _)); done.
Qed.

(** [PUSH] with a selector among 0..3 pushes the selected register. *)
Lemma exec_PUSH s k y :
  k ∈ [0; 1; 2; 3] ->
  executeInstruction (mkInstruction PUSH k y) s = push (reg k (r s)) s.
Proof.
  intros Hk. repeat (apply elem_of_cons in Hk as [-> | Hk]);
    [reflexivity .. |]. by apply elem_of_nil in Hk.
Qed.

(** [POP] with a selector among 0..3 pops, then assigns the register. *)
Lemma exec_POP s k y :
  k ∈ [0; 1; 2; 3] ->
  executeInstruction (mkInstruction POP k y) s
  = match pop s with
    | Ret v s' =>
        Ret tt (set_r ((if k =? 0 then set_ax v
                        else if k =? 1 then set_bx v
                        else if k =? 2 then set_cx v
                        else set_dx v) (r s')) s')
    | Exit msg s' => Exit msg s'
    | Throw e s' => Throw e s'
    | Stuck => Stuck
    end.
Proof.
  intros Hk. repeat (apply elem_of_cons in Hk as [-> | Hk]);
    [reflexivity .. |]. by apply elem_of_nil in Hk.
Qed.

End PushPop.

(** C4: in a machine whose [sp] is at least 2, [PUSH] of the register
    selected by [k] (one of [ax], [bx], [cx], [dx], holding any 16-bit
    value) followed at once by [POP] into the same register returns
    normally both times; afterwards the register holds the value it held
    before the push and [sp] is what it was before the push.  All the
    registers are in fact as before. *)
Theorem C4_push_pop_roundtrip (s : VM) (k y y' : Z) :
  wf s -> k ∈ [0; 1; 2; 3] -> 2 <= sp (r s) ->
  exists s1 s2,
    executeInstruction (mkInstruction PUSH k y) s = Ret tt s1 /\
    executeInstruction (mkInstruction POP k y') s1 = Ret tt s2 /\
    reg k (r s2) = reg k (r s) /\
    sp (r s2) = sp (r s) /\
    r s2 = r s.
Proof.
  intros Hs Hk Hsp.
  pose proof (wf_sp _ (wf_r _ Hs)) as Hsp16. unfold is_u16 in Hsp16.
  pose proof (wf_reg k _ (wf_r _ Hs)) as Hv.
  set (v := reg k (r s)) in *.
  pose proof (wf_pushed s v Hs Hv Hsp) as Hs1.
  exists (pushed v s).
  assert (pop (pushed v s)
          = Ret v (set_r (set_sp (sp (r s)) (r (pushed v s))) (pushed v s)))
    as Hpop.
  { rewrite pop_ok; [| done | rewrite sp_pushed; unfold SIZE; lia].
    rewrite sp_pushed.
    rewrite byte_at_pushed_low by done.
    replace (sp (r s) - 2 + 1) with (sp (r s) - 1) by lia.
    rewrite byte_at_pushed_high by done.
    rewrite combine_split.
    replace (sp (r s) - 2 + 2) with (sp (r s)) by lia.
    by rewrite to_u16_id. }
  eexists. split; [| split].
  - rewrite exec_PUSH by done. by apply push_ok.
  - rewrite exec_POP by done. rewrite Hpop. reflexivity.
  - cbn [r set_r].
    assert ((if k =? 0 then set_ax v
             else if k =? 1 then set_bx v
             else if k =? 2 then set_cx v
             else set_dx v) (set_sp (sp (r s)) (r (pushed v s))) = r s) as ->.
    { subst v. unfold reg. cbn [pushed r set_r set_data].
      repeat (destruct (_ =? _)); by destruct (r s). }
    done.
Qed.

Lemma C4_push_pop_roundtrip_witness :
  let s := set_r (set_cx 0xBEEF Registers_init) VM_init in
  exists s1 s2,
    executeInstruction (mkInstruction PUSH 2 0) s = Ret tt s1 /\
    executeInstruction (mkInstruction POP 2 0) s1 = Ret tt s2 /\
    reg 2 (r s2) = reg 2 (r s) /\
    sp (r s2) = sp (r s) /\
    r s2 = r s.
Proof.
  apply C4_push_pop_roundtrip.
  - apply wf_set_r; [exact wf_VM_init |].
    split; simpl; unfold is_u16; lia.
  - set_solver.
  - simpl. lia.
Defined.

(** ** Fetch *)

Section Fetch.

(** Fetching in a well-formed machine always returns: it decodes the
    instruction at [ip], moves [ip] past it modulo 2^16, and at most adds
    the tag to the size table. *)
Lemma fetch_ok s :
  wf s ->
  exists m, sizeMap_ok m /\
    (recognized (byte_at s (ip (r s))) = true -> m = sizeMap s) /\
    fetchNextInstruction s
    = Ret (decoded s)
        (set_r (set_ip (to_u16 (ip (r s) + size_of (byte_at s (ip (r s))))) (r s))
           (set_sizeMap m s)).
Proof.
  intros Hs.
  pose proof (wf_ip _ (wf_r _ Hs)) as Hip.
  unfold fetchNextInstruction, bind, get.
  rewrite Memory_read_ok by done. rewrite (to_u16_id _ Hip).
  set (tag := byte_at s (ip (r s))).
  destruct (recognized tag) eqn:Hrec.
  - exists (sizeMap s). split; [apply (wf_sizeMap _ Hs) |]. split; [done |].
    rewrite getInstructionSize_recognized by (done || apply (wf_sizeMap _ Hs)).
    unfold decoded. fold tag.
    destruct (size_of_recognized tag Hrec) as [E | E]; rewrite E.
    + cbn [Z.leb Z.compare Pos.compare Pos.compare_cont Z.eqb Pos.eqb].
      unfold ret, modify_r, modify. by destruct s.
    + cbn [Z.leb Z.compare Pos.compare Pos.compare_cont Z.eqb Pos.eqb].
      rewrite read_operand_ok by done.
      replace (ip (r s) + 1 + 1) with (ip (r s) + 2) by lia.
      unfold ret, modify_r, modify. by destruct s.
  - destruct (getInstructionSize_ok s tag (wf_sizeMap _ Hs)) as (m & Hm & ->).
    exists m. split; [done |]. split; [done |].
    unfold decoded. fold tag.
    rewrite (size_of_unrecognized tag Hrec).
    cbn [Z.leb Z.compare Pos.compare Pos.compare_cont Z.eqb Pos.eqb].
    reflexivity.
Qed.

Lemma fetch_never_faults s :
  wf s -> exists i s', fetchNextInstruction s = Ret i s'.
Proof. intros Hs. destruct (fetch_ok s Hs) as (m & _ & _ & ->). eauto. Qed.

(** The [default] label of the dispatch. *)
Lemma exec_unrecognized i s :
  recognized (op i) = false ->
  executeInstruction i s = Exit "Illegal Instruction" s.
Proof.
  intros H. apply bool_decide_eq_false in H. unfold opcodes in H.
  repeat (apply not_elem_of_cons in H as [? H]).
  unfold executeInstruction.
  repeat match goal with
         | |- context [?a =? ?b] => destruct (Z.eqb_spec a b); [congruence |]
         end.
  reflexivity.
Qed.

End Fetch.

(** C3: when the byte at [ip] is not one of the opcodes, the step (fetch,
    then dispatch) ends in the fault "Illegal Instruction"; the registers
    [ax], [bx], [cx], [dx], [sp] and the flag word, and [ip] and the memory
    as well, are those of the state before the step, that is, after the
    last completed instruction; the run loop ends in the same fault with
    any fuel; and the size table answers 0 for the tag, not 1. *)
Theorem C3_unrecognized_tag_faults (s : VM) (tag : Z) :
  wf s ->
  data s !! Z.to_nat (ip (r s)) = Some tag ->
  recognized tag = false ->
  (exists s',
     Faulted (step s) "Illegal Instruction" s' /\
     r s' = r s /\ data s' = data s /\
     forall fuel, Faulted (execute (S fuel) s) "Illegal Instruction" s') /\
  (exists s', getInstructionSize tag s = Ret 0 s') /\
  size_of tag <> 1.
Proof.
  intros Hs Htag Hrec.
  pose proof (wf_ip _ (wf_r _ Hs)) as Hip.
  assert (byte_at s (ip (r s)) = tag) as Hbyte
    by (unfold byte_at; by rewrite Htag).
  pose proof (size_of_unrecognized tag Hrec) as Hsize.
  destruct (fetch_ok s Hs) as (m & Hm & _ & Hfetch).
  rewrite Hbyte, Hsize, Z.add_0_r, (to_u16_id _ Hip) in Hfetch.
  assert (step s = Exit "Illegal Instruction"
                     (set_r (set_ip (ip (r s)) (r s)) (set_sizeMap m s)))
    as Hstep.
  { unfold step, bind. rewrite Hfetch.
    rewrite exec_unrecognized; [reflexivity |].
    unfold decoded. cbn [op]. by rewrite Hbyte. }
  split; [| split].
  - eexists. split; [exact Hstep |].
    split; [by destruct (r s) |]. split; [reflexivity |].
    intros fuel. unfold Faulted, execute. simpl. unfold bind.
    by rewrite Hstep.
  - destruct (getInstructionSize_ok s tag (wf_sizeMap _ Hs)) as (m' & _ & ->).
    rewrite Hsize. eauto.
  - lia.
Qed.

Lemma C3_unrecognized_tag_faults_witness :
  (exists s',
     Faulted (step VM_init) "Illegal Instruction" s' /\
     r s' = r VM_init /\ data s' = data VM_init /\
     forall fuel, Faulted (execute (S fuel) VM_init) "Illegal Instruction" s') /\
  (exists s', getInstructionSize 0 VM_init = Ret 0 s') /\
  size_of 0 <> 1.
Proof.
  apply (C3_unrecognized_tag_faults VM_init 0 wf_VM_init); reflexivity.
Defined.

(** C1, as the code behaves: a fetch at the last address, [ip] = 0xFFFF,
    of a tag of size 3 does not fault.  The operand addresses [ip + 1] and
    [ip + 2] are reduced to 16 bits by the parameter of [operator[]] before
    [data.at] checks them, so the operand is read from the addresses 0 and
    1 and [ip] continues at 2. *)
Theorem C1_fetch_at_top_reads_address_0 (s : VM) (tag : Z) :
  wf s ->
  ip (r s) = 0xFFFF ->
  data s !! Z.to_nat 0xFFFF = Some tag ->
  size_of tag = 3 ->
  exists s',
    fetchNextInstruction s
    = Ret {| op := tag; a1 := byte_at s 0 + 256 * byte_at s 1; a2 := 0 |} s' /\
    ip (r s') = 2 /\ data s' = data s.
Proof.
  intros Hs Hip Htag Hsize.
  assert (byte_at s (ip (r s)) = tag) as Hbyte
    by (unfold byte_at; by rewrite Hip, Htag).
  destruct (fetch_ok s Hs) as (m & _ & _ & Hfetch).
  eexists. split; [| split].
  - rewrite Hfetch. unfold decoded.
    rewrite Hbyte, Hsize, Hip. reflexivity.
  - reflexivity.
  - reflexivity.
Qed.

Lemma C1_fetch_at_top_reads_address_0_witness :
  let s := set_r (set_ip 0xFFFF Registers_init)
             (set_data (<[Z.to_nat 0xFFFF := MOV]>
                          (<[1%nat := 0x12]> (<[0%nat := 0x34]> (data VM_init))))
                VM_init) in
  exists s',
    fetchNextInstruction s
    = Ret {| op := MOV; a1 := 0x34 + 256 * 0x12; a2 := 0 |} s' /\
    ip (r s') = 2 /\ data s' = data s.
Proof.
  intros s.
  assert (wf s) as Hs.
  { apply wf_set_r; [| split; simpl; unfold is_u16; lia].
    pose proof (wf_set_data _ 0%nat 0x34 wf_VM_init ltac:(unfold is_u8; lia)) as H0.
    pose proof (wf_set_data _ 1%nat 0x12 H0 ltac:(unfold is_u8; lia)) as H1.
    exact (wf_set_data _ (Z.to_nat 0xFFFF) MOV H1 ltac:(unfold is_u8, MOV; lia)). }
  assert (data s !! Z.to_nat 0xFFFF = Some MOV) as Htag
    by (vm_compute; reflexivity).
  assert (byte_at s 0 = 0x34) as E0 by (vm_compute; reflexivity).
  assert (byte_at s 1 = 0x12) as E1 by (vm_compute; reflexivity).
  rewrite <- E0, <- E1.
  exact (C1_fetch_at_top_reads_address_0 s MOV Hs eq_refl Htag eq_refl).
Defined.

(** ** The loader against the byte string of the program *)

Section Loader.

Lemma length_store_bytes bytes cursor d :
  length (store_bytes bytes cursor d) = length d.
Proof.
  revert cursor d. induction bytes as [| b rest IH]; intros cursor d; simpl.
  - reflexivity.
  - rewrite IH. apply length_insert.
Qed.

Lemma Forall_store_bytes bytes cursor d :
  Forall is_u8 bytes -> Forall is_u8 d -> Forall is_u8 (store_bytes bytes cursor d).
Proof.
  revert cursor d. induction bytes as [| b rest IH]; intros cursor d Hb Hd; simpl.
  - exact Hd.
  - inversion Hb; subst. apply IH; [done |]. by apply Forall_insert.
Qed.

Lemma store_bytes_app l1 l2 cursor d :
  is_u16 cursor ->
  store_bytes (l1 ++ l2) cursor d
  = store_bytes l2 (to_u16 (cursor + Z.of_nat (length l1))) (store_bytes l1 cursor d).
Proof.
  revert cursor d. induction l1 as [| b rest IH]; intros cursor d Hc.
  - simpl. rewrite Z.add_0_r. by rewrite to_u16_id.
  - cbn [app store_bytes length]. rewrite IH by apply to_u16_range.
    f_equal. u16_lia.
Qed.

Lemma length_encode i : Z.of_nat (length (encode i)) = stored_bytes (op i).
Proof.
  unfold encode, stored_bytes.
  destruct (size_of_cases (op i)) as [E | [E | E]]; rewrite E; reflexivity.
Qed.

Lemma Forall_encode i : Forall is_u8 (encode i).
Proof.
  unfold encode.
  destruct (size_of_cases (op i)) as [E | [E | E]]; rewrite E; simpl;
    repeat constructor; apply to_u8_range || apply low_byte_u8.
Qed.

Lemma length_encode_program prog :
  Z.of_nat (length (encode_program prog)) = encoded_length prog.
Proof.
  unfold encode_program.
  induction prog as [| i rest IH]; cbn [map concat encoded_length foldr].
  - reflexivity.
  - rewrite length_app, Nat2Z.inj_add, IH, length_encode. reflexivity.
Qed.

Lemma Forall_encode_program prog : Forall is_u8 (encode_program prog).
Proof.
  unfold encode_program. induction prog as [| i rest IH]; cbn [map concat].
  - constructor.
  - apply Forall_app. split; [apply Forall_encode | exact IH].
Qed.

Lemma stored_bytes_pos o : 1 <= stored_bytes o <= 3.
Proof.
  unfold stored_bytes.
  destruct (size_of_cases o) as [E | [E | E]]; rewrite E; simpl; lia.
Qed.

Lemma stored_bytes_recognized o :
  recognized o = true -> stored_bytes o = size_of o.
Proof.
  intros H. unfold stored_bytes.
  destruct (size_of_recognized o H) as [E | E]; rewrite E; reflexivity.
Qed.

Lemma encoded_length_nonneg prog : 0 <= encoded_length prog.
Proof.
  induction prog as [| i rest IH]; cbn [encoded_length foldr]; [lia |].
  pose proof (stored_bytes_pos (op i)). fold (encoded_length rest). lia.
Qed.

Lemma store_next_eq v s :
  store_next v s
  = Ret tt (mkVM (r s) (<[Z.to_nat (breakLine s) := to_u8 v]> (data s))
              (to_u16 (breakLine s + 1)) (sizeMap s)).
Proof. reflexivity. Qed.

Lemma to_u8_low a : to_u8 (Z.land a 0xff) = a mod 256.
Proof. rewrite low_byte. apply to_u8_id, low_byte_u8. Qed.

Lemma to_u8_high a : to_u8 (Z.land (Z.shiftr a 8) 0xff) = (a / 256) mod 256.
Proof.
  rewrite low_byte, Z.shiftr_div_pow2 by lia. change (2 ^ 8) with 256.
  apply to_u8_id, low_byte_u8.
Qed.

(** One turn of the loop of [loadProgram] stores the encoding of the
    instruction at the cursor and moves the cursor past it. *)
Lemma loadInstruction_spec s i :
  wf s ->
  exists m, sizeMap_ok m /\
    (recognized (op i) = true -> m = sizeMap s) /\
    loadInstruction i s
    = Ret tt (mkVM (r s) (store_bytes (encode i) (breakLine s) (data s))
                (to_u16 (breakLine s + stored_bytes (op i))) m).
Proof.
  intros Hs.
  pose proof (wf_breakLine _ Hs) as Hb.
  unfold loadInstruction, bind. rewrite store_next_eq.
  set (s1 := mkVM _ _ _ _).
  destruct (getInstructionSize_ok s1 (op i) (wf_sizeMap _ Hs)) as (m & Hm & E).
  assert (recognized (op i) = true -> m = sizeMap s) as Hrec.
  { intros Hr.
    rewrite (getInstructionSize_recognized s1 (op i) (wf_sizeMap _ Hs) Hr) in E.
    injection E as E. by rewrite <- E. }
  exists m. split; [done |]. split; [done |].
  rewrite E. unfold encode, stored_bytes.
  destruct (size_of_cases (op i)) as [Es | [Es | Es]]; rewrite Es;
    cbn [Z.leb Z.compare Pos.compare Pos.compare_cont Z.eqb Pos.eqb when
         app store_bytes].
  - reflexivity.
  - reflexivity.
  - unfold store_operand, bind. rewrite !store_next_eq.
    cbn [r data breakLine sizeMap s1 set_sizeMap ret].
    rewrite to_u8_high, to_u8_low. unfold ret. f_equal. f_equal. u16_lia.
Qed.

Lemma wf_loaded s bytes b m :
  wf s -> Forall is_u8 bytes -> sizeMap_ok m ->
  wf (mkVM (r s) (store_bytes bytes (breakLine s) (data s)) (to_u16 b) m).
Proof.
  intros Hs Hbytes Hm. split; cbn [r data breakLine sizeMap].
  - apply (wf_r _ Hs).
  - rewrite length_store_bytes. apply (wf_length _ Hs).
  - apply Forall_store_bytes; [done | apply (wf_bytes _ Hs)].
  - apply to_u16_range.
  - done.
Qed.

(** [loadProgram] returns for every program: it stores the byte string
    of the program at the cursor, which wraps modulo 2^16, and touches
    neither the registers nor the length of the memory. *)
Lemma loadProgram_spec prog s :
  wf s ->
  exists m, sizeMap_ok m /\
    loadProgram prog s
    = Ret tt (mkVM (r s)
                (store_bytes (encode_program prog) (breakLine s) (data s))
                (to_u16 (breakLine s + encoded_length prog)) m).
Proof.
  revert s. induction prog as [| i rest IH]; intros s Hs.
  - exists (sizeMap s). split; [apply (wf_sizeMap _ Hs) |].
    cbn [loadProgram encode_program map concat store_bytes encoded_length foldr].
    rewrite Z.add_0_r, (to_u16_id _ (wf_breakLine _ Hs)). by destruct s.
  - destruct (loadInstruction_spec s i Hs) as (m1 & Hm1 & _ & E1).
    pose proof (wf_loaded s (encode i) (breakLine s + stored_bytes (op i)) m1
                  Hs (Forall_encode i) Hm1) as Hs1.
    destruct (IH _ Hs1) as (m & Hm & E).
    exists m. split; [done |].
    cbn [loadProgram]. unfold bind. rewrite E1, E.
    cbn [r data breakLine sizeMap].
    unfold encode_program. cbn [map concat encoded_length foldr].
    rewrite store_bytes_app by apply (wf_breakLine _ Hs).
    rewrite length_encode. f_equal. f_equal.
    fold (encoded_length rest).
    generalize (encoded_length rest) (stored_bytes (op i)) (breakLine s).
    clear. intros n k b. u16_lia.
Qed.

Lemma encoded_length_app p q :
  encoded_length (p ++ q) = encoded_length p + encoded_length q.
Proof.
  induction p as [| i rest IH]; cbn [app encoded_length foldr];
    [reflexivity |].
  fold (encoded_length (rest ++ q)). fold (encoded_length rest).
  rewrite IH. lia.
Qed.

Lemma encoded_length_replicate n i :
  encoded_length (replicate n i) = Z.of_nat n * stored_bytes (op i).
Proof.
  induction n as [| n IH]; [reflexivity |].
  cbn [replicate encoded_length foldr].
  fold (encoded_length (replicate n i)). rewrite IH. lia.
Qed.

Lemma encode_program_app p q :
  encode_program (p ++ q) = encode_program p ++ encode_program q.
Proof. unfold encode_program. by rewrite map_app, concat_app. Qed.

End Loader.

Section LoadThenFetch.

Variables (s : VM) (i : Instruction).
Hypothesis Hs : wf s.
Hypothesis Hrec : recognized (op i) = true.
Hypothesis Ha1 : is_u16 (a1 i).

Lemma recognized_u8 o : recognized o = true -> is_u8 o.
Proof.
  intros H. apply recognized_elem in H. unfold opcodes in H.
  repeat (apply elem_of_cons in H as [-> | H]); [by vm_compute .. |].
  by apply elem_of_nil in H.
Qed.

Lemma loadProgram_single : loadProgram [i] s = Ret tt (loaded i s).
Proof.
  destruct (loadInstruction_spec s i Hs) as (m & _ & Hm & E).
  cbn [loadProgram]. unfold bind. rewrite E, (Hm Hrec). reflexivity.
Qed.

Lemma wf_loaded_instr : wf (loaded i s).
Proof.
  apply wf_loaded; [done | apply Forall_encode | apply (wf_sizeMap _ Hs)].
Qed.

Lemma encode_size_1 : size_of (op i) = 1 -> encode i = [op i].
Proof.
  intros E. unfold encode. rewrite E. cbn [Z.leb Z.eqb Z.compare Pos.compare
    Pos.compare_cont Pos.eqb app].
  by rewrite (to_u8_id _ (recognized_u8 _ Hrec)).
Qed.

Lemma encode_size_3 :
  size_of (op i) = 3 -> encode i = [op i; a1 i mod 256; a1 i / 256].
Proof.
  intros E. unfold encode. rewrite E. cbn [Z.leb Z.eqb Z.compare Pos.compare
    Pos.compare_cont Pos.eqb app].
  rewrite (to_u8_id _ (recognized_u8 _ Hrec)).
  by rewrite (Z.mod_small (a1 i / 256) 256) by (apply high_byte_u8, Ha1).
Qed.

Lemma byte_at_loaded_tag : byte_at (loaded i s) (breakLine s) = op i.
Proof.
  pose proof (wf_breakLine _ Hs) as Hb.
  pose proof (wf_length _ Hs) as Hlen.
  unfold byte_at, loaded. cbn [data].
  destruct (size_of_recognized _ Hrec) as [E | E].
  - rewrite (encode_size_1 E). cbn [store_bytes].
    rewrite list_lookup_insert_eq by u16_lia. reflexivity.
  - rewrite (encode_size_3 E). cbn [store_bytes].
    rewrite !list_lookup_insert_ne by u16_lia.
    rewrite list_lookup_insert_eq by u16_lia. reflexivity.
Qed.

Lemma byte_at_loaded_low :
  size_of (op i) = 3 ->
  byte_at (loaded i s) (to_u16 (breakLine s + 1)) = a1 i mod 256.
Proof.
  intros E.
  pose proof (wf_breakLine _ Hs) as Hb.
  pose proof (wf_length _ Hs) as Hlen.
  unfold byte_at, loaded. cbn [data].
  rewrite (encode_size_3 E). cbn [store_bytes].
  rewrite list_lookup_insert_ne by u16_lia.
  rewrite list_lookup_insert_eq by (rewrite length_insert; u16_lia).
  reflexivity.
Qed.

Lemma byte_at_loaded_high :
  size_of (op i) = 3 ->
  byte_at (loaded i s) (to_u16 (breakLine s + 2)) = a1 i / 256.
Proof.
  intros E.
  pose proof (wf_breakLine _ Hs) as Hb.
  pose proof (wf_length _ Hs) as Hlen.
  unfold byte_at, loaded. cbn [data].
  rewrite (encode_size_3 E). cbn [store_bytes].
  replace (to_u16 (to_u16 (breakLine s + 1) + 1))
    with (to_u16 (breakLine s + 2)) by (clear; u16_lia).
  rewrite list_lookup_insert_eq by (rewrite !length_insert; u16_lia).
  reflexivity.
Qed.

End LoadThenFetch.

(** C8: for every recognized instruction with a 16-bit operand, the
    loader returns after storing the tag at the cursor and, for a tag of
    size 3, the low byte and then the high byte of the operand behind it;
    the size is 1 or 3 (no opcode has size 5) and the cursor moves by
    exactly the size, in 16-bit arithmetic.  A fetch at the address where
    the instruction was stored returns the same tag, the same first
    operand when the size is 3, and moves [ip] by the same size, to where
    the cursor is. *)
Theorem C8_load_fetch_inverse (s : VM) (i : Instruction) :
  wf s -> recognized (op i) = true -> is_u16 (a1 i) ->
  let b := breakLine s in
  let n := size_of (op i) in
  (n = 1 \/ n = 3) /\
  exists s1,
    loadProgram [i] s = Ret tt s1 /\
    breakLine s1 = (b + n) mod 2 ^ 16 /\
    (b + n < SIZE -> breakLine s1 = b + n) /\
    byte_at s1 b = op i /\
    (n = 3 ->
       byte_at s1 ((b + 1) mod 2 ^ 16) = a1 i mod 256 /\
       byte_at s1 ((b + 2) mod 2 ^ 16) = a1 i / 256) /\
    exists f s2,
      fetchNextInstruction (set_r (set_ip b (r s1)) s1) = Ret f s2 /\
      op f = op i /\
      (n = 3 -> a1 f = a1 i) /\
      ip (r s2) = (b + n) mod 2 ^ 16 /\
      ip (r s2) = breakLine s1.
Proof.
  intros Hs Hrec Ha1 b n.
  pose proof (wf_breakLine _ Hs) as Hb.
  pose proof (size_of_recognized _ Hrec) as Hn. fold n in Hn.
  split; [exact Hn |].
  exists (loaded i s).
  split; [by apply loadProgram_single |].
  assert (breakLine (loaded i s) = to_u16 (b + n)) as Hcursor.
  { unfold loaded. cbn [breakLine]. by rewrite stored_bytes_recognized. }
  split; [exact Hcursor |].
  split.
  { intros Hfit. rewrite Hcursor. apply to_u16_id.
    unfold is_u16, SIZE in *. lia. }
  split; [by apply byte_at_loaded_tag |].
  split.
  { intros E. split; [by apply byte_at_loaded_low | by apply byte_at_loaded_high]. }
  set (s1 := set_r (set_ip b (r (loaded i s))) (loaded i s)).
  assert (wf s1) as Hs1.
  { apply wf_set_r; [by apply wf_loaded_instr |].
    destruct (wf_r _ Hs). by split. }
  destruct (fetch_ok s1 Hs1) as (m & _ & _ & Hfetch).
  assert (byte_at s1 (ip (r s1)) = op i) as Htag
    by (by apply byte_at_loaded_tag).
  rewrite Htag in Hfetch. fold n in Hfetch.
  eexists. eexists. split; [exact Hfetch |].
  split; [exact Htag |].
  split; [| split; [reflexivity | by rewrite Hcursor]].
  intros E. unfold decoded. cbn [a1]. rewrite Htag. fold n. rewrite E.
  cbn [Z.leb Z.compare Pos.compare Pos.compare_cont].
  change (byte_at s1) with (byte_at (loaded i s)).
  change (ip (r s1)) with (breakLine s).
  rewrite byte_at_loaded_low, byte_at_loaded_high by done.
  apply combine_split.
Qed.

Lemma C8_load_fetch_inverse_witness :
  let i := instr1 MOV_CX 0xF00D in
  (size_of (op i) = 1 \/ size_of (op i) = 3) /\
  exists s1,
    loadProgram [i] VM_init = Ret tt s1 /\
    breakLine s1 = (0 + size_of (op i)) mod 2 ^ 16 /\
    (0 + size_of (op i) < SIZE -> breakLine s1 = 0 + size_of (op i)) /\
    byte_at s1 0 = op i /\
    (size_of (op i) = 3 ->
       byte_at s1 ((0 + 1) mod 2 ^ 16) = a1 i mod 256 /\
       byte_at s1 ((0 + 2) mod 2 ^ 16) = a1 i / 256) /\
    exists f s2,
      fetchNextInstruction (set_r (set_ip 0 (r s1)) s1) = Ret f s2 /\
      op f = op i /\
      (size_of (op i) = 3 -> a1 f = a1 i) /\
      ip (r s2) = (0 + size_of (op i)) mod 2 ^ 16 /\
      ip (r s2) = breakLine s1.
Proof.
  apply (C8_load_fetch_inverse VM_init (instr1 MOV_CX 0xF00D) wf_VM_init).
  - reflexivity.
  - simpl. unfold is_u16. lia.
Defined.

(** ** A program longer than the memory *)

Section Oversized.

Lemma encoded_length_oversized : encoded_length oversized = SIZE + 1.
Proof.
  unfold oversized. rewrite encoded_length_app, encoded_length_replicate.
  rewrite Z2Nat.id by (unfold SIZE; lia). reflexivity.
Qed.

Lemma byte_at_VM_init_0 : byte_at VM_init 0 = 0.
Proof.
  unfold byte_at. change (data VM_init) with (replicate (Z.to_nat SIZE) 0).
  rewrite lookup_replicate_2; [reflexivity |]. unfold SIZE. lia.
Qed.

(** The byte of [HLT], the last of the program, lands on address 0. *)
Lemma store_oversized_0 d :
  length d = Z.to_nat SIZE ->
  store_bytes (encode_program oversized) 0 d !! Z.to_nat 0 = Some HLT.
Proof.
  intros Hlen. unfold oversized.
  rewrite encode_program_app, store_bytes_app by (unfold is_u16; lia).
  rewrite length_encode_program, encoded_length_replicate.
  rewrite Z2Nat.id by (unfold SIZE; lia).
  change (to_u16 (0 + SIZE * stored_bytes (op (instr0 NOP)))) with 0.
  change (encode_program [instr0 HLT]) with [HLT].
  cbn [store_bytes].
  apply list_lookup_insert_eq.
  rewrite length_store_bytes, Hlen. unfold SIZE. lia.
Qed.

End Oversized.

(** C2, counterexample: the program [oversized] is 65537 bytes long, one
    more than the memory holds, and yet loading it in a fresh machine
    returns normally, with no fault at all, and leaves the byte of [HLT]
    at address 0, where the memory held 0: the memory has changed. *)
Lemma C2_oversized_load_counterexample :
  SIZE < encoded_length oversized /\
  (exists s', loadProgram oversized VM_init = Ret tt s' /\
     byte_at s' 0 = HLT /\ byte_at VM_init 0 = 0 /\ data s' <> data VM_init) /\
  ~ (exists msg s', loadProgram oversized VM_init = Exit msg s' /\
       data s' = data VM_init).
Proof.
  destruct (loadProgram_spec oversized VM_init wf_VM_init) as (m & _ & E).
  pose proof (store_oversized_0 (data VM_init) (wf_length _ wf_VM_init)) as H0.
  pose proof byte_at_VM_init_0 as Hinit.
  remember (to_u16 (breakLine VM_init + encoded_length oversized)) as b eqn:Eb.
  clear Eb.
  change (breakLine VM_init) with 0 in E.
  remember (store_bytes (encode_program oversized) 0 (data VM_init)) as d eqn:Ed.
  clear Ed.
  assert (byte_at (mkVM (r VM_init) d b m) 0 = HLT) as Hbyte.
  { unfold byte_at. cbn [data]. by rewrite H0. }
  split; [rewrite encoded_length_oversized; lia |].
  split.
  - exists (mkVM (r VM_init) d b m).
    split; [exact E |]. split; [exact Hbyte |]. split; [exact Hinit |].
    cbn [data]. intros Hdata. subst d.
    unfold byte_at in Hinit. rewrite H0 in Hinit. discriminate.
  - intros (msg & s' & Hexit & _). rewrite E in Hexit. discriminate.
Qed.

(** C2, as the code behaves: for every program whose encoded length
    exceeds the 65536 bytes of the memory, the loader does not fault.  It
    returns normally after storing every byte of the encoding at the
    16-bit cursor, which wraps from 65535 to 0; the memory keeps its
    length, the registers are unchanged, and the cursor ends at its start
    plus the encoded length modulo 2^16. *)
Theorem C2_oversized_load_wraps (s : VM) (prog : list Instruction) :
  wf s -> SIZE < encoded_length prog ->
  exists s',
    loadProgram prog s = Ret tt s' /\
    data s' = store_bytes (encode_program prog) (breakLine s) (data s) /\
    Z.of_nat (length (encode_program prog)) = encoded_length prog /\
    breakLine s' = (breakLine s + encoded_length prog) mod 2 ^ 16 /\
    length (data s') = length (data s) /\
    r s' = r s /\
    wf s'.
Proof.
  intros Hs _.
  destruct (loadProgram_spec prog s Hs) as (m & Hm & E).
  eexists. split; [exact E |]. cbn [data breakLine r].
  split; [reflexivity |].
  split; [apply length_encode_program |].
  split; [reflexivity |].
  split; [apply length_store_bytes |].
  split; [reflexivity |].
  apply wf_loaded; [done | apply Forall_encode_program | done].
Qed.

Lemma C2_oversized_load_wraps_witness :
  exists s',
    loadProgram oversized VM_init = Ret tt s' /\
    data s'
    = store_bytes (encode_program oversized) (breakLine VM_init) (data VM_init) /\
    Z.of_nat (length (encode_program oversized)) = encoded_length oversized /\
    breakLine s' = (breakLine VM_init + encoded_length oversized) mod 2 ^ 16 /\
    length (data s') = length (data VM_init) /\
    r s' = r VM_init /\
    wf s'.
Proof.
  apply (C2_oversized_load_wraps VM_init oversized wf_VM_init).
  rewrite encoded_length_oversized. lia.
Defined.

(** ** Well-formedness is an invariant of the machine *)

Section Invariant.

Lemma wf_Registers_set (g : Registers) (v : Z) :
  wf_Registers g -> is_u16 v ->
  wf_Registers (set_ax v g) /\ wf_Registers (set_bx v g) /\
  wf_Registers (set_cx v g) /\ wf_Registers (set_dx v g) /\
  wf_Registers (set_sp v g) /\ wf_Registers (set_ip v g) /\
  wf_Registers (set_flags v g).
Proof. intros [] Hv. repeat apply conj; constructor; simpl; assumption. Qed.

Lemma wf_modify_r (f : Registers -> Registers) s s' :
  wf s -> wf_Registers (f (r s)) -> modify_r f s = Ret tt s' -> wf s'.
Proof. intros Hs Hf [= <-]. by apply wf_set_r. Qed.

Lemma wf_push s s' v : wf s -> is_u16 v -> push v s = Ret tt s' -> wf s'.
Proof.
  intros Hs Hv Hpush.
  destruct (Z.lt_ge_cases (sp (r s)) 2) as [Hlt | Hge].
  - rewrite push_overflow in Hpush by done. discriminate.
  - rewrite push_ok in Hpush by done. injection Hpush as <-.
    by apply wf_pushed.
Qed.

Lemma pop_cases s :
  wf s ->
  pop s = Exit "Stack Underflow" s \/
  exists v, is_u16 v /\
    pop s = Ret v (set_r (set_sp (to_u16 (sp (r s) + 2)) (r s)) s).
Proof.
  intros Hs.
  destruct (Z.lt_ge_cases (SIZE - 2) (sp (r s))) as [Hlt | Hge].
  - left. by apply pop_underflow.
  - right. eexists. split; [| by apply pop_ok].
    pose proof (wf_sp _ (wf_r _ Hs)) as Hsp.
    destruct (lookup_byte s (sp (r s)) Hs Hsp) as [_ Hlo].
    destruct (lookup_byte s (sp (r s) + 1) Hs) as [_ Hhi].
    { unfold is_u16, SIZE in *. lia. }
    unfold is_u8, is_u16 in *. lia.
Qed.

Lemma wf_pop_into (f : Z -> Registers -> Registers) s s' :
  wf s ->
  (forall v g, is_u16 v -> wf_Registers g -> wf_Registers (f v g)) ->
  (let* v := pop in modify_r (f v)) s = Ret tt s' -> wf s'.
Proof.
  intros Hs Hf. unfold bind.
  destruct (pop_cases s Hs) as [-> | (v & Hv & ->)]; [discriminate |].
  intros [= <-]. apply wf_set_r.
  - apply wf_set_r; [done |].
    apply (wf_Registers_set _ _ (wf_r _ Hs) (to_u16_range _)).
  - apply Hf; [done |].
    apply (wf_Registers_set _ _ (wf_r _ Hs) (to_u16_range _)).
Qed.

Lemma wf_arith (f : Z -> Z -> Z) s s' : wf s -> arith f s = Ret tt s' -> wf s'.
Proof.
  intros Hs E. rewrite (arith_Ret f s s' E).
  apply wf_set_r; [done |].
  apply (wf_Registers_set _ _ (wf_r _ Hs) (to_u16_range _)).
Qed.

Lemma wf_setFlag mask val s s' : wf s -> setFlag mask val s = Ret tt s' -> wf s'.
Proof.
  intros Hs. apply wf_modify_r; [done |].
  destruct val; apply (wf_Registers_set _ _ (wf_r _ Hs) (to_u16_range _)).
Qed.

(** A dispatch that returns leaves a well-formed machine. *)
Lemma wf_executeInstruction i s s' :
  wf s -> is_u16 (a1 i) -> executeInstruction i s = Ret tt s' -> wf s'.
Proof.
  intros Hs Ha.
  pose proof (wf_r _ Hs) as Hr.
  pose proof (wf_Registers_set _ _ Hr Ha) as (? & ? & ? & ? & ? & _).
  unfold executeInstruction. cbv zeta.
  repeat match goal with
         | |- (if ?a =? ?b then _ else _) _ = _ -> _ =>
             destruct (Z.eqb_spec a b)
         | |- bind get _ _ = _ -> _ => unfold bind at 1, get at 1
         end;
    try (intros [= <-]; done);
    try (by apply wf_modify_r);
    try (by apply wf_arith);
    try (by apply wf_setFlag);
    try (apply wf_push; [done |]; by destruct Hr);
    try (apply wf_pop_into; [done |]; intros v g Hv Hg;
         apply (wf_Registers_set _ _ Hg Hv)).
  unfold bind, when. destruct (bx (r s) =? 0); [discriminate |].
  by apply wf_arith.
Qed.

Lemma decoded_operand_u16 s : wf s -> is_u16 (a1 (decoded s)).
Proof.
  intros Hs. unfold decoded. cbn [a1].
  destruct (2 <=? size_of (byte_at s (ip (r s)))); [| unfold is_u16; lia].
  destruct (lookup_byte s _ Hs (to_u16_range (ip (r s) + 1))) as [_ Hlo].
  destruct (lookup_byte s _ Hs (to_u16_range (ip (r s) + 2))) as [_ Hhi].
  unfold is_u8, is_u16 in *. lia.
Qed.

(** Every step that returns leaves a well-formed machine: the hypothesis
    [wf] of the theorems on this file holds all along a run. *)
Lemma wf_step s s' i : wf s -> step s = Ret i s' -> wf s'.
Proof.
  intros Hs. unfold step, bind.
  destruct (fetch_ok s Hs) as (m & Hm & _ & ->).
  set (s1 := set_r _ _).
  assert (wf s1) as Hs1.
  { apply wf_set_r; [by apply wf_set_sizeMap |].
    apply (wf_Registers_set _ _ (wf_r _ Hs) (to_u16_range _)). }
  destruct (executeInstruction (decoded s) s1) as [[] s2 | | |] eqn:E;
    try discriminate.
  intros [= _ <-].
  apply (wf_executeInstruction (decoded s) s1); [done | | done].
  by apply decoded_operand_u16.
Qed.

Lemma wf_loadProgram prog s s' : wf s -> loadProgram prog s = Ret tt s' -> wf s'.
Proof.
  intros Hs. destruct (loadProgram_spec prog s Hs) as (m & Hm & ->).
  intros [= <-]. apply wf_loaded; [done | apply Forall_encode_program | done].
Qed.

End Invariant.

(** ** A run that reaches the last address *)

Section Sled.

Lemma set_ip_same s : set_r (set_ip (ip (r s)) (r s)) s = s.
Proof. destruct s as [[] ? ? ?]. reflexivity. Qed.

Lemma fetch_recognized s :
  wf s -> recognized (byte_at s (ip (r s))) = true ->
  fetchNextInstruction s
  = Ret (decoded s)
      (set_r (set_ip (to_u16 (ip (r s) + size_of (byte_at s (ip (r s))))) (r s)) s).
Proof.
  intros Hs Hrec. destruct (fetch_ok s Hs) as (m & _ & Hm & ->).
  rewrite (Hm Hrec). by destruct s.
Qed.

Lemma loop_continue n s i s' :
  step s = Ret i s' -> op i <> HLT -> loop (S n) s = loop n s'.
Proof.
  intros Hstep Hop. cbn [loop]. unfold bind. rewrite Hstep.
  by rewrite (proj2 (Z.eqb_neq _ _) Hop).
Qed.

Lemma step_NOP s :
  wf s -> byte_at s (ip (r s)) = NOP -> ip (r s) < 65535 ->
  step s = Ret (decoded s) (set_r (set_ip (ip (r s) + 1) (r s)) s)
  /\ op (decoded s) = NOP.
Proof.
  intros Hs Htag Hip.
  pose proof (wf_ip _ (wf_r _ Hs)) as Hip16.
  split; [| exact Htag].
  unfold step, bind. rewrite fetch_recognized by (done || by rewrite Htag).
  rewrite Htag. change (size_of NOP) with 1.
  rewrite to_u16_id by (unfold is_u16 in *; lia).
  assert (executeInstruction (decoded s) = ret tt) as ->; [| reflexivity].
  unfold executeInstruction, decoded. cbn [op]. by rewrite Htag.
Qed.

Lemma step_recognized s i s' :
  wf s -> decoded s = i -> recognized (op i) = true ->
  executeInstruction i
    (set_r (set_ip (to_u16 (ip (r s) + size_of (op i))) (r s)) s) = Ret tt s' ->
  step s = Ret i s'.
Proof.
  intros Hs <- Hrec Hexec. unfold step, bind.
  rewrite fetch_recognized by done.
  change (byte_at s (ip (r s))) with (op (decoded s)).
  by rewrite Hexec.
Qed.

(** A run of [NOP] bytes only moves [ip]. *)
Lemma loop_NOP_sled n : forall s k,
  wf s ->
  (forall j, 0 <= j < Z.of_nat n -> byte_at s (ip (r s) + j) = NOP) ->
  ip (r s) + Z.of_nat n <= 65535 ->
  loop (n + k) s = loop k (set_r (set_ip (ip (r s) + Z.of_nat n) (r s)) s).
Proof.
  induction n as [| n IH]; intros s k Hs Hnop Hend.
  - cbn [Nat.add Z.of_nat]. by rewrite Z.add_0_r, set_ip_same.
  - destruct (step_NOP s Hs) as [Hstep Hop].
    { rewrite <- (Z.add_0_r (ip (r s))). apply Hnop. lia. }
    { lia. }
    cbn [Nat.add]. rewrite (loop_continue _ _ _ _ Hstep) by (by rewrite Hop).
    set (s1 := set_r (set_ip (ip (r s) + 1) (r s)) s).
    assert (wf s1) as Hs1.
    { apply wf_set_r; [done |].
      apply (wf_Registers_set _ _ (wf_r _ Hs)).
      pose proof (wf_ip _ (wf_r _ Hs)). unfold is_u16 in *. lia. }
    rewrite (IH s1 k Hs1).
    + f_equal. unfold s1. cbn [r set_r ip set_ip].
      destruct s as [[] ? ? ?]. cbn. unfold set_r, set_ip. cbn.
      do 2 f_equal. lia.
    + intros j Hj. change (byte_at s1) with (byte_at s).
      change (ip (r s1)) with (ip (r s) + 1).
      rewrite <- Z.add_assoc. apply Hnop. lia.
    + change (ip (r s1)) with (ip (r s) + 1). lia.
Qed.

End Sled.

Section TopRun.

Variables (d : list Z) (b : Z) (m : gmap Z Z).
Hypothesis Hlen : length d = Z.to_nat SIZE.
Hypothesis Hbytes : Forall is_u8 d.
Hypothesis Hb : is_u16 b.
Hypothesis Hm : sizeMap_ok m.
Hypothesis Hcode :
  d !! Z.to_nat 0 = Some MOV /\ d !! Z.to_nat 1 = Some 0x01 /\
  d !! Z.to_nat 2 = Some 0x01 /\ d !! Z.to_nat 3 = Some PUSH /\
  d !! Z.to_nat 4 = Some 0x00 /\ d !! Z.to_nat 5 = Some 0x00.
Hypothesis Hnop : forall a, 6 <= a < 65533 -> d !! Z.to_nat a = Some NOP.
Hypothesis Htop : d !! Z.to_nat 0xFFFF = Some MOV.

Lemma wf_mkVM g d' : wf_Registers g -> length d' = Z.to_nat SIZE ->
  Forall is_u8 d' -> wf (mkVM g d' b m).
Proof. intros. by split. Qed.

Lemma wf_regs_concrete x s' i' :
  is_u16 x -> is_u16 s' -> is_u16 i' ->
  wf_Registers (mkRegisters x 0 0 0 s' i' 0).
Proof. intros. split; cbn; try done; unfold is_u16; lia. Qed.

(** The memory after the push of 0x0101 at [sp] = 0xFFFF. *)
Lemma pushed_bytes a :
  0 <= a < 65536 ->
  <[Z.to_nat 65534 := 1]> (<[Z.to_nat 65533 := 1]> d) !! Z.to_nat a
  = if decide (65533 <= a <= 65534) then Some 1 else d !! Z.to_nat a.
Proof.
  intros Ha. unfold SIZE in Hlen. case_decide as Hd.
  - destruct (decide (a = 65534)) as [-> | Hne].
    + apply list_lookup_insert_eq. rewrite length_insert. lia.
    + rewrite list_lookup_insert_ne by lia.
      replace a with 65533 by lia.
      apply list_lookup_insert_eq. lia.
  - by rewrite !list_lookup_insert_ne by lia.
Qed.

(** The first two steps run [MOV 0x0101] and [PUSH ax]; then the run
    slides over [NOP] bytes, the last two of them pushed, up to 0xFFFF. *)
Lemma top_run k :
  loop (Z.to_nat 65531 + k) (mkVM Registers_init d b m)
  = loop k (mkVM (mkRegisters 0x0101 0 0 0 0xFFFD 0xFFFF 0)
              (<[Z.to_nat 65534 := 1]> (<[Z.to_nat 65533 := 1]> d)) b m).
Proof.
  destruct Hcode as (H0 & H1 & H2 & H3 & H4 & H5).
  set (sA := mkVM (mkRegisters 0x0101 0 0 0 0xFFFF 3 0) d b m).
  set (d' := <[Z.to_nat 65534 := 1]> (<[Z.to_nat 65533 := 1]> d)).
  set (sB := mkVM (mkRegisters 0x0101 0 0 0 0xFFFD 6 0) d' b m).
  assert (wf (mkVM Registers_init d b m)) as Hs0
    by (apply wf_mkVM; [apply wf_Registers_init | done | done]).
  assert (wf sA) as HsA
    by (apply wf_mkVM; [apply wf_regs_concrete; unfold is_u16; lia | done | done]).
  assert (step (mkVM Registers_init d b m) = Ret (instr1 MOV 0x0101) sA) as EA.
  { apply step_recognized; [done | | reflexivity | reflexivity].
    unfold decoded, byte_at. cbn [r data ip Registers_init].
    rewrite H0. change (size_of MOV) with 3.
    change (to_u16 (0 + 1)) with 1. change (to_u16 (0 + 2)) with 2.
    rewrite H1, H2. reflexivity. }
  assert (step sA = Ret (instr1 PUSH 0) sB) as EB.
  { apply step_recognized; [done | | reflexivity |].
    - unfold decoded, byte_at. cbn [r data ip sA].
      rewrite H3. change (size_of PUSH) with 3.
      change (to_u16 (3 + 1)) with 4. change (to_u16 (3 + 2)) with 5.
      rewrite H4, H5. reflexivity.
    - change (set_r _ sA) with (mkVM (mkRegisters 0x0101 0 0 0 0xFFFF 6 0) d b m).
      unfold instr1. rewrite (exec_PUSH _ 0 0 (list_elem_of_here _ _)).
      rewrite push_ok.
      + reflexivity.
      + apply wf_mkVM; [apply wf_regs_concrete; unfold is_u16; lia | done | done].
      + cbn [reg r ax Z.eqb]. unfold is_u16. lia.
      + cbn [r sp]. lia. }
  replace (Z.to_nat 65531 + k)%nat with (S (S (Z.to_nat 65529 + k))) by lia.
  rewrite (loop_continue _ _ _ _ EA) by (cbn; unfold MOV, HLT; lia).
  rewrite (loop_continue _ _ _ _ EB) by (cbn; unfold PUSH, HLT; lia).
  assert (wf sB) as HsB.
  { apply wf_mkVM; [apply wf_regs_concrete; unfold is_u16; lia | |].
    - unfold d'. by rewrite !length_insert.
    - unfold d'. repeat apply Forall_insert; try done; unfold is_u8; lia. }
  rewrite (loop_NOP_sled (Z.to_nat 65529) sB k HsB).
  - reflexivity.
  - intros j Hj. unfold byte_at. cbn [r data ip sB]. unfold d'.
    rewrite pushed_bytes by lia.
    case_decide; [reflexivity |]. rewrite Hnop by lia. reflexivity.
  - cbn [r ip sB]. lia.
Qed.

(** At 0xFFFF the fetch takes the operand of [MOV] from the addresses 0
    and 1, which hold the first two bytes of the program. *)
Lemma top_fetch :
  let s := mkVM (mkRegisters 0x0101 0 0 0 0xFFFD 0xFFFF 0)
             (<[Z.to_nat 65534 := 1]> (<[Z.to_nat 65533 := 1]> d)) b m in
  fetchNextInstruction s
  = Ret (instr1 MOV 0x0108) (set_r (set_ip 2 (r s)) s).
Proof.
  destruct Hcode as (H0 & H1 & _).
  intros s.
  assert (wf s) as Hs.
  { apply wf_mkVM; [apply wf_regs_concrete; unfold is_u16; lia | |].
    - by rewrite !length_insert.
    - repeat apply Forall_insert; try done; unfold is_u8; lia. }
  assert (byte_at s 0xFFFF = MOV) as Etag.
  { unfold byte_at. cbn [data s]. rewrite pushed_bytes by lia.
    rewrite decide_False by lia. by rewrite Htop. }
  assert (byte_at s 0 = MOV) as E0.
  { unfold byte_at. cbn [data s]. rewrite pushed_bytes by lia.
    rewrite decide_False by lia. by rewrite H0. }
  assert (byte_at s 1 = 1) as E1.
  { unfold byte_at. cbn [data s]. rewrite pushed_bytes by lia.
    rewrite decide_False by lia. by rewrite H1. }
  rewrite fetch_recognized; [| done |].
  - unfold decoded. change (ip (r s)) with 0xFFFF.
    rewrite Etag. change (size_of MOV) with 3.
    change (to_u16 (0xFFFF + 1)) with 0. change (to_u16 (0xFFFF + 2)) with 1.
    change (to_u16 (0xFFFF + 3)) with 2.
    rewrite E0, E1. reflexivity.
  - change (ip (r s)) with 0xFFFF. by rewrite Etag.
Qed.

End TopRun.

Section LoadedBytes.

Lemma store_bytes_lookup_other bytes : forall cursor d j,
  is_u16 cursor ->
  cursor + Z.of_nat (length bytes) <= SIZE ->
  (j < Z.to_nat cursor \/ Z.to_nat cursor + length bytes <= j)%nat ->
  store_bytes bytes cursor d !! j = d !! j.
Proof.
  induction bytes as [| x rest IH]; intros cursor d j Hc Hfit Hj; [reflexivity |].
  cbn [store_bytes]. cbn [length] in Hfit, Hj.
  destruct rest as [| y rest'].
  - cbn [store_bytes]. apply list_lookup_insert_ne. lia.
  - assert (to_u16 (cursor + 1) = cursor + 1) as ->.
    { apply to_u16_id. cbn [length] in Hfit. unfold is_u16, SIZE in *. lia. }
    rewrite IH.
    + apply list_lookup_insert_ne. lia.
    + unfold is_u16, SIZE in *. cbn [length] in *. lia.
    + lia.
    + unfold is_u16 in Hc. lia.
Qed.

Lemma store_bytes_lookup_in bytes : forall cursor d k,
  is_u16 cursor ->
  cursor + Z.of_nat (length bytes) <= SIZE ->
  length d = Z.to_nat SIZE ->
  (k < length bytes)%nat ->
  store_bytes bytes cursor d !! (Z.to_nat cursor + k)%nat = bytes !! k.
Proof.
  induction bytes as [| x rest IH]; intros cursor d k Hc Hfit Hlen Hk;
    cbn [length] in Hk; [lia |].
  cbn [store_bytes]. cbn [length] in Hfit.
  destruct k as [| k'].
  - rewrite Nat.add_0_r.
    destruct rest as [| y rest'].
    + cbn [store_bytes]. apply list_lookup_insert_eq.
      unfold is_u16, SIZE in *. lia.
    + assert (to_u16 (cursor + 1) = cursor + 1) as E.
      { apply to_u16_id. cbn [length] in Hfit. unfold is_u16, SIZE in *. lia. }
      rewrite store_bytes_lookup_other.
      * apply list_lookup_insert_eq. unfold is_u16, SIZE in *. lia.
      * apply to_u16_range.
      * rewrite E. lia.
      * rewrite E. unfold is_u16 in Hc. lia.
  - destruct rest as [| y rest']; [cbn [length] in Hk; lia |].
    assert (to_u16 (cursor + 1) = cursor + 1) as E.
    { apply to_u16_id. cbn [length] in Hfit. unfold is_u16, SIZE in *. lia. }
    rewrite E.
    replace (Z.to_nat cursor + S k')%nat with (Z.to_nat (cursor + 1) + k')%nat
      by (unfold is_u16 in Hc; lia).
    rewrite IH.
    + reflexivity.
    + unfold is_u16, SIZE in *. cbn [length] in Hfit. lia.
    + lia.
    + by rewrite length_insert.
    + lia.
Qed.

Lemma encode_program_replicate_NOP n :
  encode_program (replicate n (instr0 NOP)) = replicate n NOP.
Proof.
  unfold encode_program. induction n as [| n IH]; [reflexivity |].
  cbn [replicate map concat]. rewrite IH. reflexivity.
Qed.

Lemma encode_top_program :
  encode_program top_program
  = [MOV; 0x01; 0x01; PUSH; 0x00; 0x00]
    ++ replicate (Z.to_nat 65527) NOP ++ [MOV_BX; 0x01; MOV].
Proof.
  unfold top_program.
  rewrite !encode_program_app, encode_program_replicate_NOP. reflexivity.
Qed.

Lemma encoded_length_top_program : encoded_length top_program = SIZE.
Proof.
  unfold top_program.
  rewrite !encoded_length_app, encoded_length_replicate.
  rewrite Z2Nat.id by lia. reflexivity.
Qed.

End LoadedBytes.

(** The program [top_program] has exactly [SIZE] bytes.  Loaded in a
    fresh machine, it runs for 65531 iterations of the loop without a halt
    or a fault and then stands at [ip] = 0xFFFF, where the fetch of [MOV]
    takes its operand, 0x0108, from the addresses 0 and 1. *)
Lemma top_program_reaches_wrapping_fetch :
  encoded_length top_program = SIZE /\
  exists s0 s,
    loadProgram top_program VM_init = Ret tt s0 /\
    (forall k, loop (Z.to_nat 65531 + k) s0 = loop k s) /\
    wf s /\ ip (r s) = 0xFFFF /\
    fetchNextInstruction s = Ret (instr1 MOV 0x0108) (set_r (set_ip 2 (r s)) s).
Proof.
  split; [exact encoded_length_top_program |].
  destruct (loadProgram_spec top_program VM_init wf_VM_init) as (m & Hm & E).
  change (r VM_init) with Registers_init in E.
  change (breakLine VM_init) with 0 in E.
  pose proof (wf_length _ wf_VM_init) as Hlen0.
  pose proof (wf_bytes _ wf_VM_init) as Hbytes0.
  assert (Z.of_nat (length (encode_program top_program)) = SIZE) as Hsize
    by (rewrite length_encode_program; exact encoded_length_top_program).
  assert (forall k, (k < Z.to_nat SIZE)%nat ->
            store_bytes (encode_program top_program) 0 (data VM_init) !! k
            = encode_program top_program !! k) as Hlook.
  { intros k Hk.
    apply (store_bytes_lookup_in (encode_program top_program) 0 (data VM_init) k).
    - unfold is_u16. lia.
    - lia.
    - exact Hlen0.
    - lia. }
  remember (store_bytes (encode_program top_program) 0 (data VM_init)) as d eqn:Ed.
  assert (length d = Z.to_nat SIZE) as Hlen
    by (subst d; by rewrite length_store_bytes).
  assert (Forall is_u8 d) as Hbytes
    by (subst d; apply Forall_store_bytes;
        [apply Forall_encode_program | done]).
  clear Ed. rewrite encode_top_program in Hlook. unfold SIZE in Hlook.
  remember (to_u16 (0 + encoded_length top_program)) as b eqn:Eb.
  assert (is_u16 b) as Hb by (subst b; apply to_u16_range). clear Eb.
  assert (forall a, 0 <= a < 6 ->
            d !! Z.to_nat a
            = [MOV; 0x01; 0x01; PUSH; 0x00; 0x00] !! Z.to_nat a) as Hlow.
  { intros a Ha. rewrite Hlook by lia.
    apply lookup_app_l. cbn [length]. lia. }
  assert (d !! Z.to_nat 0 = Some MOV /\ d !! Z.to_nat 1 = Some 0x01 /\
          d !! Z.to_nat 2 = Some 0x01 /\ d !! Z.to_nat 3 = Some PUSH /\
          d !! Z.to_nat 4 = Some 0x00 /\ d !! Z.to_nat 5 = Some 0x00) as Hcode.
  { repeat apply conj; rewrite Hlow by lia; reflexivity. }
  assert (forall a, 6 <= a < 65533 -> d !! Z.to_nat a = Some NOP) as Hnop.
  { intros a Ha. rewrite Hlook by lia.
    rewrite lookup_app_r by (cbn [length]; lia).
    rewrite lookup_app_l by (rewrite length_replicate; cbn [length]; lia).
    apply lookup_replicate_2. cbn [length]. lia. }
  assert (d !! Z.to_nat 0xFFFF = Some MOV) as Htop.
  { rewrite Hlook by lia.
    rewrite lookup_app_r by (cbn [length]; lia).
    rewrite lookup_app_r by (rewrite length_replicate; cbn [length]; lia).
    rewrite length_replicate. cbn [length].
    replace (Z.to_nat 65535 - 6 - Z.to_nat 65527)%nat with 2%nat by lia.
    reflexivity. }
  exists (mkVM Registers_init d b m).
  exists (mkVM (mkRegisters 0x0101 0 0 0 0xFFFD 0xFFFF 0)
            (<[Z.to_nat 65534 := 1]> (<[Z.to_nat 65533 := 1]> d)) b m).
  split; [exact E |].
  split; [| split; [| split]].
  - intros k. exact (top_run d b m Hlen Hbytes Hb Hm Hcode Hnop k).
  - apply wf_mkVM;
      [exact Hb | exact Hm | apply wf_regs_concrete; unfold is_u16; lia | |].
    + by rewrite !length_insert.
    + repeat apply Forall_insert; try exact Hbytes; unfold is_u8; lia.
  - reflexivity.
  - exact (top_fetch d b m Hlen Hbytes Hb Hm Hcode Htop).
Qed.

(** ** The programs of the driver *)

Section Scenarios.

Lemma halts_with_spec o p :
  halts_with o p = true -> exists s, Halted o s /\ p (r s) = true.
Proof. destruct o as [[] s | | |]; try discriminate. intros H. by exists s. Qed.

Lemma faults_with_spec o msg p :
  faults_with o msg p = true -> exists s, Faulted o msg s /\ p (r s) = true.
Proof.
  destruct o as [| msg' s | |]; try discriminate. cbn [faults_with].
  intros [Hmsg Hp]%andb_prop. apply bool_decide_eq_true in Hmsg. subst msg'.
  by exists s.
Qed.

(** [MOV 0x0011; MOV_BX 0x0009; ADD; HLT] halts with [ax] = 0x001A. *)
Example add_program_halts :
  exists s,
    Halted (runProgram 4 [instr1 MOV 0x0011; instr1 MOV_BX 0x0009;
                          instr0 ADD; instr0 HLT]) s /\
    ax (r s) = 0x001A.
Proof.
  destruct (halts_with_spec
              (runProgram 4 [instr1 MOV 0x0011; instr1 MOV_BX 0x0009;
                             instr0 ADD; instr0 HLT])
              (fun g => ax g =? 0x001A)) as (s & Hs & Hax).
  { vm_compute. reflexivity. }
  exists s. split; [exact Hs | by apply Z.eqb_eq].
Qed.

(** [MOV 0x0020; MOV_BX 0x0000; DIV; HLT] faults with "Division by zero"
    before reaching [HLT], with [ax] still 0x0020. *)
Example div_by_zero_program_faults :
  exists s,
    Faulted (runProgram 4 [instr1 MOV 0x0020; instr1 MOV_BX 0x0000;
                           instr0 DIV; instr0 HLT]) "Division by zero" s /\
    ax (r s) = 0x0020.
Proof.
  destruct (faults_with_spec
              (runProgram 4 [instr1 MOV 0x0020; instr1 MOV_BX 0x0000;
                             instr0 DIV; instr0 HLT])
              "Division by zero"
              (fun g => ax g =? 0x0020)) as (s & Hs & Hax).
  { vm_compute. reflexivity. }
  exists s. split; [exact Hs | by apply Z.eqb_eq].
Qed.

(** [MOV 0xABCD; PUSH ax; POP bx; HLT] halts with [bx] = 0xABCD and [sp]
    back at 0xFFFF. *)
Example push_pop_program_halts :
  exists s,
    Halted (runProgram 4 [instr1 MOV 0xABCD; instr1 PUSH 0x00;
                          instr1 POP 0x01; instr0 HLT]) s /\
    bx (r s) = 0xABCD /\ sp (r s) = 0xFFFF.
Proof.
  destruct (halts_with_spec
              (runProgram 4 [instr1 MOV 0xABCD; instr1 PUSH 0x00;
                             instr1 POP 0x01; instr0 HLT])
              (fun g => (bx g =? 0xABCD) && (sp g =? 0xFFFF)))
    as (s & Hs & [Hbx Hsp]%andb_prop).
  { vm_compute. reflexivity. }
  exists s. split; [exact Hs |]. split; by apply Z.eqb_eq.
Qed.

(** A fresh machine, with nothing loaded, faults at once: the byte 0 at
    address 0 is no opcode. *)
Example empty_program_faults :
  exists s, Faulted (runProgram 1 []) "Illegal Instruction" s /\ r s = r VM_init.
Proof.
  destruct (faults_with_spec (runProgram 1 []) "Illegal Instruction"
              (fun g => bool_decide (g = Registers_init))) as (s & Hs & Hr).
  { vm_compute. reflexivity. }
  exists s. split; [exact Hs | by apply bool_decide_eq_true in Hr].
Qed.

(** [MOV 0xFFFF; MOV_BX 0xFFFF; MUL; HLT]: the two moves leave [ax] and
    [bx] at 0xFFFF in a machine that is otherwise fresh but for [ip], and
    the step that follows, the one of [MUL], has no defined result. *)
Example mul_overflow_is_reached :
  exists s,
    (loadProgram mul_overflow_program ;; step ;; step ;; ret tt) VM_init
    = Ret tt s /\
    r s = set_ip 6 (r mul_overflow) /\ step s = Stuck.
Proof.
  destruct (halts_with_spec
              ((loadProgram mul_overflow_program ;; step ;; step ;; ret tt) VM_init)
              (fun g => bool_decide (g = set_ip 6 (r mul_overflow))))
    as (s & Hs & Hr).
  { vm_compute. reflexivity. }
  assert (H3 : ((loadProgram mul_overflow_program ;; step ;; step ;; ret tt) ;;
                step ;; ret tt) VM_init = Stuck).
  { vm_compute. reflexivity. }
  unfold Halted in Hs. unfold bind at 1 in H3. rewrite Hs in H3.
  exists s. split; [exact Hs |]. split; [by apply bool_decide_eq_true in Hr |].
  unfold bind in H3. destruct (step s); try discriminate. reflexivity.
Qed.

End Scenarios.

(** * Further properties of the machine *)

(** ** Faults and exceptions *)

Ltac exec_cases :=
  unfold executeInstruction; cbv zeta;
  repeat match goal with
         | |- (if ?a =? ?b then _ else _) _ = _ -> _ =>
             destruct (Z.eqb_spec a b)
         | |- bind get _ _ = _ -> _ => unfold bind at 1, get at 1
         end.

Section Faults.

Lemma push_exit v s msg s' :
  push v s = Exit msg s' -> s' = s /\ msg = "Stack Overflow".
Proof.
  unfold push, bind, get, when, handleError, modify_r, modify, Memory_write.
  destruct (sp (r s) <? 2); [by intros [= <- <-] |].
  cbn [ret]. repeat case_match; discriminate.
Qed.

Lemma pop_exit s msg s' :
  pop s = Exit msg s' -> s' = s /\ msg = "Stack Underflow".
Proof.
  unfold pop, bind, get, when, handleError, modify_r, modify, read_operand,
    bind, Memory_read.
  destruct (SIZE - 2 <? sp (r s)); [by intros [= <- <-] |].
  cbn [ret]. repeat case_match; discriminate.
Qed.

Lemma pop_into_exit (f : Z -> Registers -> Registers) s msg s' :
  (let* v := pop in modify_r (f v)) s = Exit msg s' ->
  s' = s /\ msg = "Stack Underflow".
Proof.
  unfold bind at 1. destruct (pop s) as [v s1 | msg1 s1 | |] eqn:E;
    try discriminate.
  intros [= <- <-]. by apply pop_exit.
Qed.

(** A dispatch that ends in a fault has changed nothing, and its message
    is one of the six of the source. *)
Lemma exec_exit i s msg s' :
  executeInstruction i s = Exit msg s' -> s' = s /\ msg ∈ fault_messages.
Proof.
  unfold fault_messages. exec_cases;
    try discriminate;
    try (intros E; by destruct (arith_not_Exit _ _ _ _ E));
    try (intros [= <- <-]; split; [done | set_solver]);
    try (intros [-> ->]%push_exit; split; [done | set_solver]);
    try (intros [-> ->]%pop_into_exit; split; [done | set_solver]).
  unfold bind, when, handleError, ret.
  destruct (bx (r s) =? 0);
    [| intros E; by destruct (arith_not_Exit _ _ _ _ E)].
  intros [= <- <-]. split; [done | set_solver].
Qed.

(** The [default] label is not reached with a recognized tag. *)
Lemma exec_exit_recognized i s msg s' :
  recognized (op i) = true ->
  executeInstruction i s = Exit msg s' -> msg <> "Illegal Instruction".
Proof.
  intros Hrec. exec_cases;
    try discriminate;
    try (intros E; by destruct (arith_not_Exit _ _ _ _ E));
    try (intros [= <- <-]; discriminate);
    try (intros [-> ->]%push_exit; discriminate);
    try (intros [-> ->]%pop_into_exit; discriminate).
  - unfold bind, when, handleError, ret.
    destruct (bx (r s) =? 0);
      [| intros E; by destruct (arith_not_Exit _ _ _ _ E)].
    intros [= <- <-]. discriminate.
  - exfalso. apply recognized_elem in Hrec. unfold opcodes in Hrec.
    repeat (apply elem_of_cons in Hrec as [Hrec | Hrec]; [congruence |]).
    by apply elem_of_nil in Hrec.
Qed.

Lemma push_no_throw v s e s' : wf s -> push v s <> Throw e s'.
Proof.
  intros Hs. unfold push, bind, get, when, handleError.
  destruct (sp (r s) <? 2); [discriminate |].
  cbn [ret modify_r modify].
  set (s1 := set_r _ s).
  assert (wf s1) as Hs1.
  { apply wf_set_r; [done |].
    apply (wf_Registers_set _ _ (wf_r _ Hs) (to_u16_range _)). }
  rewrite Memory_write_ok by done.
  rewrite Memory_write_ok by (apply wf_set_data; [done | apply to_u8_range]).
  discriminate.
Qed.

Lemma pop_no_throw s e s' : wf s -> pop s <> Throw e s'.
Proof.
  intros Hs. destruct (pop_cases s Hs) as [-> | (v & _ & ->)]; discriminate.
Qed.

Lemma pop_into_no_throw (f : Z -> Registers -> Registers) s e s' :
  wf s -> (let* v := pop in modify_r (f v)) s <> Throw e s'.
Proof.
  intros Hs. unfold bind.
  destruct (pop_cases s Hs) as [-> | (v & _ & ->)]; discriminate.
Qed.

(** In a well-formed machine no dispatch lets an exception escape. *)
Lemma exec_no_throw i s e s' : wf s -> executeInstruction i s <> Throw e s'.
Proof.
  intros Hs. unfold not. exec_cases;
    try discriminate;
    try (by apply arith_not_Throw);
    try (by apply push_no_throw);
    try (by apply pop_into_no_throw).
  unfold bind, when, handleError, ret.
  destruct (bx (r s) =? 0); [discriminate | by apply arith_not_Throw].
Qed.

End Faults.

Section RunInvariant.

Lemma wf_fetched s m :
  wf s -> sizeMap_ok m ->
  wf (set_r (set_ip (to_u16 (ip (r s) + size_of (byte_at s (ip (r s))))) (r s))
        (set_sizeMap m s)).
Proof.
  intros Hs Hm. apply wf_set_r; [by apply wf_set_sizeMap |].
  apply (wf_Registers_set _ _ (wf_r _ Hs) (to_u16_range _)).
Qed.

Lemma step_outcome s : wf s -> wf_outcome (step s).
Proof.
  intros Hs. unfold step, bind.
  destruct (fetch_ok s Hs) as (m & Hm & _ & ->).
  pose proof (wf_fetched s m Hs Hm) as Hs1.
  set (s1 := set_r _ _) in *.
  destruct (executeInstruction (decoded s) s1) as [[] s2 | msg s2 | e s2 |] eqn:E;
    cbn [wf_outcome ret].
  - apply (wf_executeInstruction (decoded s) s1); [done | | done].
    by apply decoded_operand_u16.
  - apply exec_exit in E as [-> Hmsg]. done.
  - by apply exec_no_throw in E.
  - done.
Qed.

Lemma loop_outcome n : forall s, wf s -> wf_outcome (loop n s).
Proof.
  induction n as [| n IH]; intros s Hs; [done |].
  cbn [loop]. unfold bind.
  pose proof (step_outcome s Hs) as Hstep.
  destruct (step s) as [i s1 | msg s1 | e s1 |]; cbn [wf_outcome] in *; try done.
  destruct (op i =? HLT); [done | by apply IH].
Qed.


End RunInvariant.

Section Checks.

Lemma is_exit_spec {A} (o : outcome A) msg :
  is_exit o msg = true -> exists s', o = Exit msg s'.
Proof.
  destruct o as [| m s' | |]; try discriminate. cbn [is_exit].
  intros ->%bool_decide_eq_true. by exists s'.
Qed.

Lemma is_ret_spec {A} (o : outcome A) :
  is_ret o = true -> exists a s', o = Ret a s'.
Proof. destruct o as [a s' | | |]; try discriminate. intros _. by exists a, s'. Qed.

(** [VM_with] is well-formed when the bytes are bytes; the side condition
    is a computation on the list. *)
Lemma wf_VM_with bytes :
  Is_true (forallb (fun b => (0 <=? b) && (b <? 256)) bytes) -> wf (VM_with bytes).
Proof.
  intros Hb. unfold VM_with.
  assert (Forall is_u8 bytes) as HF.
  { apply Forall_forall. intros b Hin.
    apply Is_true_true in Hb. rewrite forallb_forall in Hb.
    specialize (Hb b (proj1 (list_elem_of_In _ _) Hin)).
    apply andb_prop in Hb as [H1 H2]. unfold is_u8. lia. }
  destruct wf_VM_init as [Hr Hl Hby Hbl Hm]. split; cbn [r data breakLine sizeMap set_data].
  - exact Hr.
  - by rewrite length_store_bytes.
  - by apply Forall_store_bytes.
  - exact Hbl.
  - exact Hm.
Qed.

End Checks.

(** X1: in a well-formed machine a step that ends in a fault has changed
    nothing but [ip], which the fetch has advanced by the size that the
    tag at [ip] has in the size table: the other registers and the memory
    are those before the step, and the message is one of the six that the
    source passes to [handleError].  For a recognized tag the size is 1 or
    3, so [ip] stands right behind the instruction, and the message is not
    "Illegal Instruction".  For a tag that is not recognized the size is
    0: the message is "Illegal Instruction" and [ip] has not moved, so
    every register is as before the step. *)
Theorem X1_faulting_step_changes_only_ip (s s' : VM) (msg : string) :
  wf s -> step s = Exit msg s' ->
  let tag := byte_at s (ip (r s)) in
  msg ∈ fault_messages /\
  r s' = set_ip (to_u16 (ip (r s) + size_of tag)) (r s) /\
  data s' = data s /\ breakLine s' = breakLine s /\
  (recognized tag = true ->
   (size_of tag = 1 \/ size_of tag = 3) /\ msg <> "Illegal Instruction") /\
  (recognized tag = false -> msg = "Illegal Instruction" /\ r s' = r s).
Proof.
  intros Hs Hstep tag. revert Hstep. unfold step, bind.
  destruct (fetch_ok s Hs) as (m & Hm & _ & ->). fold tag.
  destruct (executeInstruction _ _) as [[] s2 | msg2 s2 | e s2 |] eqn:E;
    try discriminate.
  intros [= -> ->]. pose proof E as E0.
  apply exec_exit in E as [-> Hmsg].
  split; [exact Hmsg |]. split; [reflexivity |].
  split; [reflexivity |]. split; [reflexivity |]. split.
  - intros Hrec. split; [by apply size_of_recognized |].
    exact (exec_exit_recognized (decoded s) _ _ _ Hrec E0).
  - intros Hrec.
    rewrite (exec_unrecognized (decoded s) _ Hrec) in E0.
    injection E0 as <-. split; [reflexivity |].
    cbn [r set_r set_sizeMap]. rewrite (size_of_unrecognized _ Hrec), Z.add_0_r.
    rewrite (to_u16_id _ (wf_ip _ (wf_r _ Hs))). by destruct (r s).
Qed.

Lemma X1_faulting_step_changes_only_ip_witness :
  (let s := VM_with [DIV] in
   exists s',
     step s = Exit "Division by zero" s' /\
     r s' = set_ip (to_u16 (ip (r s) + size_of (byte_at s (ip (r s))))) (r s) /\
     data s' = data s /\ breakLine s' = breakLine s /\
     size_of (byte_at s (ip (r s))) = 1) /\
  (exists s',
     step VM_init = Exit "Illegal Instruction" s' /\
     r s' = r VM_init /\ data s' = data VM_init).
Proof.
  split.
  - intros s.
    destruct (is_exit_spec (step s) "Division by zero") as [s' E];
      [vm_compute; reflexivity |].
    exists s'. split; [exact E |].
    destruct (X1_faulting_step_changes_only_ip s s' _ (wf_VM_with [DIV] I) E)
      as (_ & Hr & Hd & Hb & Hrec & _).
    split; [exact Hr |]. split; [exact Hd |]. split; [exact Hb |].
    reflexivity.
  - destruct (is_exit_spec (step VM_init) "Illegal Instruction") as [s' E];
      [vm_compute; reflexivity |].
    exists s'. split; [exact E |].
    destruct (X1_faulting_step_changes_only_ip VM_init s' _ wf_VM_init E)
      as (_ & _ & Hd & _ & _ & Hun).
    split; [apply Hun; reflexivity | exact Hd].
Defined.

(** X2: [PUSH] and [POP] with a register selector other than 0, 1, 2, 3
    end in the fault "Invalid register for PUSH" and "Invalid register for
    POP"; the stack is not touched and the machine is as it was, whatever
    [sp] is. *)
Theorem X2_invalid_selector_faults (s : VM) (k y : Z) :
  k ∉ [0; 1; 2; 3] ->
  executeInstruction (mkInstruction PUSH k y) s
  = Exit "Invalid register for PUSH" s /\
  executeInstruction (mkInstruction POP k y) s
  = Exit "Invalid register for POP" s.
Proof.
  intros Hk. repeat (apply not_elem_of_cons in Hk as [? Hk]).
  split.
  - change (executeInstruction (mkInstruction PUSH k y) s)
      with ((if k =? 0 then push (ax (r s))
             else if k =? 1 then push (bx (r s))
             else if k =? 2 then push (cx (r s))
             else if k =? 3 then push (dx (r s))
             else handleError "Invalid register for PUSH" true) s).
    repeat match goal with
           | H : k <> ?c |- _ => rewrite (proj2 (Z.eqb_neq k c) H); clear H
           end.
    reflexivity.
  - change (executeInstruction (mkInstruction POP k y) s)
      with ((if k =? 0 then let* v := pop in modify_r (set_ax v)
             else if k =? 1 then let* v := pop in modify_r (set_bx v)
             else if k =? 2 then let* v := pop in modify_r (set_cx v)
             else if k =? 3 then let* v := pop in modify_r (set_dx v)
             else handleError "Invalid register for POP" true) s).
    repeat match goal with
           | H : k <> ?c |- _ => rewrite (proj2 (Z.eqb_neq k c) H); clear H
           end.
    reflexivity.
Qed.

Lemma X2_invalid_selector_faults_witness :
  executeInstruction (mkInstruction PUSH 4 0) VM_init
  = Exit "Invalid register for PUSH" VM_init /\
  executeInstruction (mkInstruction POP 4 0) VM_init
  = Exit "Invalid register for POP" VM_init.
Proof.
  apply (X2_invalid_selector_faults VM_init 4 0).
  intros H. repeat (apply elem_of_cons in H as [H | H]; [discriminate |]).
  by apply elem_of_nil in H.
Defined.

(** X3: from a well-formed machine no run lets the exception of
    [data.at] escape, with any number of iterations: the [catch] clause of
    [execute] never runs, and a run that ends in a fault reports one of
    the six messages of the source, never the text of an exception. *)
Theorem X3_run_never_throws (s : VM) (n : nat) :
  wf s ->
  (forall e s', loop n s <> Throw e s') /\
  execute n s = loop n s /\
  (forall msg s', execute n s = Exit msg s' -> msg ∈ fault_messages).
Proof.
  intros Hs. pose proof (loop_outcome n s Hs) as Ho.
  unfold execute.
  destruct (loop n s) as [a s1 | msg s1 | e s1 |]; cbn [wf_outcome] in Ho;
    [| | done |].
  - repeat split; [discriminate | discriminate].
  - repeat split; [discriminate |]. intros msg' s' [= <- _]. apply Ho.
  - repeat split; [discriminate | discriminate].
Qed.

Lemma X3_run_never_throws_witness :
  (forall e s', loop 3 VM_init <> Throw e s') /\
  execute 3 VM_init = loop 3 VM_init /\
  (forall msg s', execute 3 VM_init = Exit msg s' -> msg ∈ fault_messages).
Proof. exact (X3_run_never_throws VM_init 3 wf_VM_init). Defined.

(** X4: well-formedness is kept by loading and by running.  From a
    well-formed machine, the machine that [loadProgram] leaves, the machine
    in which [execute] returns, and the machine at a fault all have 16-bit
    registers and a memory of 65536 bytes. *)
Theorem X4_load_and_run_keep_wf (s : VM) (prog : list Instruction) (n : nat) :
  wf s ->
  exists s1,
    loadProgram prog s = Ret tt s1 /\ wf s1 /\
    (forall s', execute n s1 = Ret tt s' -> wf s') /\
    (forall msg s', execute n s1 = Exit msg s' -> wf s').
Proof.
  intros Hs. destruct (loadProgram_spec prog s Hs) as (m & Hm & E).
  eexists. split; [exact E |].
  assert (wf (mkVM (r s)
                (store_bytes (encode_program prog) (breakLine s) (data s))
                (to_u16 (breakLine s + encoded_length prog)) m)) as Hs1
    by (apply wf_loaded; [done | apply Forall_encode_program | done]).
  split; [exact Hs1 |].
  set (s1 := mkVM _ _ _ _) in *.
  pose proof (loop_outcome n s1 Hs1) as Ho. unfold execute.
  destruct (loop n s1) as [a s2 | msg s2 | e s2 |]; cbn [wf_outcome] in Ho;
    [| | done |].
  - split; [by intros s' [= _ <-] | discriminate].
  - split; [discriminate | intros msg' s' [= _ <-]; apply Ho].
  - split; discriminate.
Qed.

Lemma X4_load_and_run_keep_wf_witness :
  exists s1,
    loadProgram [instr1 MOV 7; instr0 HLT] VM_init = Ret tt s1 /\ wf s1 /\
    (forall s', execute 2 s1 = Ret tt s' -> wf s') /\
    (forall msg s', execute 2 s1 = Exit msg s' -> wf s').
Proof.
  exact (X4_load_and_run_keep_wf VM_init [instr1 MOV 7; instr0 HLT] 2 wf_VM_init).
Defined.

(** ** Control flow *)

Section ControlFlow.

Lemma push_ret_frame v s s' :
  push v s = Ret tt s' ->
  ip (r s') = ip (r s) /\ flags (r s') = flags (r s) /\
  breakLine s' = breakLine s /\ sizeMap s' = sizeMap s /\
  length (data s') = length (data s).
Proof.
  unfold push, bind, get, when, handleError, modify_r, modify, Memory_write.
  destruct (sp (r s) <? 2); [discriminate |].
  cbn [ret]. repeat case_match; try discriminate.
  intros [= <-]. simplify_eq. cbn. by rewrite !length_insert.
Qed.

Lemma pop_ret_frame s s' v :
  pop s = Ret v s' -> s' = set_r (set_sp (to_u16 (sp (r s) + 2)) (r s)) s.
Proof.
  unfold pop, bind, get, when, handleError, modify_r, modify, read_operand,
    bind, Memory_read.
  destruct (SIZE - 2 <? sp (r s)); [discriminate |].
  cbn [ret]. repeat case_match; try discriminate.
  intros [= _ <-]. unfold ret in *. by simplify_eq.
Qed.

Lemma pop_into_ret_frame (f : Z -> Registers -> Registers) s s' :
  (forall v g, ip (f v g) = ip g /\ flags (f v g) = flags g) ->
  (let* v := pop in modify_r (f v)) s = Ret tt s' ->
  ip (r s') = ip (r s) /\ flags (r s') = flags (r s) /\
  breakLine s' = breakLine s /\ sizeMap s' = sizeMap s /\
  data s' = data s.
Proof.
  intros Hf. unfold bind at 1.
  destruct (pop s) as [v s1 | | |] eqn:E; try discriminate.
  apply pop_ret_frame in E as ->. intros [= <-]. cbn.
  destruct (Hf v (set_sp (to_u16 (sp (r s) + 2)) (r s))) as [-> ->]. done.
Qed.

(** No instruction writes [ip], the loader's cursor or the size table;
    only [PUSH] writes the memory, and it keeps its length; only the flag
    instructions write the flag word. *)
Lemma exec_frame i s s' :
  executeInstruction i s = Ret tt s' ->
  ip (r s') = ip (r s) /\ breakLine s' = breakLine s /\
  sizeMap s' = sizeMap s /\ length (data s') = length (data s) /\
  (op i <> PUSH -> data s' = data s) /\
  (op i ∉ [STE; CLE; STG; CLG; STH; CLH; STL; CLL] ->
   flags (r s') = flags (r s)).
Proof.
  exec_cases;
    try (intros [= <-]; cbn; repeat split; try done; intros H; exfalso;
         apply H; rewrite e; set_solver);
    try (intros (? & ? & ? & ? & ?)%push_ret_frame; by repeat split);
    try (intros (? & ? & ? & ? & Hd)%pop_into_ret_frame;
         [repeat split; try done; by rewrite Hd | done]);
    try (intros ->%arith_Ret; by repeat split);
    try discriminate.
  unfold bind, when, handleError, ret.
  destruct (bx (r s) =? 0); [discriminate |].
  intros ->%arith_Ret. by repeat split.
Qed.

Lemma HLT_recognized : recognized HLT = true.
Proof. reflexivity. Qed.

End ControlFlow.

(** X5: the machine has no jump.  In a well-formed machine a step that
    returns has run the instruction decoded at [ip] and left [ip] at the
    old [ip] plus the size of the tag it met there, modulo 2^16; no
    instruction writes [ip], and only [PUSH] can change the memory. *)
Theorem X5_step_is_sequential (s s' : VM) (i : Instruction) :
  wf s -> step s = Ret i s' ->
  i = decoded s /\
  ip (r s') = (ip (r s) + size_of (op i)) mod 2 ^ 16 /\
  breakLine s' = breakLine s /\
  (op i <> PUSH -> data s' = data s).
Proof.
  intros Hs. unfold step, bind.
  destruct (fetch_ok s Hs) as (m & Hm & _ & ->).
  destruct (executeInstruction _ _) as [[] s2 | | |] eqn:E; try discriminate.
  intros [= <- <-].
  apply exec_frame in E as (Hip & Hbl & _ & _ & Hd & _).
  split; [reflexivity |]. split; [| split].
  - rewrite Hip. reflexivity.
  - rewrite Hbl. reflexivity.
  - intros Hop. rewrite (Hd Hop). reflexivity.
Qed.

Lemma X5_step_is_sequential_witness :
  let s := VM_with [MOV_BX; 0x34; 0x12] in
  exists i s',
    step s = Ret i s' /\
    i = decoded s /\
    ip (r s') = (ip (r s) + size_of (op i)) mod 2 ^ 16 /\
    breakLine s' = breakLine s /\
    (op i <> PUSH -> data s' = data s).
Proof.
  intros s.
  destruct (is_ret_spec (step s)) as (i & s' & E); [vm_compute; reflexivity |].
  exists i, s'. split; [exact E |].
  exact (X5_step_is_sequential s s' i (wf_VM_with [MOV_BX; 0x34; 0x12] I) E).
Defined.

(** X6: a run stops at [HLT] and only there.  If the byte at [ip] is the
    tag of [HLT], [execute] returns after one iteration with [ip] moved by
    one and nothing else changed; and whenever [execute] returns, the byte
    just before the final [ip] is the tag of [HLT]. *)
Theorem X6_run_returns_exactly_at_HLT (s : VM) (n : nat) :
  wf s ->
  (byte_at s (ip (r s)) = HLT ->
   execute (S n) s
   = Ret tt (set_r (set_ip ((ip (r s) + 1) mod 2 ^ 16) (r s)) s)) /\
  (forall s', execute n s = Ret tt s' ->
     byte_at s' ((ip (r s') - 1) mod 2 ^ 16) = HLT).
Proof.
  intros Hs. split.
  - intros Htag.
    assert (step s = Ret (decoded s)
                       (set_r (set_ip (to_u16 (ip (r s) + 1)) (r s)) s)) as E.
    { apply step_recognized; [done | done | | ].
      - unfold decoded. cbn [op]. by rewrite Htag.
      - unfold decoded. cbn [op]. rewrite Htag. reflexivity. }
    unfold execute. cbn [loop]. unfold bind. rewrite E.
    unfold decoded. cbn [op]. rewrite Htag. reflexivity.
  - revert s Hs. induction n as [| n IH]; intros s Hs s'.
    + discriminate.
    + unfold execute. cbn [loop]. unfold bind.
      pose proof (step_outcome s Hs) as Hw.
      destruct (step s) as [i s1 | msg s1 | e s1 |] eqn:E; cbn [wf_outcome] in Hw;
        try discriminate.
      destruct (Z.eqb_spec (op i) HLT) as [Hop | Hop].
      * intros [= <-].
        pose proof E as E'. unfold step, bind in E'.
        destruct (fetch_ok s Hs) as (m & Hm & _ & Hf). rewrite Hf in E'.
        destruct (executeInstruction _ _) as [[] s2 | | |] eqn:Ex;
          try discriminate.
        injection E' as <- <-.
        cbn [op decoded] in Hop.
        apply exec_frame in Ex as (Hip & _ & _ & _ & Hd & _).
        unfold byte_at. rewrite Hd by (cbn [op decoded]; rewrite Hop; done).
        rewrite Hip. cbn [r set_r ip set_ip data set_sizeMap].
        rewrite Hop. change (size_of HLT) with 1.
        pose proof (wf_ip _ (wf_r _ Hs)) as Hip16.
        replace ((to_u16 (ip (r s) + 1) - 1) mod 2 ^ 16) with (ip (r s))
          by u16_lia.
        exact Hop.
      * intros Hrun. apply (IH s1 Hw s'). unfold execute.
        destruct (loop n s1); try done; discriminate.
Qed.

Lemma X6_run_returns_exactly_at_HLT_witness :
  let s := VM_with [NOP; HLT] in
  (byte_at s (ip (r s)) = HLT ->
   execute 3 s = Ret tt (set_r (set_ip ((ip (r s) + 1) mod 2 ^ 16) (r s)) s)) /\
  (forall s', execute 2 s = Ret tt s' ->
     byte_at s' ((ip (r s') - 1) mod 2 ^ 16) = HLT).
Proof.
  exact (X6_run_returns_exactly_at_HLT (VM_with [NOP; HLT]) 2
           (wf_VM_with [NOP; HLT] I)).
Defined.

(** ** The stack as a whole *)

Section StackDiscipline.

Lemma bind_assoc {A B C} (c : M A) (f : A -> M B) (g : B -> M C) s :
  bind (bind c f) g s = bind c (fun x => bind (f x) g) s.
Proof. unfold bind. by destruct (c s). Qed.

Lemma bind_ret_eq {A B} (c : M A) (k : A -> M B) s a s1 :
  c s = Ret a s1 -> bind c k s = k a s1.
Proof. intros E. unfold bind. by rewrite E. Qed.

(** Popping one more value: the first [n] values, then the next. *)
Lemma pop_n_snoc n : forall s,
  pop_n (S n) s
  = (let* l := pop_n n in let* v := pop in ret (l ++ [v])) s.
Proof.
  induction n as [| n IH]; intros s.
  - cbn [pop_n]. unfold bind, ret. by destruct (pop s).
  - cbn [pop_n] in *. unfold bind, ret in *.
    destruct (pop s) as [v s1 | | |]; try reflexivity.
    rewrite IH.
    destruct (pop_n n s1) as [l s2 | | |]; try reflexivity.
    destruct (pop s2); reflexivity.
Qed.

Lemma pushed_sp_bytes s v a :
  wf s -> 2 <= sp (r s) -> sp (r s) <= a -> byte_at (pushed v s) a = byte_at s a.
Proof.
  intros Hs Hsp Ha. apply byte_at_pushed_other; lia.
Qed.

(** Values pushed one after the other come back in reverse order, and
    the registers and the memory from the old [sp] upwards are restored. *)
Lemma push_all_pop_n vals : forall s,
  wf s -> Forall is_u16 vals -> 2 * Z.of_nat (length vals) <= sp (r s) ->
  exists s',
    (push_all vals ;; pop_n (length vals)) s = Ret (rev vals) s' /\
    wf s' /\ r s' = r s /\
    (forall a, sp (r s) <= a -> byte_at s' a = byte_at s a).
Proof.
  induction vals as [| v rest IH]; intros s Hs Hvals Hsp.
  - exists s. split; [reflexivity |]. split; [exact Hs |].
    split; [reflexivity | done].
  - inversion Hvals as [| ? ? Hv Hrest]; subst.
    cbn [length] in Hsp.
    pose proof (wf_sp _ (wf_r _ Hs)) as Hsp16. unfold is_u16 in Hsp16.
    assert (2 <= sp (r s)) as Hsp2 by lia.
    pose proof (wf_pushed s v Hs Hv Hsp2) as Hs1.
    destruct (IH (pushed v s) Hs1 Hrest) as (s2 & E2 & Hs2 & Hr2 & Hb2).
    { rewrite sp_pushed. lia. }
    assert (sp (r s2) = sp (r s) - 2) as Hsp_s2 by (by rewrite Hr2).
    exists (set_r (set_sp (to_u16 (sp (r s2) + 2)) (r s2)) s2).
    split; [| split; [| split]].
    + cbn [push_all length]. rewrite bind_assoc.
      rewrite (bind_ret_eq _ _ _ _ _ (push_ok s v Hs Hv Hsp2)).
      unfold bind at 1.
      destruct (push_all rest (pushed v s)) as [[] s1' | | |] eqn:Epush;
        unfold bind at 1 in E2; rewrite Epush in E2; try discriminate.
      rewrite pop_n_snoc. rewrite (bind_ret_eq _ _ _ _ _ E2).
      rewrite (bind_ret_eq _ _ _ _ _ (pop_ok s2 Hs2 ltac:(unfold SIZE; lia))).
      unfold ret. cbn [rev]. f_equal. f_equal. f_equal.
      rewrite Hsp_s2.
      rewrite !Hb2 by (rewrite sp_pushed; lia).
      rewrite byte_at_pushed_low by done.
      replace (sp (r s) - 2 + 1) with (sp (r s) - 1) by lia.
      rewrite byte_at_pushed_high by done.
      apply combine_split.
    + apply wf_set_r; [done |].
      apply (wf_Registers_set _ _ (wf_r _ Hs2) (to_u16_range _)).
    + cbn [r set_r]. rewrite Hsp_s2, Hr2.
      replace (sp (r s) - 2 + 2) with (sp (r s)) by lia.
      rewrite to_u16_id by done.
      cbn [pushed r set_r set_data]. by destruct (r s).
    + intros a Ha. change (byte_at (set_r _ s2) a) with (byte_at s2 a).
      rewrite Hb2 by (rewrite sp_pushed; lia).
      by apply pushed_sp_bytes.
Qed.

(** As many pushes succeed as pairs of bytes lie below [sp]. *)
Lemma push_all_ok vals : forall s,
  wf s -> Forall is_u16 vals -> 2 * Z.of_nat (length vals) <= sp (r s) ->
  exists s', push_all vals s = Ret tt s' /\ wf s' /\
    sp (r s') = sp (r s) - 2 * Z.of_nat (length vals).
Proof.
  induction vals as [| v rest IH]; intros s Hs Hvals Hsp.
  - exists s. cbn [length]. split; [reflexivity |]. split; [exact Hs | lia].
  - inversion Hvals as [| ? ? Hv Hrest]; subst. cbn [length] in Hsp.
    assert (2 <= sp (r s)) as Hsp2 by lia.
    destruct (IH (pushed v s) (wf_pushed s v Hs Hv Hsp2) Hrest)
      as (s' & E & Hs' & Hsp').
    { rewrite sp_pushed. lia. }
    exists s'. cbn [push_all].
    rewrite (bind_ret_eq _ _ _ _ _ (push_ok s v Hs Hv Hsp2)).
    split; [exact E |]. split; [exact Hs' |].
    rewrite Hsp', sp_pushed. cbn [length]. lia.
Qed.

Lemma push_all_overflow vals : forall s,
  wf s -> Forall is_u16 vals -> sp (r s) < 2 * Z.of_nat (length vals) ->
  exists s', push_all vals s = Exit "Stack Overflow" s' /\ sp (r s') < 2.
Proof.
  induction vals as [| v rest IH]; intros s Hs Hvals Hsp.
  - cbn [length] in Hsp. pose proof (wf_sp _ (wf_r _ Hs)) as H.
    unfold is_u16 in H. lia.
  - inversion Hvals as [| ? ? Hv Hrest]; subst. cbn [length] in Hsp.
    destruct (Z.lt_ge_cases (sp (r s)) 2) as [Hlt | Hge].
    + exists s. cbn [push_all]. unfold bind.
      rewrite push_overflow by done. done.
    + destruct (IH (pushed v s) (wf_pushed s v Hs Hv Hge) Hrest)
        as (s' & E & Hsp').
      { rewrite sp_pushed. lia. }
      exists s'. cbn [push_all].
      rewrite (bind_ret_eq _ _ _ _ _ (push_ok s v Hs Hv Hge)). done.
Qed.

End StackDiscipline.

(** X7: [pop] followed by [push] of the popped value.  With [sp] at most
    65533 the two calls return and the machine, memory included, is
    exactly as before the pop.  With [sp] = 65534 the pop returns and
    leaves [sp] = 0, so the push that follows ends in "Stack Overflow":
    at the top of the memory pop and push are not inverse. *)
Theorem X7_pop_then_push (s : VM) :
  wf s ->
  (sp (r s) <= 65533 ->
     exists v s1, pop s = Ret v s1 /\ push v s1 = Ret tt s) /\
  (sp (r s) = 65534 ->
     exists v s1, pop s = Ret v s1 /\ sp (r s1) = 0 /\
       push v s1 = Exit "Stack Overflow" s1).
Proof.
  intros Hs.
  pose proof (wf_sp _ (wf_r _ Hs)) as Hsp16. unfold is_u16 in Hsp16.
  pose proof (wf_length _ Hs) as Hlen. unfold SIZE in Hlen.
  split; intros Hsp.
  - destruct (lookup_byte s (sp (r s)) Hs) as [Hlo Hlo8]; [unfold is_u16; lia |].
    destruct (lookup_byte s (sp (r s) + 1) Hs) as [Hhi Hhi8];
      [unfold is_u16; lia |].
    set (lo := byte_at s (sp (r s))) in *.
    set (hi := byte_at s (sp (r s) + 1)) in *.
    set (s1 := set_r (set_sp (to_u16 (sp (r s) + 2)) (r s)) s).
    exists (lo + 256 * hi), s1.
    split; [apply pop_ok; [done | unfold SIZE; lia] |].
    assert (sp (r s1) = sp (r s) + 2) as Hsp1
      by (cbn [s1 r set_r sp set_sp]; apply to_u16_id; unfold is_u16; lia).
    rewrite push_ok.
    + f_equal. unfold pushed. rewrite Hsp1. cbn [s1 data set_r r].
      replace (sp (r s) + 2 - 1) with (sp (r s) + 1) by lia.
      replace (sp (r s) + 2 - 2) with (sp (r s)) by lia.
      unfold is_u8 in *.
      replace ((lo + 256 * hi) mod 256) with lo by (Z.div_mod_to_equations; lia).
      replace ((lo + 256 * hi) / 256) with hi by (Z.div_mod_to_equations; lia).
      rewrite (list_insert_id (data s) _ lo) by exact Hlo.
      rewrite (list_insert_id (data s) _ hi) by exact Hhi.
      destruct s as [[] ? ? ?]. reflexivity.
    + apply wf_set_r; [done |].
      apply (wf_Registers_set _ _ (wf_r _ Hs) (to_u16_range _)).
    + unfold is_u8, is_u16 in *. lia.
    + lia.
  - set (s1 := set_r (set_sp (to_u16 (sp (r s) + 2)) (r s)) s).
    exists (byte_at s (sp (r s)) + 256 * byte_at s (sp (r s) + 1)), s1.
    assert (sp (r s1) = 0) as Hsp1
      by (cbn [s1 r set_r sp set_sp]; rewrite Hsp; reflexivity).
    split; [apply pop_ok; [done | unfold SIZE; lia] |].
    split; [exact Hsp1 |].
    apply push_overflow. lia.
Qed.

Lemma X7_pop_then_push_witness :
  let s := set_r (set_sp 65534 Registers_init) VM_init in
  (sp (r s) <= 65533 ->
     exists v s1, pop s = Ret v s1 /\ push v s1 = Ret tt s) /\
  (sp (r s) = 65534 ->
     exists v s1, pop s = Ret v s1 /\ sp (r s1) = 0 /\
       push v s1 = Exit "Stack Overflow" s1).
Proof.
  apply X7_pop_then_push.
  apply wf_set_r; [exact wf_VM_init |].
  split; simpl; unfold is_u16; lia.
Defined.

(** X8: the stack is last in, first out.  When [sp] leaves room for all
    of them, pushing 16-bit values one after the other and popping as many
    returns them in reverse order, restores every register, [sp] included,
    and leaves the memory from the old [sp] upwards as it was. *)
Theorem X8_stack_is_lifo (s : VM) (vals : list Z) :
  wf s -> Forall is_u16 vals -> 2 * Z.of_nat (length vals) <= sp (r s) ->
  exists s',
    (push_all vals ;; pop_n (length vals)) s = Ret (rev vals) s' /\
    r s' = r s /\
    (forall a, sp (r s) <= a -> byte_at s' a = byte_at s a).
Proof.
  intros Hs Hvals Hsp.
  destruct (push_all_pop_n vals s Hs Hvals Hsp) as (s' & E & _ & Hr & Hb).
  by exists s'.
Qed.

Lemma X8_stack_is_lifo_witness :
  exists s',
    (push_all [0x1111; 0x2222; 0x3333] ;; pop_n 3) VM_init
    = Ret [0x3333; 0x2222; 0x1111] s' /\
    r s' = r VM_init /\
    (forall a, sp (r VM_init) <= a -> byte_at s' a = byte_at VM_init a).
Proof.
  apply (X8_stack_is_lifo VM_init [0x1111; 0x2222; 0x3333] wf_VM_init).
  - repeat constructor; unfold is_u16; lia.
  - cbn. lia.
Defined.

(** X9: the depth of the stack.  A sequence of pushes of 16-bit values
    succeeds, lowering [sp] by 2 per value, exactly when twice its length
    is at most [sp]; a longer one ends in "Stack Overflow" with [sp] below
    2.  So a fresh machine, whose [sp] is 0xFFFF, takes 32767 pushes and
    faults on the next one. *)
Theorem X9_stack_depth (s : VM) (vals : list Z) :
  wf s -> Forall is_u16 vals ->
  (2 * Z.of_nat (length vals) <= sp (r s) ->
     exists s', push_all vals s = Ret tt s' /\
       sp (r s') = sp (r s) - 2 * Z.of_nat (length vals)) /\
  (sp (r s) < 2 * Z.of_nat (length vals) ->
     exists s', push_all vals s = Exit "Stack Overflow" s' /\ sp (r s') < 2).
Proof.
  intros Hs Hvals. split; intros Hsp.
  - destruct (push_all_ok vals s Hs Hvals Hsp) as (s' & E & _ & Hsp').
    by exists s'.
  - by apply push_all_overflow.
Qed.

Lemma X9_stack_depth_witness :
  (exists s', push_all (replicate (Z.to_nat 32767) 0xABCD) VM_init = Ret tt s' /\
     sp (r s') = 1) /\
  (exists s', push_all (replicate (Z.to_nat 32768) 0xABCD) VM_init
              = Exit "Stack Overflow" s' /\ sp (r s') < 2).
Proof.
  assert (forall n, Forall is_u16 (replicate n 0xABCD)) as HF
    by (intros n; apply Forall_replicate; unfold is_u16; lia).
  split.
  - destruct (proj1 (X9_stack_depth VM_init (replicate (Z.to_nat 32767) 0xABCD)
                       wf_VM_init (HF _)))
      as (s' & E & Hsp).
    { rewrite length_replicate. change (sp (r VM_init)) with 65535. lia. }
    exists s'. split; [exact E |]. rewrite Hsp, length_replicate.
    change (sp (r VM_init)) with 65535. lia.
  - apply (X9_stack_depth VM_init (replicate (Z.to_nat 32768) 0xABCD)
             wf_VM_init (HF _)).
    rewrite length_replicate. change (sp (r VM_init)) with 65535. lia.
Defined.

(** ** The loader on programs that fit *)

Section LoaderFits.

Lemma loadProgram_app p : forall q s,
  loadProgram (p ++ q) s = (loadProgram p ;; loadProgram q) s.
Proof.
  induction p as [| i rest IH]; intros q s.
  - reflexivity.
  - cbn [app loadProgram]. rewrite bind_assoc. unfold bind.
    destruct (loadInstruction i s); try reflexivity.
    rewrite IH. reflexivity.
Qed.

(** For tags of size 0 and 1 the loader stores the tag only; the second
    operand is never stored. *)
Lemma loadInstruction_operands i j s :
  wf s -> op i = op j -> (2 <= size_of (op i) -> a1 i = a1 j) ->
  loadInstruction i s = loadInstruction j s.
Proof.
  intros Hs Hop Ha. unfold loadInstruction, bind. rewrite <- Hop.
  rewrite store_next_eq. set (s1 := mkVM _ _ _ _).
  destruct (getInstructionSize_ok s1 (op i) (wf_sizeMap _ Hs)) as (m & _ & ->).
  destruct (size_of_cases (op i)) as [E | [E | E]]; rewrite E in *;
    cbn [Z.leb Z.compare Pos.compare Pos.compare_cont Z.eqb Pos.eqb when];
    try reflexivity.
  rewrite Ha by lia. reflexivity.
Qed.

Lemma wf_loadInstruction i s s' : wf s -> loadInstruction i s = Ret tt s' -> wf s'.
Proof.
  intros Hs. destruct (loadInstruction_spec s i Hs) as (m & Hm & _ & ->).
  pose proof (wf_loaded s (encode i) (breakLine s + stored_bytes (op i)) m
                Hs (Forall_encode i) Hm) as Hw.
  revert Hw. generalize (encode i). intros bytes Hw E.
  by injection E as <-.
Qed.

Lemma loadProgram_operands prog : forall prog' s,
  wf s ->
  Forall2 (fun i j => op i = op j /\ (2 <= size_of (op i) -> a1 i = a1 j))
    prog prog' ->
  loadProgram prog s = loadProgram prog' s.
Proof.
  induction prog as [| i rest IH]; intros prog' s Hs H2;
    inversion H2 as [| ? j ? rest' [Hop Ha] Hrest]; subst; [reflexivity |].
  cbn [loadProgram]. unfold bind.
  rewrite <- (loadInstruction_operands i j s Hs Hop Ha).
  destruct (loadInstruction i s) as [[] s1 | | |] eqn:E; try reflexivity.
  apply IH; [by apply (wf_loadInstruction i s) | done].
Qed.

End LoaderFits.

(** X10: a program that fits between the cursor and the end of the
    memory is stored verbatim.  After [loadProgram] the bytes from the
    cursor on are the tags and operands of the program, low byte first,
    every other byte of the memory and every register is as before, and
    the cursor has moved by the length of the program (to 0 when the
    program ends exactly at the end of the memory). *)
Theorem X10_fitting_program_is_stored_verbatim (s : VM) (prog : list Instruction) :
  wf s -> breakLine s + encoded_length prog <= SIZE ->
  exists s',
    loadProgram prog s = Ret tt s' /\
    (forall k, (k < length (encode_program prog))%nat ->
       data s' !! (Z.to_nat (breakLine s) + k)%nat = encode_program prog !! k) /\
    (forall a, (a < Z.to_nat (breakLine s) \/
                Z.to_nat (breakLine s) + length (encode_program prog) <= a)%nat ->
       data s' !! a = data s !! a) /\
    Z.of_nat (length (encode_program prog)) = encoded_length prog /\
    r s' = r s /\
    breakLine s' = (breakLine s + encoded_length prog) mod 2 ^ 16.
Proof.
  intros Hs Hfit.
  destruct (loadProgram_spec prog s Hs) as (m & Hm & E).
  pose proof (length_encode_program prog) as Hlen.
  eexists. split; [exact E |]. cbn [data r breakLine].
  split; [| split; [| split; [exact Hlen | split; reflexivity]]].
  - intros k Hk. apply store_bytes_lookup_in;
      [apply (wf_breakLine _ Hs) | lia | apply (wf_length _ Hs) | exact Hk].
  - intros a Ha. apply store_bytes_lookup_other;
      [apply (wf_breakLine _ Hs) | lia | exact Ha].
Qed.

Lemma X10_fitting_program_is_stored_verbatim_witness :
  let prog := [instr1 MOV 0x1234; instr0 HLT] in
  exists s',
    loadProgram prog VM_init = Ret tt s' /\
    (forall k, (k < length (encode_program prog))%nat ->
       data s' !! (Z.to_nat (breakLine VM_init) + k)%nat
       = encode_program prog !! k) /\
    (forall a, (a < Z.to_nat (breakLine VM_init) \/
                Z.to_nat (breakLine VM_init) + length (encode_program prog) <= a)%nat ->
       data s' !! a = data VM_init !! a) /\
    Z.of_nat (length (encode_program prog)) = encoded_length prog /\
    r s' = r VM_init /\
    breakLine s' = (breakLine VM_init + encoded_length prog) mod 2 ^ 16.
Proof.
  apply (X10_fitting_program_is_stored_verbatim VM_init
           [instr1 MOV 0x1234; instr0 HLT] wf_VM_init).
  vm_compute. discriminate.
Defined.

(** X11: the cursor [breakLine] outlives a call, so a second call of
    [loadProgram] appends.  When [p] and [q] together fit between the
    cursor and the end of the memory, loading [p] leaves the cursor right
    behind the bytes of [p], and loading [q] next stores the bytes of [q]
    from there on: afterwards the bytes of [p] are still at the old
    cursor, the bytes of [q] follow them, no other byte and no register
    has changed, and the cursor has moved by the two lengths. *)
Theorem X11_loading_twice_appends (s : VM) (p q : list Instruction) :
  wf s -> breakLine s + encoded_length p + encoded_length q <= SIZE ->
  exists s1 s',
    loadProgram p s = Ret tt s1 /\ loadProgram q s1 = Ret tt s' /\
    breakLine s1 = (breakLine s + encoded_length p) mod 2 ^ 16 /\
    (forall k, (k < length (encode_program p))%nat ->
       data s' !! (Z.to_nat (breakLine s) + k)%nat = encode_program p !! k) /\
    (forall k, (k < length (encode_program q))%nat ->
       data s' !! (Z.to_nat (breakLine s) + length (encode_program p) + k)%nat
       = encode_program q !! k) /\
    (forall a, (a < Z.to_nat (breakLine s) \/
                Z.to_nat (breakLine s) + length (encode_program p)
                + length (encode_program q) <= a)%nat ->
       data s' !! a = data s !! a) /\
    r s' = r s /\
    breakLine s' = (breakLine s + encoded_length p + encoded_length q) mod 2 ^ 16.
Proof.
  intros Hs Hfit.
  destruct (loadProgram_spec p s Hs) as (m1 & Hm1 & E1).
  destruct (loadProgram_spec (p ++ q) s Hs) as (m & Hm & E).
  pose proof (loadProgram_app p q s) as Happ.
  rewrite E in Happ. unfold bind in Happ. rewrite E1 in Happ. symmetry in Happ.
  pose proof (length_encode_program p) as Lp.
  pose proof (length_encode_program q) as Lq.
  pose proof (wf_breakLine _ Hs) as Hb.
  assert (Hall : breakLine s
                 + Z.of_nat (length (encode_program p ++ encode_program q)) <= SIZE).
  { rewrite length_app, Nat2Z.inj_add. lia. }
  eexists _, _. split; [exact E1 |]. split; [exact Happ |].
  cbn [data r breakLine]. rewrite encode_program_app.
  split; [reflexivity |]. split; [| split; [| split; [| split]]].
  - intros k Hk.
    rewrite store_bytes_lookup_in;
      [| exact Hb | exact Hall | apply (wf_length _ Hs) | rewrite length_app; lia].
    by apply lookup_app_l.
  - intros k Hk. rewrite <- Nat.add_assoc.
    rewrite store_bytes_lookup_in;
      [| exact Hb | exact Hall | apply (wf_length _ Hs) | rewrite length_app; lia].
    rewrite lookup_app_r by lia. f_equal. lia.
  - intros a Ha. apply store_bytes_lookup_other;
      [exact Hb | exact Hall | rewrite length_app; lia].
  - reflexivity.
  - unfold to_u16. by rewrite encoded_length_app, Z.add_assoc.
Qed.

Lemma X11_loading_twice_appends_witness :
  let p := [instr1 MOV 0x1234] in
  let q := [instr0 HLT] in
  exists s1 s',
    loadProgram p VM_init = Ret tt s1 /\ loadProgram q s1 = Ret tt s' /\
    breakLine s1 = (breakLine VM_init + encoded_length p) mod 2 ^ 16 /\
    (forall k, (k < length (encode_program p))%nat ->
       data s' !! (Z.to_nat (breakLine VM_init) + k)%nat = encode_program p !! k) /\
    (forall k, (k < length (encode_program q))%nat ->
       data s' !! (Z.to_nat (breakLine VM_init) + length (encode_program p) + k)%nat
       = encode_program q !! k) /\
    (forall a, (a < Z.to_nat (breakLine VM_init) \/
                Z.to_nat (breakLine VM_init) + length (encode_program p)
                + length (encode_program q) <= a)%nat ->
       data s' !! a = data VM_init !! a) /\
    r s' = r VM_init /\
    breakLine s' = (breakLine VM_init + encoded_length p + encoded_length q) mod 2 ^ 16.
Proof.
  apply (X11_loading_twice_appends VM_init [instr1 MOV 0x1234] [instr0 HLT]
           wf_VM_init).
  vm_compute. discriminate.
Defined.

(** X12: the loader keeps of an instruction only what its tag calls for.
    The second operand is never stored, and the first operand is stored
    only for the tags of size 3: two programs with the same tags that agree
    on the first operands of those instructions load to the same machine.
    And whatever the memory holds, a fetch returns 0 as second operand. *)
Theorem X12_unused_operands_are_dropped
    (s : VM) (prog prog' : list Instruction) :
  wf s ->
  Forall2 (fun i j => op i = op j /\ (size_of (op i) = 3 -> a1 i = a1 j))
    prog prog' ->
  loadProgram prog s = loadProgram prog' s /\
  (forall i s', fetchNextInstruction s = Ret i s' -> a2 i = 0).
Proof.
  intros Hs H2. split.
  - apply loadProgram_operands; [done |].
    eapply Forall2_impl; [exact H2 |].
    intros i j [Hop Ha]. split; [done |]. intros Hsize. apply Ha.
    destruct (size_of_cases (op i)) as [E | [E | E]]; lia.
  - intros i s'. destruct (fetch_ok s Hs) as (m & _ & _ & ->).
    by intros [= <- _].
Qed.

Lemma X12_unused_operands_are_dropped_witness :
  loadProgram [mkInstruction NOP 0x1111 0x2222; mkInstruction MOV 7 0x3333] VM_init
  = loadProgram [instr0 NOP; instr1 MOV 7] VM_init /\
  (forall i s', fetchNextInstruction VM_init = Ret i s' -> a2 i = 0).
Proof.
  apply (X12_unused_operands_are_dropped VM_init _ _ wf_VM_init).
  repeat constructor; cbn; try done; intros H; vm_compute in H; discriminate.
Defined.

Section LoadedProgram.

Variables (s : VM) (p q : list Instruction) (i : Instruction) (m : gmap Z Z).
Hypothesis Hs : wf s.
Hypothesis Hm : sizeMap_ok m.
Hypothesis Hrec : recognized (op i) = true.
Hypothesis Ha1 : is_u16 (a1 i).
Hypothesis Hfit : breakLine s + encoded_length (p ++ i :: q) <= SIZE.

(** The machine after the load, standing at the address of [i]. *)
Lemma at_instruction_wf :
  wf (mkVM (set_ip (breakLine s + encoded_length p) (r s))
        (store_bytes (encode_program (p ++ i :: q)) (breakLine s) (data s))
        (to_u16 (breakLine s + encoded_length (p ++ i :: q))) m).
Proof.
  pose proof (wf_breakLine _ Hs) as Hb. unfold is_u16 in Hb.
  pose proof (encoded_length_nonneg p) as Hp.
  pose proof (encoded_length_nonneg q) as Hq.
  pose proof (stored_bytes_pos (op i)) as Hi.
  rewrite encoded_length_app in Hfit.
  change (encoded_length (i :: q))
    with (stored_bytes (op i) + encoded_length q) in Hfit.
  split; cbn [r data breakLine sizeMap].
  - apply (wf_Registers_set _ _ (wf_r _ Hs)). unfold is_u16, SIZE in *. lia.
  - rewrite length_store_bytes. apply (wf_length _ Hs).
  - apply Forall_store_bytes; [apply Forall_encode_program | apply (wf_bytes _ Hs)].
  - apply to_u16_range.
  - exact Hm.
Qed.

Lemma loaded_byte j :
  (j < length (encode i))%nat ->
  store_bytes (encode_program (p ++ i :: q)) (breakLine s) (data s)
  !! Z.to_nat (breakLine s + encoded_length p + Z.of_nat j)
  = encode i !! j.
Proof.
  intros Hj.
  pose proof (wf_breakLine _ Hs) as Hb. unfold is_u16 in Hb.
  pose proof (encoded_length_nonneg p) as Hp.
  pose proof (length_encode_program p) as Hlp.
  pose proof (length_encode_program (p ++ i :: q)) as Hl.
  replace (Z.to_nat (breakLine s + encoded_length p + Z.of_nat j))
    with (Z.to_nat (breakLine s) + (length (encode_program p) + j))%nat by lia.
  assert (encode_program (p ++ i :: q)
          = encode_program p ++ encode i ++ encode_program q) as Eenc
    by (rewrite encode_program_app; reflexivity).
  rewrite store_bytes_lookup_in.
  - rewrite Eenc. rewrite lookup_app_r by lia.
    replace (length (encode_program p) + j - length (encode_program p))%nat
      with j by lia.
    by apply lookup_app_l.
  - apply (wf_breakLine _ Hs).
  - lia.
  - apply (wf_length _ Hs).
  - rewrite Eenc, !length_app. lia.
Qed.

End LoadedProgram.

(** X13: what is loaded is what is fetched.  When a program fits between
    the cursor and the end of the memory, a fetch at the address of any of
    its recognized instructions, that is, the cursor plus the length of
    what precedes it, returns the tag of that instruction, its first
    operand if the tag has size 3 and 0 if it has size 1, and leaves [ip]
    right behind the instruction. *)
Theorem X13_loaded_program_decodes
    (s : VM) (p q : list Instruction) (i : Instruction) :
  wf s -> recognized (op i) = true -> is_u16 (a1 i) ->
  breakLine s + encoded_length (p ++ i :: q) <= SIZE ->
  let a := breakLine s + encoded_length p in
  exists s1,
    loadProgram (p ++ i :: q) s = Ret tt s1 /\
    exists f s2,
      fetchNextInstruction (set_r (set_ip a (r s1)) s1) = Ret f s2 /\
      op f = op i /\
      (size_of (op i) = 3 -> a1 f = a1 i) /\
      (size_of (op i) = 1 -> a1 f = 0) /\
      ip (r s2) = (a + size_of (op i)) mod 2 ^ 16.
Proof.
  intros Hs Hrec Ha1 Hfit a.
  destruct (loadProgram_spec (p ++ i :: q) s Hs) as (m & Hm & E).
  eexists. split; [exact E |].
  cbn [r set_r].
  change (set_r (set_ip a (r s)) (mkVM (r s) ?d ?b m))
    with (mkVM (set_ip a (r s)) d b m).
  pose proof (at_instruction_wf s p q i m Hs Hm Hfit) as Hw. fold a in Hw.
  set (s1 := mkVM (set_ip a (r s)) _ _ m) in *.
  pose proof (wf_breakLine _ Hs) as Hb. unfold is_u16 in Hb.
  pose proof (encoded_length_nonneg p) as Hp.
  pose proof (encoded_length_nonneg q) as Hq.
  assert (a + stored_bytes (op i) <= SIZE) as Hend.
  { rewrite encoded_length_app in Hfit.
    change (encoded_length (i :: q))
      with (stored_bytes (op i) + encoded_length q) in Hfit. unfold a. lia. }
  rewrite stored_bytes_recognized in Hend by done.
  assert (forall j, (j < length (encode i))%nat ->
            byte_at s1 (a + Z.of_nat j) = default 0 (encode i !! j)) as Hbyte.
  { intros j Hj. unfold byte_at. cbn [data s1]. unfold a.
    by rewrite (loaded_byte s p q i Hs Hfit j Hj). }
  assert (byte_at s1 (ip (r s1)) = op i) as Htag.
  { change (ip (r s1)) with a. rewrite <- (Z.add_0_r a).
    change 0 with (Z.of_nat 0). rewrite Hbyte.
    - destruct (size_of_recognized _ Hrec) as [Es | Es].
      + by rewrite (encode_size_1 i Hrec Es).
      + by rewrite (encode_size_3 i Hrec Ha1 Es).
    - pose proof (length_encode i). pose proof (stored_bytes_pos (op i)). lia. }
  rewrite (fetch_recognized s1 Hw) by (by rewrite Htag).
  eexists. eexists. split; [reflexivity |].
  unfold decoded. cbn [op a1]. rewrite Htag.
  split; [reflexivity |].
  split; [| split].
  - intros Es. rewrite Es.
    cbn [Z.leb Z.compare Pos.compare Pos.compare_cont].
    change (ip (r s1)) with a. rewrite Es in Hend. unfold SIZE in Hend.
    rewrite (to_u16_id (a + 1)) by (unfold is_u16, a in *; lia).
    rewrite (to_u16_id (a + 2)) by (unfold is_u16, a in *; lia).
    pose proof (Hbyte 1%nat) as H1. pose proof (Hbyte 2%nat) as H2.
    rewrite (encode_size_3 i Hrec Ha1 Es) in H1, H2.
    change (Z.of_nat 1) with 1 in H1. change (Z.of_nat 2) with 2 in H2.
    rewrite H1, H2 by (cbn [length]; lia).
    apply combine_split.
  - intros Es. rewrite Es. reflexivity.
  - reflexivity.
Qed.

Lemma X13_loaded_program_decodes_witness :
  let p := [instr0 NOP; instr1 MOV 0x1234] in
  let i := instr1 PUSH 0x0002 in
  let q := [instr0 HLT] in
  let a := breakLine VM_init + encoded_length p in
  exists s1,
    loadProgram (p ++ i :: q) VM_init = Ret tt s1 /\
    exists f s2,
      fetchNextInstruction (set_r (set_ip a (r s1)) s1) = Ret f s2 /\
      op f = op i /\
      (size_of (op i) = 3 -> a1 f = a1 i) /\
      (size_of (op i) = 1 -> a1 f = 0) /\
      ip (r s2) = (a + size_of (op i)) mod 2 ^ 16.
Proof.
  apply (X13_loaded_program_decodes VM_init
           [instr0 NOP; instr1 MOV 0x1234] [instr0 HLT] (instr1 PUSH 0x0002)
           wf_VM_init).
  - reflexivity.
  - cbn. unfold is_u16. lia.
  - vm_compute. discriminate.
Defined.

(** ** Sequences of flag operations *)

Section FlagSequences.

(** [setFlag] on one of the four masks writes the bit of the mask and
    keeps every other bit of a 16-bit flag word. *)
Lemma setFlag_bits s mask v :
  is_u16 (flags (r s)) -> mask ∈ [Equal; Greater; Higher; Lower] ->
  exists F,
    setFlag mask v s = Ret tt (set_r (set_flags F (r s)) s) /\
    is_u16 F /\
    forall i, 0 <= i ->
      Z.testbit F i = if decide (i = flag_bit mask) then v else Z.testbit (flags (r s)) i.
Proof.
  intros Hf Hmask.
  destruct (flag_mask_pow2 mask Hmask) as [Epow Hbit].
  assert (is_u16 mask) as Hm.
  { rewrite Epow. unfold is_u16. split; [apply Z.pow_nonneg; lia |].
    apply (Z.lt_le_trans _ (2 ^ 4)); [apply Z.pow_lt_mono_r; lia | lia]. }
  destruct v.
  - exists (Z.lor (flags (r s)) mask). split; [by apply setFlag_true |].
    split.
    + rewrite <- (to_u16_low_bits (Z.lor (flags (r s)) mask)); [apply to_u16_range |].
      intros n Hn. rewrite Z.lor_spec, !testbit_u16_high by done. reflexivity.
    + intros i Hi. apply set_bit_spec; lia.
  - exists (Z.ldiff (flags (r s)) mask). split; [by apply setFlag_false |].
    split.
    + rewrite <- (to_u16_low_bits (Z.ldiff (flags (r s)) mask)); [apply to_u16_range |].
      intros n Hn. rewrite Z.ldiff_spec, testbit_u16_high by done. reflexivity.
    + intros i Hi. apply clear_bit_spec; lia.
Qed.

Lemma set_flags_twice F G s :
  set_r (set_flags F (r (set_r (set_flags G (r s)) s))) (set_r (set_flags G (r s)) s)
  = set_r (set_flags F (r s)) s.
Proof. destruct s as [[] ? ? ?]. reflexivity. Qed.

(** Two flag writes in a row, as one write of a flag word given by its
    bits. *)
Lemma setFlag_twice_bits s m1 v1 m2 v2 :
  is_u16 (flags (r s)) ->
  m1 ∈ [Equal; Greater; Higher; Lower] -> m2 ∈ [Equal; Greater; Higher; Lower] ->
  exists F,
    (setFlag m1 v1 ;; setFlag m2 v2) s = Ret tt (set_r (set_flags F (r s)) s) /\
    forall i, 0 <= i ->
      Z.testbit F i
      = if decide (i = flag_bit m2) then v2
        else if decide (i = flag_bit m1) then v1
        else Z.testbit (flags (r s)) i.
Proof.
  intros Hf H1 H2.
  destruct (setFlag_bits s m1 v1 Hf H1) as (G & EG & HG & HGb).
  destruct (setFlag_bits (set_r (set_flags G (r s)) s) m2 v2 HG H2)
    as (F & EF & _ & HFb).
  exists F. split.
  - unfold bind. rewrite EG, EF. by rewrite set_flags_twice.
  - intros i Hi. rewrite (HFb i Hi). cbn [r set_r flags set_flags].
    by rewrite (HGb i Hi).
Qed.

End FlagSequences.

(** X14: flag writes are independent and the last one wins.  On a
    16-bit flag word, writes of two different flags give the same machine
    in either order, and two writes of the same flag give the machine that
    the second write alone gives. *)
Theorem X14_flag_writes_commute (s : VM) (m1 m2 : Z) (v1 v2 : bool) :
  is_u16 (flags (r s)) ->
  m1 ∈ [Equal; Greater; Higher; Lower] -> m2 ∈ [Equal; Greater; Higher; Lower] ->
  (m1 <> m2 ->
     (setFlag m1 v1 ;; setFlag m2 v2) s = (setFlag m2 v2 ;; setFlag m1 v1) s) /\
  (setFlag m1 v1 ;; setFlag m1 v2) s = setFlag m1 v2 s.
Proof.
  intros Hf H1 H2. split.
  - intros Hne.
    destruct (setFlag_twice_bits s m1 v1 m2 v2 Hf H1 H2) as (F & -> & HF).
    destruct (setFlag_twice_bits s m2 v2 m1 v1 Hf H2 H1) as (G & -> & HG).
    assert (flag_bit m1 <> flag_bit m2) as Hb
      by (intros Eb; apply Hne; by apply flag_bit_inj).
    replace G with F; [reflexivity |].
    apply Z.bits_inj'. intros i Hi. rewrite (HF i Hi), (HG i Hi).
    repeat case_decide; congruence.
  - destruct (setFlag_twice_bits s m1 v1 m1 v2 Hf H1 H1) as (F & -> & HF).
    destruct (setFlag_bits s m1 v2 Hf H1) as (G & -> & _ & HG).
    replace G with F; [reflexivity |].
    apply Z.bits_inj'. intros i Hi. rewrite (HF i Hi), (HG i Hi).
    repeat case_decide; congruence.
Qed.

Lemma X14_flag_writes_commute_witness :
  (Equal <> Lower ->
     (setFlag Equal true ;; setFlag Lower false) VM_init
     = (setFlag Lower false ;; setFlag Equal true) VM_init) /\
  (setFlag Equal true ;; setFlag Equal false) VM_init = setFlag Equal false VM_init.
Proof.
  apply X14_flag_writes_commute.
  - cbn. unfold is_u16. lia.
  - set_solver.
  - set_solver.
Defined.

(** ** Invariants of a run *)

Section LoopInvariant.

Variable P : VM -> Prop.
Hypothesis P_step : forall s i s', wf s -> P s -> step s = Ret i s' -> P s'.
Hypothesis P_fault : forall s msg s', wf s -> P s -> step s = Exit msg s' -> P s'.


End LoopInvariant.

Section FlagNibble.




End FlagNibble.



(** ** The utilities *)

Section ByteSwap.

Lemma nstoh_swap x :
  is_u16 x -> RohitUtils.nstoh x = 256 * (x mod 256) + x / 256.
Proof.
  intros Hx. unfold RohitUtils.nstoh. cbv zeta. rewrite (to_u16_id x Hx).
  rewrite Z.shiftr_land. change (Z.shiftr 0xff00 8) with 0xff.
  rewrite to_u8_high, to_u8_low.
  rewrite (Z.mod_small (x / 256)) by (apply high_byte_u8; exact Hx).
  rewrite Z.lor_comm, combine_bytes by (apply high_byte_u8 || apply low_byte_u8; done).
  lia.
Qed.

End ByteSwap.

(** X16: [nstoh] exchanges the two bytes of a 16-bit value, so the value
    with high byte [hi] and low byte [lo] becomes the one with high byte
    [lo] and low byte [hi], and applying it twice gives the value back. *)
Theorem X16_nstoh_swaps_bytes (hi lo : Z) :
  is_u8 hi -> is_u8 lo ->
  RohitUtils.nstoh (256 * hi + lo) = 256 * lo + hi /\
  RohitUtils.nstoh (RohitUtils.nstoh (256 * hi + lo)) = 256 * hi + lo.
Proof.
  intros Hhi Hlo. unfold is_u8 in *.
  assert (E : RohitUtils.nstoh (256 * hi + lo) = 256 * lo + hi).
  { rewrite nstoh_swap by (unfold is_u16; lia).
    replace ((256 * hi + lo) mod 256) with lo by (Z.div_mod_to_equations; lia).
    replace ((256 * hi + lo) / 256) with hi by (Z.div_mod_to_equations; lia).
    reflexivity. }
  split; [exact E |].
  rewrite E, nstoh_swap by (unfold is_u16; lia).
  replace ((256 * lo + hi) mod 256) with hi by (Z.div_mod_to_equations; lia).
  replace ((256 * lo + hi) / 256) with lo by (Z.div_mod_to_equations; lia).
  reflexivity.
Qed.

Lemma X16_nstoh_swaps_bytes_witness :
  RohitUtils.nstoh (256 * 0x12 + 0x34) = 256 * 0x34 + 0x12 /\
  RohitUtils.nstoh (RohitUtils.nstoh (256 * 0x12 + 0x34)) = 256 * 0x12 + 0x34.
Proof.
  apply (X16_nstoh_swaps_bytes 0x12 0x34); unfold is_u8; lia.
Defined.

Section CopyLoop.

Variables (dst src N : nat) (buf0 : list Z) (g : nat -> nat).
Hypothesis Hsrc : (src + N <= length buf0)%nat.
Hypothesis Hdst : (dst + N <= length buf0)%nat.
Hypothesis Hg : forall i buf, (i < N)%nat -> copy_inv dst g buf0 i buf ->
  buf !! (src + i)%nat = buf0 !! g i.

Lemma copy_loop_inv n i buf :
  (i + n = N)%nat -> copy_inv dst g buf0 i buf ->
  exists buf', RohitUtils.copy_loop n i dst src buf = Some buf' /\
               copy_inv dst g buf0 N buf'.
Proof.
  revert i buf. induction n as [| n IH]; intros i buf Hn Hinv.
  - exists buf. split; [reflexivity |]. by replace N with i by lia.
  - cbn [RohitUtils.copy_loop].
    pose proof Hinv as (Hlen & Hdone & Hrest).
    destruct (lookup_lt_is_Some_2 buf (src + i)%nat ltac:(lia)) as [b Hb].
    rewrite Hb. rewrite decide_True by lia.
    apply IH; [lia |].
    split; [by rewrite length_insert |]. split.
    + intros k Hk. destruct (decide (k = i)) as [-> | Hne].
      * rewrite list_lookup_insert_eq by lia.
        rewrite <- Hb. apply Hg; [lia | exact Hinv].
      * rewrite list_lookup_insert_ne by lia. apply Hdone. lia.
    + intros a Ha. rewrite list_lookup_insert_ne by lia. apply Hrest. lia.
Qed.

End CopyLoop.

Section ZeroLoop.

Lemma zero_loop_spec str n i buf :
  (str + i + n <= length buf)%nat ->
  exists buf', RohitUtils.zero_loop n i str buf = Some buf' /\
    length buf' = length buf /\
    forall a, buf' !! a =
      if decide (str + i <= a < str + i + n)%nat then Some 0 else buf !! a.
Proof.
  revert i buf. induction n as [| n IH]; intros i buf Hle.
  - exists buf. split; [reflexivity |]. split; [reflexivity |].
    intros a. rewrite decide_False by lia. reflexivity.
  - cbn [RohitUtils.zero_loop]. rewrite decide_True by lia.
    destruct (IH (S i) (<[(str + i)%nat := 0]> buf)) as (buf' & E & Hlen & Hall).
    { rewrite length_insert. lia. }
    exists buf'. split; [exact E |]. rewrite length_insert in Hlen.
    split; [exact Hlen |].
    intros a. rewrite Hall.
    destruct (decide (a = str + i)%nat) as [-> | Hne].
    + rewrite decide_False by lia. rewrite decide_True by lia.
      apply list_lookup_insert_eq. lia.
    + rewrite list_lookup_insert_ne by lia.
      destruct (decide (str + i <= a < str + i + S n)%nat);
        [rewrite decide_True by lia | rewrite decide_False by lia]; reflexivity.
Qed.

End ZeroLoop.

(** X17: [copy] to a destination at or below the source, in one block
    that holds both regions, stores at [dst + k] the byte that was at
    [src + k] before the call, for every [k] below the 16-bit size,
    and changes no other byte. *)
Theorem X17_copy_downwards_is_exact (dst src : nat) (size : Z) (buf : list Z) :
  let n := Z.to_nat (to_u16 size) in
  (dst <= src)%nat -> (src + n <= length buf)%nat ->
  exists buf',
    RohitUtils.copy dst src size buf = Some buf' /\
    length buf' = length buf /\
    (forall k, (k < n)%nat -> buf' !! (dst + k)%nat = buf !! (src + k)%nat) /\
    (forall a, (a < dst \/ dst + n <= a)%nat -> buf' !! a = buf !! a).
Proof.
  intros n Hle Hsrc. unfold RohitUtils.copy. fold n.
  destruct (copy_loop_inv dst src n buf (fun k => (src + k)%nat)
              Hsrc ltac:(lia)) with (n := n) (i := 0%nat) (buf := buf)
    as (buf' & E & Hlen & Hdone & Hrest).
  - intros i b Hi (_ & _ & Hrest). apply Hrest. lia.
  - lia.
  - split; [reflexivity |]. split; [intros k Hk; lia | reflexivity].
  - exists buf'. done.
Qed.

Lemma X17_copy_downwards_is_exact_witness :
  exists buf',
    RohitUtils.copy 0 2 3 [1; 2; 3; 4; 5] = Some buf' /\
    length buf' = length [1; 2; 3; 4; 5] /\
    (forall k, (k < 3)%nat -> buf' !! (0 + k)%nat = [1; 2; 3; 4; 5] !! (2 + k)%nat) /\
    (forall a, (a < 0 \/ 0 + 3 <= a)%nat -> buf' !! a = [1; 2; 3; 4; 5] !! a).
Proof.
  apply (X17_copy_downwards_is_exact 0 2 3 [1; 2; 3; 4; 5]); vm_compute; lia.
Defined.

(** X18: [copy] to a destination [d > 0] bytes above the source goes
    forward, so it reads bytes it has already written: the byte stored at
    [dst + k] is the byte that was at [src + k mod d] before the call.  The
    first [d] bytes of the source are repeated over the destination, which
    is the source region moved only when the size is at most [d]. *)
Theorem X18_copy_upwards_repeats (src d : nat) (size : Z) (buf : list Z) :
  let n := Z.to_nat (to_u16 size) in
  (0 < d)%nat -> (src + d + n <= length buf)%nat ->
  exists buf',
    RohitUtils.copy (src + d) src size buf = Some buf' /\
    length buf' = length buf /\
    (forall k, (k < n)%nat ->
       buf' !! (src + d + k)%nat = buf !! (src + k mod d)%nat) /\
    (forall a, (a < src + d \/ src + d + n <= a)%nat -> buf' !! a = buf !! a) /\
    ((n <= d)%nat ->
     forall k, (k < n)%nat -> buf' !! (src + d + k)%nat = buf !! (src + k)%nat).
Proof.
  intros n Hd Hlen. unfold RohitUtils.copy. fold n.
  destruct (copy_loop_inv (src + d) src n buf (fun k => (src + k mod d)%nat)
              ltac:(lia) Hlen) with (n := n) (i := 0%nat) (buf := buf)
    as (buf' & E & Hlen' & Hdone & Hrest).
  - intros i b Hi (_ & Hdone & Hrest).
    destruct (decide (i < d)%nat) as [Hlt | Hge].
    + rewrite Nat.mod_small by lia. apply Hrest. lia.
    + replace (src + i)%nat with (src + d + (i - d))%nat by lia.
      rewrite Hdone by lia. f_equal. f_equal.
      replace i with ((i - d) + 1 * d)%nat at 2 by lia.
      by rewrite Nat.Div0.mod_add.
  - lia.
  - split; [reflexivity |]. split; [intros k Hk; lia | reflexivity].
  - exists buf'. split; [exact E |]. split; [exact Hlen' |].
    split; [exact Hdone |]. split; [exact Hrest |].
    intros Hnd k Hk. rewrite Hdone by lia. by rewrite Nat.mod_small by lia.
Qed.

Lemma X18_copy_upwards_repeats_witness :
  exists buf',
    RohitUtils.copy (0 + 2) 0 4 [1; 2; 3; 4; 5; 6] = Some buf' /\
    length buf' = length [1; 2; 3; 4; 5; 6] /\
    (forall k, (k < 4)%nat ->
       buf' !! (0 + 2 + k)%nat = [1; 2; 3; 4; 5; 6] !! (0 + k mod 2)%nat) /\
    (forall a, (a < 0 + 2 \/ 0 + 2 + 4 <= a)%nat ->
       buf' !! a = [1; 2; 3; 4; 5; 6] !! a) /\
    ((4 <= 2)%nat ->
     forall k, (k < 4)%nat ->
       buf' !! (0 + 2 + k)%nat = [1; 2; 3; 4; 5; 6] !! (0 + k)%nat).
Proof.
  apply (X18_copy_upwards_repeats 0 2 4 [1; 2; 3; 4; 5; 6]); vm_compute; lia.
Defined.

(** X19: [zero] on a region inside the block sets exactly the bytes of
    the region to 0 and keeps the length.  The size is taken modulo 2^16:
    a size and the size plus 65536 clear the same bytes, and a call for
    the 65536 bytes of the memory of the machine clears nothing. *)
Theorem X19_zero_clears_the_region (str : nat) (size : Z) (buf : list Z) :
  let n := Z.to_nat (to_u16 size) in
  (str + n <= length buf)%nat ->
  (exists buf',
     RohitUtils.zero str size buf = Some buf' /\
     length buf' = length buf /\
     forall a, buf' !! a =
       if decide (str <= a < str + n)%nat then Some 0 else buf !! a) /\
  RohitUtils.zero str (size + SIZE) buf = RohitUtils.zero str size buf /\
  RohitUtils.zero str SIZE buf = Some buf.
Proof.
  intros n Hle. unfold RohitUtils.zero. fold n. repeat split.
  - destruct (zero_loop_spec str n 0 buf ltac:(lia)) as (buf' & E & Hlen & Hall).
    exists buf'. split; [exact E |]. split; [exact Hlen |].
    intros a. rewrite Hall. by replace (str + 0)%nat with str by lia.
  - f_equal. f_equal. unfold to_u16, SIZE. change 65536 with (1 * 2 ^ 16).
    apply Z.mod_add. lia.
Qed.

Lemma X19_zero_clears_the_region_witness :
  (exists buf',
     RohitUtils.zero 1 2 [7; 8; 9; 10] = Some buf' /\
     length buf' = length [7; 8; 9; 10] /\
     forall a, buf' !! a =
       if decide (1 <= a < 1 + Z.to_nat (to_u16 2))%nat then Some 0
       else [7; 8; 9; 10] !! a) /\
  RohitUtils.zero 1 (2 + SIZE) [7; 8; 9; 10] = RohitUtils.zero 1 2 [7; 8; 9; 10] /\
  RohitUtils.zero 1 SIZE [7; 8; 9; 10] = Some [7; 8; 9; 10].
Proof.
  apply (X19_zero_clears_the_region 1 2 [7; 8; 9; 10]). vm_compute. lia.
Defined.

Section Printing.

Lemma string_length_append (s1 s2 : string) :
  String.length (s1 +:+ s2) = (String.length s1 + String.length s2)%nat.
Proof.
  induction s1 as [| c s1 IH]; [reflexivity |].
  change (String c s1 +:+ s2) with (String c (s1 +:+ s2)).
  cbn [String.length Nat.add]. by rewrite IH.
Qed.

Lemma substring_all (s : string) (m : nat) :
  (String.length s <= m)%nat -> String.substring 0 m s = s.
Proof.
  revert m. induction s as [| c s IH]; intros m H; destruct m as [| m];
    cbn in *; try reflexivity; try lia.
  f_equal. apply IH. lia.
Qed.

Lemma hex_value_digit d : 0 <= d < 16 -> hex_value (RohitUtils.hex_digit d) = d.
Proof.
  intros H.
  assert (Hd : d = 0 \/ d = 1 \/ d = 2 \/ d = 3 \/ d = 4 \/ d = 5 \/ d = 6 \/
               d = 7 \/ d = 8 \/ d = 9 \/ d = 10 \/ d = 11 \/ d = 12 \/
               d = 13 \/ d = 14 \/ d = 15) by lia.
  destruct_or!; subst d; vm_compute; reflexivity.
Qed.

Lemma parse_hex_byte b :
  is_u8 b ->
  16 * hex_value (RohitUtils.hex_digit (b / 16))
  + hex_value (RohitUtils.hex_digit (b mod 16)) = b.
Proof.
  unfold is_u8. intros H.
  rewrite !hex_value_digit by (Z.div_mod_to_equations; lia).
  Z.div_mod_to_equations; lia.
Qed.

Lemma print_delim_length delim :
  String.length (RohitUtils.print_delim delim) = if decide (delim = 0) then 0%nat else 1%nat.
Proof. unfold RohitUtils.print_delim. by destruct (decide (delim = 0)). Qed.

Lemma printhex_loop_Some delim buf str n i :
  (str + i + n <= length buf)%nat ->
  exists out, RohitUtils.printhex_loop n i str delim buf = Some out.
Proof.
  revert i. induction n as [| n IH]; intros i Hle; [by eexists |].
  cbn [RohitUtils.printhex_loop].
  destruct (lookup_lt_is_Some_2 buf (str + i)%nat ltac:(lia)) as [b ->].
  destruct (IH (S i) ltac:(lia)) as [rest ->]. by eexists.
Qed.

Lemma printhex_loop_length delim buf str n i out :
  RohitUtils.printhex_loop n i str delim buf = Some out ->
  String.length out =
    (n * (if decide (delim = 0%Z) then 2 else 3) + 1)%nat.
Proof.
  revert i out. induction n as [| n IH]; intros i out E.
  - injection E as <-. reflexivity.
  - cbn [RohitUtils.printhex_loop] in E.
    destruct (buf !! (str + i)%nat) as [b |]; [| discriminate].
    destruct (RohitUtils.printhex_loop n (S i) str delim buf) as [rest |] eqn:Er;
      [| discriminate].
    injection E as <-. rewrite !string_length_append, print_delim_length.
    rewrite (IH _ _ Er). cbn [RohitUtils.hex_byte String.length].
    destruct (decide (delim = 0)); lia.
Qed.

Lemma printhex_loop_parse delim buf str n i out :
  RohitUtils.printhex_loop n i str delim buf = Some out ->
  Forall is_u8 buf ->
  forall k, (k < n)%nat ->
    parsehex n (bool_decide (delim <> 0)) out !! k = buf !! (str + i + k)%nat.
Proof.
  intros E Hbuf. revert i out E. induction n as [| n IH]; intros i out E k Hk; [lia |].
  cbn [RohitUtils.printhex_loop] in E.
  destruct (buf !! (str + i)%nat) as [b |] eqn:Eb; [| discriminate].
  destruct (RohitUtils.printhex_loop n (S i) str delim buf) as [rest |] eqn:Er;
    [| discriminate].
  injection E as <-.
  assert (Hrest :
    (if bool_decide (delim <> 0)
     then String.substring 1
            (String.length (RohitUtils.print_delim delim +:+ rest) - 1)
            (RohitUtils.print_delim delim +:+ rest)
     else RohitUtils.print_delim delim +:+ rest) = rest).
  { unfold RohitUtils.print_delim. destruct (decide (delim = 0)) as [Hz | Hz].
    - by rewrite bool_decide_eq_false_2 by (intros H; exact (H Hz)).
    - rewrite bool_decide_eq_true_2 by exact Hz.
      set (c := Ascii.ascii_of_nat (Z.to_nat delim)).
      change (String c EmptyString +:+ rest) with (String c rest).
      cbn [String.length String.substring].
      replace (S (String.length rest) - 1)%nat with (String.length rest) by lia.
      by apply substring_all. }
  change (RohitUtils.hex_byte b +:+ RohitUtils.print_delim delim +:+ rest)
    with (String (RohitUtils.hex_digit (b / 16))
            (String (RohitUtils.hex_digit (b mod 16))
               (RohitUtils.print_delim delim +:+ rest))).
  cbn [parsehex]. rewrite Hrest.
  destruct k as [| k].
  - rewrite Nat.add_0_r, Eb.
    assert (H0 : forall (x : Z) l, (x :: l) !! 0%nat = Some x) by reflexivity.
    rewrite H0. f_equal.
    apply parse_hex_byte. exact (proj1 (Forall_lookup _ _) Hbuf _ _ Eb).
  - etrans; [exact (IH _ _ Er k ltac:(lia)) |]. f_equal. lia.
Qed.

Lemma printhex_loop_ext delim buf1 buf2 str n i :
  (forall k, (i <= k < i + n)%nat -> buf1 !! (str + k)%nat = buf2 !! (str + k)%nat) ->
  RohitUtils.printhex_loop n i str delim buf1 =
  RohitUtils.printhex_loop n i str delim buf2.
Proof.
  revert i. induction n as [| n IH]; intros i H; [reflexivity |].
  cbn [RohitUtils.printhex_loop].
  rewrite (H i) by lia. rewrite (IH (S i)) by (intros k Hk; apply H; lia).
  reflexivity.
Qed.

Lemma pretty_byte_length x :
  is_u8 x -> (1 <= String.length (pretty x) <= 3)%nat.
Proof.
  intros Hx. unfold is_u8 in Hx.
  assert (H : forallb (fun n => let l := String.length (pretty (Z.of_nat n)) in
                         (1 <=? l)%nat && (l <=? 3)%nat) (seq 0 256) = true)
    by (vm_compute; reflexivity).
  rewrite forallb_forall in H. specialize (H (Z.to_nat x)).
  rewrite Z2Nat.id in H by lia. cbv zeta in H.
  assert (Hin : In (Z.to_nat x) (seq 0 256)) by (apply in_seq; lia).
  apply H in Hin. apply andb_prop in Hin as [H1 H2].
  apply Nat.leb_le in H1, H2. lia.
Qed.

Lemma address_fields a b c d :
  is_u8 a -> is_u8 b -> is_u8 c -> is_u8 d ->
  let ip := a + 256 * b + 65536 * c + 16777216 * d in
  ip mod 2 ^ 32 = ip /\
  Z.land ip 0x000000FF = a /\
  Z.shiftr (Z.land ip 0x0000FF00) 8 = b /\
  Z.shiftr (Z.land ip 0x00FF0000) 16 = c /\
  Z.shiftr (Z.land ip 0xFF000000) 24 = d.
Proof.
  unfold is_u8. intros Ha Hb Hc Hd. cbv zeta.
  set (ip := a + 256 * b + 65536 * c + 16777216 * d).
  split; [apply Z.mod_small; subst ip; lia |].
  split; [rewrite low_byte; subst ip; Z.div_mod_to_equations; lia |].
  rewrite !Z.shiftr_land.
  change (Z.shiftr 0x0000FF00 8) with 0xff.
  change (Z.shiftr 0x00FF0000 16) with 0xff.
  change (Z.shiftr 0xFF000000 24) with 0xff.
  rewrite !low_byte, !Z.shiftr_div_pow2 by lia.
  change (2 ^ 8) with 256. change (2 ^ 16) with 65536. change (2 ^ 24) with 16777216.
  subst ip. repeat split; Z.div_mod_to_equations; lia.
Qed.

End Printing.

Section PrintedText.

Lemma hex_digit_lower d : 0 <= d < 16 -> RohitUtils.hex_digit d = lower_hex d.
Proof.
  intros H.
  assert (Hd : d = 0 \/ d = 1 \/ d = 2 \/ d = 3 \/ d = 4 \/ d = 5 \/ d = 6 \/
               d = 7 \/ d = 8 \/ d = 9 \/ d = 10 \/ d = 11 \/ d = 12 \/
               d = 13 \/ d = 14 \/ d = 15) by lia.
  destruct_or!; subst d; vm_compute; reflexivity.
Qed.

Lemma get_skip2 c1 c2 (t : string) m :
  String.get (2 + m) (String c1 (String c2 t)) = String.get m t.
Proof. reflexivity. Qed.

Lemma get_skip3 c1 c2 c3 (t : string) m :
  String.get (3 + m) (String c1 (String c2 (String c3 t))) = String.get m t.
Proof. reflexivity. Qed.

(** The characters of the output of the loop, byte by byte. *)
Lemma printhex_loop_chars delim buf str n : forall i out,
  RohitUtils.printhex_loop n i str delim buf = Some out ->
  let w := if decide (delim = 0) then 2%nat else 3%nat in
  (forall k b, (k < n)%nat -> buf !! (str + i + k)%nat = Some b ->
     String.get (w * k) out = Some (RohitUtils.hex_digit (b / 16)) /\
     String.get (w * k + 1) out = Some (RohitUtils.hex_digit (b mod 16)) /\
     (delim <> 0 ->
      String.get (w * k + 2) out = Some (Ascii.ascii_of_nat (Z.to_nat delim)))) /\
  String.get (w * n) out = Some (Ascii.ascii_of_nat 10).
Proof.
  induction n as [| n IH]; intros i out E w.
  - injection E as <-. split; [intros k b Hk; lia |].
    rewrite Nat.mul_0_r. reflexivity.
  - cbn [RohitUtils.printhex_loop] in E.
    destruct (buf !! (str + i)%nat) as [b0 |] eqn:Eb; [| discriminate].
    destruct (RohitUtils.printhex_loop n (S i) str delim buf) as [rest |] eqn:Er;
      [| discriminate].
    injection E as <-.
    destruct (IH _ _ Er) as [IHk IHn]. fold w in IHk, IHn.
    set (c1 := RohitUtils.hex_digit (b0 / 16)).
    set (c2 := RohitUtils.hex_digit (b0 mod 16)).
    unfold RohitUtils.print_delim. subst w.
    destruct (decide (delim = 0)) as [Hz | Hz].
    + change (RohitUtils.hex_byte b0 +:+ EmptyString +:+ rest)
        with (String c1 (String c2 rest)).
      split.
      * intros k b Hk Hb. destruct k as [| k].
        -- rewrite Nat.add_0_r, Eb in Hb. injection Hb as <-.
           split; [reflexivity |]. split; [reflexivity | done].
        -- replace (str + i + S k)%nat with (str + S i + k)%nat in Hb by lia.
           destruct (IHk k b ltac:(lia) Hb) as (H1 & H2 & H3).
           replace (2 * S k)%nat with (2 + 2 * k)%nat by lia.
           rewrite <- !Nat.add_assoc, !get_skip2. done.
      * replace (2 * S n)%nat with (2 + 2 * n)%nat by lia.
        by rewrite get_skip2.
    + set (c3 := Ascii.ascii_of_nat (Z.to_nat delim)).
      change (RohitUtils.hex_byte b0 +:+ String c3 EmptyString +:+ rest)
        with (String c1 (String c2 (String c3 rest))).
      split.
      * intros k b Hk Hb. destruct k as [| k].
        -- rewrite Nat.add_0_r, Eb in Hb. injection Hb as <-.
           split; [reflexivity |]. split; reflexivity.
        -- replace (str + i + S k)%nat with (str + S i + k)%nat in Hb by lia.
           destruct (IHk k b ltac:(lia) Hb) as (H1 & H2 & H3).
           replace (3 * S k)%nat with (3 + 3 * k)%nat by lia.
           rewrite <- !Nat.add_assoc, !get_skip3. done.
      * replace (3 * S n)%nat with (3 + 3 * n)%nat by lia.
        by rewrite get_skip3.
Qed.

End PrintedText.

(** X20: [printhex] of a region of bytes inside the block prints, for
    each byte in order, its two hex digits in lower case, the high one
    first, and then the delimiter when the delimiter is not 0, and a line
    feed at the end; with [w] = 2 or 3 characters a byte, the digits of
    the byte [k] are the characters [w k] and [w k + 1] of the text, the
    delimiter is the character [w k + 2], the line feed is the character
    [w n], and the text has [w n + 1] characters.  So the text determines
    the bytes: two blocks of bytes with the same output agree on the
    printed region. *)
Theorem X20_printhex_shows_every_byte (str : nat) (size delim : Z)
    (buf : list Z) :
  let n := Z.to_nat (to_u16 size) in
  let w := if decide (to_u8 delim = 0) then 2%nat else 3%nat in
  (str + n <= length buf)%nat -> Forall is_u8 buf ->
  exists out,
    RohitUtils.printhex str size delim buf = Some out /\
    String.length out = (w * n + 1)%nat /\
    (forall k b, (k < n)%nat -> buf !! (str + k)%nat = Some b ->
       String.get (w * k) out = Some (lower_hex (b / 16)) /\
       String.get (w * k + 1) out = Some (lower_hex (b mod 16)) /\
       (to_u8 delim <> 0 ->
        String.get (w * k + 2) out
        = Some (Ascii.ascii_of_nat (Z.to_nat (to_u8 delim))))) /\
    String.get (w * n) out = Some (Ascii.ascii_of_nat 10) /\
    forall buf2, Forall is_u8 buf2 ->
      RohitUtils.printhex str size delim buf2 = Some out ->
      forall k, (k < n)%nat -> buf2 !! (str + k)%nat = buf !! (str + k)%nat.
Proof.
  intros n w Hle Hbuf. unfold RohitUtils.printhex. fold n.
  destruct (printhex_loop_Some (to_u8 delim) buf str n 0 ltac:(lia)) as [out E].
  exists out. split; [exact E |].
  destruct (printhex_loop_chars _ _ _ _ _ _ E) as [Hk Hn]. fold w in Hk, Hn.
  split.
  { rewrite (printhex_loop_length _ _ _ _ _ _ E). subst w.
    destruct (decide (to_u8 delim = 0)); lia. }
  split.
  { intros k b Hlt Hb.
    assert (Hu : is_u8 b) by exact (proj1 (Forall_lookup _ _) Hbuf _ _ Hb).
    unfold is_u8 in Hu.
    rewrite <- (Nat.add_0_r str) in Hb.
    destruct (Hk k b Hlt Hb) as (H1 & H2 & H3).
    rewrite <- !hex_digit_lower by (Z.div_mod_to_equations; lia). done. }
  split; [exact Hn |].
  intros buf2 Hbuf2 E2 k Hk2.
  pose proof (printhex_loop_parse _ _ _ _ _ _ E Hbuf k Hk2) as P1.
  pose proof (printhex_loop_parse _ _ _ _ _ _ E2 Hbuf2 k Hk2) as P2.
  rewrite Nat.add_0_r in P1, P2. congruence.
Qed.

Lemma X20_printhex_shows_every_byte_witness :
  RohitUtils.printhex 1 3 32 [1; 222; 173; 15; 7] = Some ("de ad 0f " +:+ RohitUtils.newline) /\
  exists out,
    RohitUtils.printhex 1 3 32 [1; 222; 173; 15; 7] = Some out /\
    String.length out = (3 * 3 + 1)%nat /\
    (forall k b, (k < 3)%nat -> [1; 222; 173; 15; 7] !! (1 + k)%nat = Some b ->
       String.get (3 * k) out = Some (lower_hex (b / 16)) /\
       String.get (3 * k + 1) out = Some (lower_hex (b mod 16)) /\
       (to_u8 32 <> 0 ->
        String.get (3 * k + 2) out
        = Some (Ascii.ascii_of_nat (Z.to_nat (to_u8 32))))) /\
    String.get (3 * 3) out = Some (Ascii.ascii_of_nat 10) /\
    forall buf2, Forall is_u8 buf2 ->
      RohitUtils.printhex 1 3 32 buf2 = Some out ->
      forall k, (k < 3)%nat ->
        buf2 !! (1 + k)%nat = [1; 222; 173; 15; 7] !! (1 + k)%nat.
Proof.
  split; [reflexivity |].
  apply (X20_printhex_shows_every_byte 1 3 32 [1; 222; 173; 15; 7]).
  - vm_compute. lia.
  - repeat constructor; unfold is_u8; lia.
Defined.

(** X21: the report of [HLT] is always printed by a well-formed machine,
    and its hex dump shows the 32 bytes at the addresses 0xFFDF to 0xFFFE
    and nothing else: two machines print the same dump exactly when they
    agree on these addresses.  The byte at 0xFFFF, the last one of the
    memory, is not in the dump.  Machines that agree on these bytes and on
    [ax], [bx], [cx], [dx] and [sp] print the same report. *)
Theorem X21_HLT_dump_window (s1 s2 : VM) :
  wf s1 -> wf s2 ->
  is_Some (HLT_output s1) /\
  (HLT_dump s1 = HLT_dump s2 <->
   forall a, 0xFFDF <= a <= 0xFFFE -> byte_at s1 a = byte_at s2 a) /\
  ((forall a, 0xFFDF <= a <= 0xFFFE -> byte_at s1 a = byte_at s2 a) ->
   ax (r s1) = ax (r s2) -> bx (r s1) = bx (r s2) -> cx (r s1) = cx (r s2) ->
   dx (r s1) = dx (r s2) -> sp (r s1) = sp (r s2) ->
   HLT_output s1 = HLT_output s2).
Proof.
  intros Hs1 Hs2.
  pose proof (wf_length s1 Hs1) as L1. pose proof (wf_length s2 Hs2) as L2.
  assert (Hext : (forall a, 0xFFDF <= a <= 0xFFFE -> byte_at s1 a = byte_at s2 a) ->
                 HLT_dump s1 = HLT_dump s2).
  { intros H. unfold HLT_dump, RohitUtils.printhex.
    apply printhex_loop_ext. intros k Hk.
    change (Z.to_nat (to_u16 32)) with 32%nat in Hk.
    replace (Z.to_nat (0xffff - 32) + k)%nat
      with (Z.to_nat (0xFFDF + Z.of_nat k)) by (clear - Hk; lia).
    assert (Ha : is_u16 (0xFFDF + Z.of_nat k)) by (unfold is_u16; lia).
    rewrite (proj1 (lookup_byte s1 _ Hs1 Ha)), (proj1 (lookup_byte s2 _ Hs2 Ha)).
    f_equal. apply H. lia. }
  destruct (printhex_loop_Some (to_u8 32) (data s1) (Z.to_nat (0xffff - 32))
              (Z.to_nat (to_u16 32)) 0) as [out E].
  { rewrite L1. change (to_u16 32) with 32. unfold SIZE. lia. }
  split; [| split].
  - unfold HLT_output, HLT_dump, RohitUtils.printhex. rewrite E. by eexists.
  - split; [| exact Hext].
    intros Hd a Ha.
    unfold HLT_dump, RohitUtils.printhex in Hd. rewrite E in Hd. symmetry in Hd.
    pose proof (printhex_loop_parse _ _ _ _ _ _ E (wf_bytes s1 Hs1)
                  (Z.to_nat (a - 0xFFDF))) as P1.
    pose proof (printhex_loop_parse _ _ _ _ _ _ Hd (wf_bytes s2 Hs2)
                  (Z.to_nat (a - 0xFFDF))) as P2.
    change (Z.to_nat (to_u16 32)) with 32%nat in P1, P2.
    specialize (P1 ltac:(lia)). specialize (P2 ltac:(lia)).
    replace (Z.to_nat (0xffff - 32) + 0 + Z.to_nat (a - 0xFFDF))%nat
      with (Z.to_nat a) in P1, P2 by lia.
    unfold byte_at. congruence.
  - intros H Ha Hb Hc Hd Hsp. unfold HLT_output.
    rewrite (Hext H), Ha, Hb, Hc, Hd, Hsp. reflexivity.
Qed.

Lemma X21_HLT_dump_window_witness :
  is_Some (HLT_output VM_init) /\
  (HLT_dump VM_init = HLT_dump (VM_with [1]) <->
   forall a, 0xFFDF <= a <= 0xFFFE -> byte_at VM_init a = byte_at (VM_with [1]) a) /\
  ((forall a, 0xFFDF <= a <= 0xFFFE ->
      byte_at VM_init a = byte_at (VM_with [1]) a) ->
   ax (r VM_init) = ax (r (VM_with [1])) -> bx (r VM_init) = bx (r (VM_with [1])) ->
   cx (r VM_init) = cx (r (VM_with [1])) ->
   dx (r VM_init) = dx (r (VM_with [1])) -> sp (r VM_init) = sp (r (VM_with [1])) ->
   HLT_output VM_init = HLT_output (VM_with [1])).
Proof.
  exact (X21_HLT_dump_window VM_init (VM_with [1]) wf_VM_init (wf_VM_with [1] I)).
Defined.

(** X22: [todotted] prints the four bytes of the address from the least
    significant one to the most significant one, in decimal with dots
    between them: the address [a + 256 b + 65536 c + 16777216 d] gives
    the text "a.b.c.d".  The text has 7 to 15 characters, so the buffer
    of 16 characters never cuts it. *)
Theorem X22_todotted_low_byte_first (a b c d : Z) :
  is_u8 a -> is_u8 b -> is_u8 c -> is_u8 d ->
  let text := RohitUtils.todotted (a + 256 * b + 65536 * c + 16777216 * d) in
  text = pretty a +:+ "." +:+ pretty b +:+ "." +:+ pretty c +:+ "." +:+ pretty d /\
  (7 <= String.length text <= 15)%nat.
Proof.
  intros Ha Hb Hc Hd text.
  destruct (address_fields a b c d Ha Hb Hc Hd) as (E0 & Ea & Eb & Ec & Ed).
  cbv zeta in E0, Ea, Eb, Ec, Ed.
  assert (Etext : RohitUtils.dotted_text (a + 256 * b + 65536 * c + 16777216 * d)
          = pretty a +:+ "." +:+ pretty b +:+ "." +:+ pretty c +:+ "." +:+ pretty d).
  { unfold RohitUtils.dotted_text. cbv zeta. rewrite E0, Ea, Eb, Ec, Ed. reflexivity. }
  pose proof (pretty_byte_length a Ha). pose proof (pretty_byte_length b Hb).
  pose proof (pretty_byte_length c Hc). pose proof (pretty_byte_length d Hd).
  assert (Hlen : (7 <= String.length (pretty a +:+ "." +:+ pretty b +:+ "." +:+
                         pretty c +:+ "." +:+ pretty d) <= 15)%nat).
  { rewrite !string_length_append. cbn [String.length]. lia. }
  subst text. unfold RohitUtils.todotted, RohitUtils.snprintf.
  rewrite Etext. rewrite substring_all by (cbn [Nat.sub]; lia).
  split; [reflexivity | exact Hlen].
Qed.

Lemma X22_todotted_low_byte_first_witness :
  RohitUtils.todotted 3232235777 = "1.1.168.192" /\
  (7 <= String.length (RohitUtils.todotted 3232235777) <= 15)%nat.
Proof.
  apply (X22_todotted_low_byte_first 1 1 168 192); unfold is_u8; lia.
Defined.

(** ** The driver *)

Section Driver.

Lemma runProgram_from_more_fuel m n prog o :
  runProgram_from m n prog = o -> o <> Stuck ->
  forall n', (n <= n')%nat -> runProgram_from m n' prog = o.
Proof.
  unfold runProgram_from, bind. intros Hrun Hns n' Hle.
  destruct (loadProgram prog (set_sizeMap m VM_init)) as [a s1 | msg s1 | e s1 |];
    try exact Hrun.
  by apply (execute_more_fuel n).
Qed.

Lemma main_loop_more_fuel n progs m :
  Forall (fun o => o <> Stuck) (main_loop n progs m) ->
  forall n', (n <= n')%nat -> main_loop n' progs m = main_loop n progs m.
Proof.
  revert m. induction progs as [| [title prog] progs IH]; intros m H n' Hle;
    [reflexivity |].
  cbn [main_loop] in *. cbv zeta in *.
  apply Forall_cons in H as [Hns H].
  rewrite (runProgram_from_more_fuel m n prog _ eq_refl Hns n' Hle).
  destruct (runProgram_from m n prog) as [a s1 | msg s1 | e s1 |]; try reflexivity.
  f_equal. by apply IH.
Qed.

Lemma main_check_spec os ps :
  main_check os ps = true ->
  exists hs o,
    os = hs ++ [o] /\
    Forall2 (fun o p => halts_with o p = true) hs ps /\
    faults_with o "Division by zero" at_division = true.
Proof.
  revert ps. induction os as [| o os IH]; intros ps H; [discriminate |].
  destruct ps as [| p ps].
  - destruct os; [| discriminate]. exists [], o. by repeat split.
  - assert (H' : halts_with o p && main_check os ps = true).
    { destruct os; exact H. }
    apply andb_prop in H' as [Ho Hos].
    destruct (IH ps Hos) as (hs & o' & -> & Hhs & Hf).
    exists (o :: hs), o'. split; [reflexivity |]. split; [by constructor | exact Hf].
Qed.

Lemma halts_with_not_Stuck (o : outcome unit) p : halts_with o p = true -> o <> Stuck.
Proof. by destruct o. Qed.

Lemma halted_not_Stuck (hs : list (outcome unit)) ps :
  Forall2 (fun o p => halts_with o p = true) hs ps ->
  Forall (fun o => o <> Stuck) hs.
Proof.
  induction 1 as [| o p hs ps Ho _ IH]; constructor;
    [by apply (halts_with_not_Stuck o p) | exact IH].
Qed.

Lemma faults_with_Exit (o : outcome unit) msg p :
  faults_with o msg p = true -> exists s, o = Exit msg s /\ p (r s) = true.
Proof.
  destruct o as [a s | msg' s | e s |]; try discriminate. cbn [faults_with].
  intros H. apply andb_prop in H as [Hm Hp].
  apply bool_decide_eq_true_1 in Hm as ->. by exists s.
Qed.

End Driver.

(** X23: [main] runs its nine test programs in order on fresh machines.
    The first eight halt, each with the register values that the comments
    of [main.cpp] give (and the flags 0x0A after the flag program); the
    ninth ends the process in [handleError] with "Division by zero", with
    [ax = 0x20] and [bx = 0].  So [main] never reaches its [return 0]. *)
Theorem X23_main_ends_in_division_by_zero (fuel : nat) :
  (7 <= fuel)%nat ->
  exists hs s,
    main fuel = hs ++ [Exit "Division by zero" s] /\
    Forall2 (fun o p => halts_with o p = true) hs announced /\
    ax (r s) = 0x20 /\ bx (r s) = 0.
Proof.
  intros Hfuel.
  assert (Hc : main_check (main 7) announced = true) by (vm_compute; reflexivity).
  destruct (main_check_spec _ _ Hc) as (hs & o & E & Hhs & Hf).
  destruct (faults_with_Exit _ _ _ Hf) as (s & -> & Hs).
  unfold at_division in Hs. apply andb_prop in Hs as [Ha Hb].
  apply Z.eqb_eq in Ha, Hb.
  exists hs, s. split; [| by repeat split].
  unfold main in *. rewrite <- E. apply main_loop_more_fuel; [| exact Hfuel].
  rewrite E. apply Forall_app. split.
  - exact (halted_not_Stuck _ _ Hhs).
  - by repeat constructor.
Qed.

Lemma X23_main_ends_in_division_by_zero_witness :
  exists hs s,
    main 9 = hs ++ [Exit "Division by zero" s] /\
    Forall2 (fun o p => halts_with o p = true) hs announced /\
    ax (r s) = 0x20 /\ bx (r s) = 0.
Proof.
  apply (X23_main_ends_in_division_by_zero 9). lia.
Defined.
